(** * Prefetch and batch-download engine (package [stream], PrefetchManager)

    A shallow embedding of the Go type [PrefetchManager] and of the methods
    that decide its documented properties: the download record framing, the
    wait-group accounting of the download queue, the resource discipline of
    the download handler, absolute-path resolution through [lookupDcache],
    the index registry ([AddIndexFilepath], [resetExistedIndexInfo],
    [readIndexFileByLine]), the janitor sweep and the nil-receiver guards.

    Conventions.
    - Go [string] and [[]byte] are byte sequences: [string] is Rocq's
      [string] (a list of 8-bit [ascii]), a byte slice is [list byte].
    - [int], [int64], [uint64], [time.Duration] are [Z]; where the source
      can wrap around, the wrap is written out ([wrap64]).
    - [time.Time] is a number of nanoseconds since the Unix epoch; every
      [time.Now()] of the source is an explicit argument of the model.
    - [sync.Map] is a [gmap]; an operation of [sync.Map] is one atomic step.
    - The file-system client [ExtentClient], the block pool and the HTTP
      writer are collaborators outside the package: they appear as
      parameters of the sections below. *)

From Stdlib Require Import ZArith Lia List Ascii String Bool.
From Stdlib Require Import Strings.Byte.
From stdpp Require Import gmap strings list fin_maps.

Local Open Scope Z_scope.

(** ** Go's [strings] functions used by the package *)

Module GoStrings.

(** [strings.HasPrefix(s, prefix)]. *)
Definition HasPrefix (s prefix : string) : bool := String.prefix prefix s.

(** [s[n:]] for [n <= len(s)]. *)
Fixpoint drop_bytes (n : nat) (s : string) : string :=
  match n, s with
  | O, _ => s
  | S n', String _ s' => drop_bytes n' s'
  | S _, EmptyString => EmptyString
  end.

(** [strings.Replace(s, old, new, 1)]: the first occurrence of [old] in
    [s], scanning from the left, is replaced by [new]; an empty [old]
    matches at the beginning of [s]; [s] is returned when [old] does not
    occur. *)
Fixpoint Replace1 (s old new : string) : string :=
  if HasPrefix s old then new +:+ drop_bytes (String.length old) s
  else match s with
       | EmptyString => EmptyString
       | String c s' => String c (Replace1 s' old new)
       end.

(** [strings.Split(s, sep)] for a one-byte separator: [n] occurrences of
    the separator give [n + 1] substrings, so the result is never empty. *)
Fixpoint Split (s : string) (sep : ascii) : list string :=
  match s with
  | EmptyString => [EmptyString]
  | String c s' =>
      if Ascii.eqb c sep then EmptyString :: Split s' sep
      else match Split s' sep with
           | h :: t => String c h :: t
           | [] => [String c EmptyString]
           end
  end.

(** The byte sequences that are the UTF-8 encodings of the runes for which
    [unicode.IsSpace] holds: the six ASCII ones, U+0085, U+00A0, U+1680,
    U+2000..U+200A, U+2028, U+2029, U+202F, U+205F and U+3000. *)
Definition space_width (s : list N) : nat :=
  match s with
  | 9%N :: _ | 10%N :: _ | 11%N :: _ | 12%N :: _ | 13%N :: _ | 32%N :: _ => 1
  | 194%N :: 133%N :: _ | 194%N :: 160%N :: _ => 2
  | 225%N :: 154%N :: 128%N :: _ => 3
  | 226%N :: 128%N :: c :: _ =>
      if ((128 <=? c) && (c <=? 138) || (c =? 168) || (c =? 169) || (c =? 175))%N
      then 3 else 0
  | 226%N :: 129%N :: 159%N :: _ => 3
  | 227%N :: 128%N :: 128%N :: _ => 3
  | _ => 0
  end%nat.

Definition codes (s : string) : list N := List.map N_of_ascii (list_ascii_of_string s).

Definition uncodes (l : list N) : string :=
  string_of_list_ascii (List.map ascii_of_N l).

(** [strings.TrimLeftFunc(s, unicode.IsSpace)] on the bytes. *)
Fixpoint trim_left (fuel : nat) (l : list N) : list N :=
  match fuel with
  | O => l
  | S fuel' =>
      match space_width l with
      | O => l
      | w => trim_left fuel' (skipn w l)
      end
  end.

(** The width of a white-space rune that ends [l], if there is one
    ([utf8.DecodeLastRuneInString] followed by [unicode.IsSpace]). *)
Definition space_width_end (l : list N) : nat :=
  let n := List.length l in
  if (Nat.leb 1 n && Nat.eqb (space_width (skipn (n - 1) l)) 1)%bool then 1
  else if (Nat.leb 2 n && Nat.eqb (space_width (skipn (n - 2) l)) 2)%bool then 2
  else if (Nat.leb 3 n && Nat.eqb (space_width (skipn (n - 3) l)) 3)%bool then 3
  else 0%nat.

(** [strings.TrimRightFunc(s, unicode.IsSpace)] on the bytes. *)
Fixpoint trim_right (fuel : nat) (l : list N) : list N :=
  match fuel with
  | O => l
  | S fuel' =>
      match space_width_end l with
      | O => l
      | w => trim_right fuel' (firstn (List.length l - w) l)
      end
  end.


(** [strings.TrimSpace(s)]: leading, then trailing white space removed. *)
Definition TrimSpace (s : string) : string :=
  let l := codes s in
  let l1 := trim_left (List.length l) l in
  uncodes (trim_right (List.length l1) l1).

End GoStrings.

(** ** Byte slices and [encoding/binary] *)

Module GoBytes.

(** The conversion [byte(v)] of an unsigned integer: its low 8 bits. *)
Definition byte_of_Z (v : Z) : byte :=
  match Byte.of_N (Z.to_N (v mod 256)) with
  | Some b => b
  | None => x00
  end.

Definition Z_of_byte (b : byte) : Z := Z.of_N (Byte.to_N b).

(** The conversion [uint64(n)] of an [int]: reduction modulo 2^64. *)
Definition uint64 (n : Z) : Z := n mod 2 ^ 64.

(** [[]byte(s)]: the bytes of a string. *)
Definition bytes_of_string (s : string) : list byte := list_byte_of_string s.

(** The eight bytes [binary.BigEndian.PutUint64] stores:
    [b[0] = byte(v >> 56)], ..., [b[7] = byte(v)]. *)
Definition be_uint64 (v : Z) : list byte :=
  [ byte_of_Z (Z.shiftr v 56); byte_of_Z (Z.shiftr v 48);
    byte_of_Z (Z.shiftr v 40); byte_of_Z (Z.shiftr v 32);
    byte_of_Z (Z.shiftr v 24); byte_of_Z (Z.shiftr v 16);
    byte_of_Z (Z.shiftr v 8); byte_of_Z v ].

(** [binary.BigEndian.Uint64(b)] on the first eight bytes of [b]. *)
Definition Uint64 (b : list byte) : Z :=
  fold_left (fun acc x => Z.lor (Z.shiftl acc 8) (Z_of_byte x)) (firstn 8 b) 0.

(** [copy(dst[lo:hi], src)]: [min(hi - lo, len(src))] bytes of [src] are
    stored into [dst] from offset [lo]; the rest of [dst] is kept. *)
Definition copy_into (dst : list byte) (lo hi : nat) (src : list byte) : list byte :=
  let n := Nat.min (hi - lo) (List.length src) in
  firstn lo dst ++ firstn n src ++ skipn (lo + n) dst.

(** [binary.BigEndian.PutUint64(dst[lo:lo+8], v)]. *)
Definition PutUint64 (dst : list byte) (lo : nat) (v : Z) : list byte :=
  copy_into dst lo (lo + 8) (be_uint64 v).

(** [b[lo:hi]]. *)
Definition slice (b : list byte) (lo hi : nat) : list byte :=
  firstn (hi - lo) (skipn lo b).

End GoBytes.

(** ** Time *)

Module GoTime.

(** A [time.Time], counted in nanoseconds since the Unix epoch. *)
Definition Time := Z.

(** Two's-complement wrap-around of [int64] arithmetic. *)
Definition wrap64 (z : Z) : Z := (z + 2 ^ 63) mod 2 ^ 64 - 2 ^ 63.

(** [time.Minute], in nanoseconds. *)
Definition Minute : Z := 60000000000.

(** [time.Duration(m) * time.Minute]: an [int64] product. *)
Definition minutes (m : Z) : Z := wrap64 (m * Minute).

(** [t.Add(d)]. *)
Definition Add (t : Time) (d : Z) : Time := t + d.

(** [t.Unix()]: whole seconds since the epoch, rounded down. *)
Definition Unix (t : Time) : Z := t / 1000000000.

End GoTime.

(** ** The dentry cache of package [cache] *)

Module DentryCache.

(** Modelled from the spec: the type [cache.DentryCache] is declared in a
    package whose source is not among the files of this development. It is
    a mapping from child name to inode with an absolute [expiration],
    computed at construction as now plus the valid duration;
    [ResetExpiration] sets a new absolute expiry. *)
Record t := mk { cache : gmap string Z; expiration : GoTime.Time }.

Definition NewDentryCache (now : GoTime.Time) (valid : Z) : t :=
  mk ∅ (GoTime.Add now valid).

Definition Put (name : string) (ino : Z) (dc : t) : t :=
  mk (<[name := ino]> (cache dc)) (expiration dc).

Definition Get (name : string) (dc : t) : option Z := cache dc !! name.

Definition Count (dc : t) : nat := size (cache dc).

Definition Expiration (dc : t) : GoTime.Time := expiration dc.

Definition IsExpired (now : GoTime.Time) (dc : t) : bool := expiration dc <? now.

Definition ResetExpiration (now : GoTime.Time) (valid : Z) (dc : t) : t :=
  mk (cache dc) (GoTime.Add now valid).

End DentryCache.

(** ** The data model of the prefetch manager *)

(** [DefaultIndexDentryExpiration = 60 * time.Minute]. *)
Definition DefaultIndexDentryExpiration : Z := 60 * GoTime.Minute.

(** The errors the package returns. [ErrExternal] stands for an error that a
    collaborator (file-system client, operating system) reports and the
    package hands on unchanged. *)
Inductive error : Type :=
| ErrNotCfsPath                                 (* "not cfs path" *)
| ErrNotCfsFile                                 (* "not cfs file" *)
| ErrClosed                                     (* "Prefetch threads are closed" *)
| ErrFileSize (fileSize : Z)                    (* "file size is (%v)" *)
| ErrRead (cause : error) (fileSize readBytes : Z)  (* "read err(%v) ..." *)
| ErrExternal (msg : string).

(** The error kind the specification calls NotCFS. *)
Definition is_NotCFS (e : error) : bool :=
  match e with
  | ErrNotCfsPath | ErrNotCfsFile => true
  | _ => false
  end.

Module FileInfo.
Record t := mk { path : string; inoID : Z; isAbs : bool }.
End FileInfo.

Module IndexInfo.
Record t := mk {
  path : string;
  datasetCnt : string;
  ttl : Z;
  validMinute : Z;
  fileInfoMap : list FileInfo.t
}.
End IndexInfo.

Module IndexDentryInfo.
Record t := mk { path : string; dcache : DentryCache.t }.
End IndexDentryInfo.

(** A [*BatchDownloadRespWriter] is an address in a store of writers; two
    jobs of one batch hold the same address. *)
Abbreviation resp_ptr := nat (only parsing).

(** [Wg] is the counter of the wait group; [Writer] records the byte slices
    handed to [Writer.Write], oldest first (each followed by a flush). *)
Record BatchDownloadRespWriter := mkResp { Wg : Z; Writer : list (list byte) }.

Record DownloadFileInfo := mkDownload {
  absPath : string;
  fileInfo : option FileInfo.t;
  resp : resp_ptr
}.

Record PrefetchMetrics := mkMetrics { appReadCount : Z; totalReadCount : Z }.

(** A [*IndexInfo] is an index into the store of index infos. *)
Abbreviation index_ptr := nat (only parsing).

(** The fields of the Go struct. The values of [dcacheMap] and
    [lookupDcache] are the objects their pointers refer to: each object is
    referred to from one key only, and a method call through the pointer is
    an update at that key. [indexFileInfoMap] and [indexInfoChan] hold
    pointers, because one [*IndexInfo] is held by both. *)
Record PrefetchManager := mkManager {
  volName : string;
  mountPoint : string;
  indexFileInfoMap : gmap string index_ptr;
  indexInfoChan : list index_ptr;
  filePathChan : list FileInfo.t;
  downloadChan : list DownloadFileInfo;
  lookupDcache : gmap Z DentryCache.t;
  appPid : gmap Z bool;
  dcacheMap : gmap Z IndexDentryInfo.t;
  metrics : PrefetchMetrics;
  isClosed : bool
}.

Definition with_indexFileInfoMap (m : gmap string index_ptr) (p : PrefetchManager) :=
  mkManager (volName p) (mountPoint p) m (indexInfoChan p) (filePathChan p)
    (downloadChan p) (lookupDcache p) (appPid p) (dcacheMap p) (metrics p) (isClosed p).

Definition with_indexInfoChan (c : list index_ptr) (p : PrefetchManager) :=
  mkManager (volName p) (mountPoint p) (indexFileInfoMap p) c (filePathChan p)
    (downloadChan p) (lookupDcache p) (appPid p) (dcacheMap p) (metrics p) (isClosed p).

Definition with_filePathChan (c : list FileInfo.t) (p : PrefetchManager) :=
  mkManager (volName p) (mountPoint p) (indexFileInfoMap p) (indexInfoChan p) c
    (downloadChan p) (lookupDcache p) (appPid p) (dcacheMap p) (metrics p) (isClosed p).

Definition with_downloadChan (c : list DownloadFileInfo) (p : PrefetchManager) :=
  mkManager (volName p) (mountPoint p) (indexFileInfoMap p) (indexInfoChan p)
    (filePathChan p) c (lookupDcache p) (appPid p) (dcacheMap p) (metrics p) (isClosed p).

Definition with_lookupDcache (m : gmap Z DentryCache.t) (p : PrefetchManager) :=
  mkManager (volName p) (mountPoint p) (indexFileInfoMap p) (indexInfoChan p)
    (filePathChan p) (downloadChan p) m (appPid p) (dcacheMap p) (metrics p) (isClosed p).

Definition with_appPid (m : gmap Z bool) (p : PrefetchManager) :=
  mkManager (volName p) (mountPoint p) (indexFileInfoMap p) (indexInfoChan p)
    (filePathChan p) (downloadChan p) (lookupDcache p) m (dcacheMap p) (metrics p) (isClosed p).

Definition with_dcacheMap (m : gmap Z IndexDentryInfo.t) (p : PrefetchManager) :=
  mkManager (volName p) (mountPoint p) (indexFileInfoMap p) (indexInfoChan p)
    (filePathChan p) (downloadChan p) (lookupDcache p) (appPid p) m (metrics p) (isClosed p).

Definition with_metrics (m : PrefetchMetrics) (p : PrefetchManager) :=
  mkManager (volName p) (mountPoint p) (indexFileInfoMap p) (indexInfoChan p)
    (filePathChan p) (downloadChan p) (lookupDcache p) (appPid p) (dcacheMap p) m (isClosed p).

Definition with_isClosed (b : bool) (p : PrefetchManager) :=
  mkManager (volName p) (mountPoint p) (indexFileInfoMap p) (indexInfoChan p)
    (filePathChan p) (downloadChan p) (lookupDcache p) (appPid p) (dcacheMap p) (metrics p) b.

(** ** Collaborators *)

(** What the package uses of the file-system client: the constant
    [proto.RootIno] and the methods [lookup], [OpenStream], [FileSize] and
    [Read] of [ExtentClient], as functions of a fixed file-system snapshot.
    [Read ino size] gives the bytes stored at the start of the buffer (their
    number is the [readSize] returned) and the error. *)
Record ExtentClient := mkClient {
  RootIno : Z;
  lookup : Z -> string -> Z + error;
  OpenStream : Z -> option error;
  FileSize : Z -> Z * bool;
  Read : Z -> Z -> list byte * option error
}.

(** The block pool: [GetBlockBuf size] is the buffer handed out, with
    whatever bytes its previous user left in it. *)
Record BlockPool := mkPool { GetBlockBuf : Z -> list byte }.

(** Modelled from the spec: [GetBlockBuf] is declared outside the files at
    hand; it returns a slice whose capacity is at least the size asked. *)
Definition pool_ok (pool : BlockPool) : Prop :=
  forall size : Z, (Z.to_nat size <= List.length (GetBlockBuf pool size))%nat.

(** The reader contract of [ExtentClient.Read]: no more bytes are read than
    were asked for. (Beyond it, [content[:readSize]] would be out of range.) *)
Definition read_ok (ec : ExtentClient) : Prop :=
  forall ino size : Z, (List.length (fst (Read ec ino size)) <= Z.to_nat size)%nat.

(** The two buffers a download handler takes from the pool. *)
Inductive buffer : Type := ContentBuf | RespBuf.

(** What a handler does to its collaborators, in order. The [index] of the
    cache events of a path lookup is the position in the split path. *)
Inductive event : Type :=
| EvDcacheGet (index : nat) (ino : Z) (name : string) (found : option Z)
| EvDcacheNew (index : nat) (ino : Z)
| EvLookup (index : nat) (ino : Z) (name : string)
| EvDcachePut (index : nat) (ino : Z) (name : string) (child : Z)
| EvOpenStream (ino : Z) (err : option error)
| EvCloseStream (ino : Z)
| EvRead (ino : Z) (size : Z)
| EvGetBlockBuf (b : buffer) (size : Z)
| EvPutBlockBuf (b : buffer)
| EvWrite (w : resp_ptr) (data : list byte)
| EvWgDone (w : resp_ptr).

(** ** Absolute-path lookup through [lookupDcache] *)

(** The loop [for index, dir := range dirs] of [LookupPathByCache]; [n] is
    [len(dirs)] and [now ino] the time at which a cache for [ino] is made. *)
Fixpoint lookupDirs (ec : ExtentClient) (now : Z -> GoTime.Time) (n index : nat)
    (dirs : list string) (ino : Z) (lc : gmap Z DentryCache.t) (tr : list event)
    : (Z + error) * gmap Z DentryCache.t * list event :=
  match dirs with
  | [] => (inl ino, lc, tr)
  | dir :: rest =>
      if (String.eqb dir "/" || String.eqb dir "")%bool
      then lookupDirs ec now n (S index) rest ino lc tr
      else
        let '(found, dcache, lc1, tr1) :=
          match lc !! ino with
          | Some dc =>
              (DentryCache.Get dir dc, dc, lc,
               tr ++ [EvDcacheGet index ino dir (DentryCache.Get dir dc)])
          | None =>
              let dc := DentryCache.NewDentryCache (now ino) DefaultIndexDentryExpiration in
              (None, dc, <[ino := dc]> lc, tr ++ [EvDcacheNew index ino])
          end in
        match found with
        | Some child => lookupDirs ec now n (S index) rest child lc1 tr1
        | None =>
            match lookup ec ino dir with
            | inr err => (inr err, lc1, tr1 ++ [EvLookup index ino dir])
            | inl child =>
                if negb (Nat.eqb index (n - 1))
                then lookupDirs ec now n (S index) rest child
                       (<[ino := DentryCache.Put dir child dcache]> lc1)
                       (tr1 ++ [EvLookup index ino dir; EvDcachePut index ino dir child])
                else lookupDirs ec now n (S index) rest child lc1
                       (tr1 ++ [EvLookup index ino dir])
            end
        end
  end.

(** [LookupPathByCache]: the inode or the error, the manager with its
    updated [lookupDcache], and the events. *)
Definition LookupPathByCache (ec : ExtentClient) (now : Z -> GoTime.Time)
    (pManager : PrefetchManager) (absPath : string)
    : (Z + error) * PrefetchManager * list event :=
  if negb (GoStrings.HasPrefix absPath (mountPoint pManager))
  then (inr ErrNotCfsPath, pManager, [])
  else
    let subDir := GoStrings.Replace1 absPath (mountPoint pManager) "" in
    if (String.eqb subDir "" || String.eqb subDir "/")%bool
    then (inr ErrNotCfsFile, pManager, [])
    else
      let dirs := GoStrings.Split subDir "/" in
      let '(res, lc, tr) :=
        lookupDirs ec now (List.length dirs) 0 dirs (RootIno ec) (lookupDcache pManager) [] in
      (res, with_lookupDcache lc pManager, tr).

(** ** The download queue and its handler *)

(** [resp.Wg.Add(delta)] on the writer at address [w]. The counter is an
    integer; Go panics when it would fall below zero, which a [Done] that
    follows its [Add] does not cause. *)
Definition WgAdd (w : resp_ptr) (delta : Z)
    (ws : gmap resp_ptr BatchDownloadRespWriter) : gmap resp_ptr BatchDownloadRespWriter :=
  alter (fun r => mkResp (Wg r + delta) (Writer r)) w ws.

(** [resp.Wg.Done()]. *)
Definition WgDone (w : resp_ptr) (ws : gmap resp_ptr BatchDownloadRespWriter) :=
  WgAdd w (-1) ws.

(** [resp.write(data)]: under the writer's lock, write then flush. *)
Definition write (w : resp_ptr) (data : list byte)
    (ws : gmap resp_ptr BatchDownloadRespWriter) : gmap resp_ptr BatchDownloadRespWriter :=
  alter (fun r => mkResp (Wg r) (Writer r ++ [data])) w ws.

(** [putDownloadChan]. The channel is a queue, oldest job first. *)
Definition putDownloadChan (pManager : PrefetchManager)
    (ws : gmap resp_ptr BatchDownloadRespWriter) (dInfo : DownloadFileInfo)
    : option error * PrefetchManager * gmap resp_ptr BatchDownloadRespWriter :=
  if isClosed pManager then (Some ErrClosed, pManager, ws)
  else (None,
        with_downloadChan (downloadChan pManager ++ [dInfo]) pManager,
        WgAdd (resp dInfo) 1 ws).

(** The loop of [clearDownloadChan] over the jobs still queued. *)
Fixpoint drainDownloads (jobs : list DownloadFileInfo)
    (ws : gmap resp_ptr BatchDownloadRespWriter) : gmap resp_ptr BatchDownloadRespWriter :=
  match jobs with
  | [] => ws
  | dInfo :: rest => drainDownloads rest (WgDone (resp dInfo) ws)
  end.

(** [clearDownloadChan]. *)
Definition clearDownloadChan (pManager : PrefetchManager)
    (ws : gmap resp_ptr BatchDownloadRespWriter)
    : PrefetchManager * gmap resp_ptr BatchDownloadRespWriter :=
  (with_downloadChan [] pManager, drainDownloads (downloadChan pManager) ws).

(** [DownloadPath]. *)
Definition DownloadPath (pManager : PrefetchManager)
    (ws : gmap resp_ptr BatchDownloadRespWriter) (filePath : string) (respData : resp_ptr)
    : PrefetchManager * gmap resp_ptr BatchDownloadRespWriter :=
  let '(_, p, ws') := putDownloadChan pManager ws (mkDownload filePath None respData) in
  (p, ws').

(** What the body of [ReadData] leaves for its deferred functions: the named
    result [err], the locals [content] and [readSize], the manager and the
    events so far. The deferred [CloseStream], registered after a successful
    [OpenStream], runs first on return and is the last event of the body. *)
Record readFrame := mkFrame {
  f_err : option error;
  f_content : list byte;
  f_readSize : Z;
  f_manager : PrefetchManager;
  f_events : list event
}.

(** The inode a job is about: the one of its [fileInfo] when there is one
    and it is not zero, else the one its path resolves to. *)
Definition jobInode (ec : ExtentClient) (now : Z -> GoTime.Time)
    (pManager : PrefetchManager) (dInfo : DownloadFileInfo)
    : (Z + error) * PrefetchManager * list event :=
  match fileInfo dInfo with
  | Some fi =>
      if FileInfo.inoID fi =? 0
      then LookupPathByCache ec now pManager (absPath dInfo)
      else (inl (FileInfo.inoID fi), pManager, [])
  | None => LookupPathByCache ec now pManager (absPath dInfo)
  end.

Definition ReadData_body (ec : ExtentClient) (pool : BlockPool) (now : Z -> GoTime.Time)
    (pManager : PrefetchManager) (dInfo : DownloadFileInfo) : readFrame :=
  let '(res, p, tr) := jobInode ec now pManager dInfo in
  match res with
  | inr err => mkFrame (Some err) [] 0 p tr
  | inl inodeID =>
      match OpenStream ec inodeID with
      | Some err => mkFrame (Some err) [] 0 p (tr ++ [EvOpenStream inodeID (Some err)])
      | None =>
          let '(fileSize, valid) := FileSize ec inodeID in
          if (negb valid || (fileSize =? 0))%bool
          then mkFrame (Some (ErrFileSize fileSize)) [] 0 p
                 (tr ++ [EvOpenStream inodeID None; EvCloseStream inodeID])
          else
            let content := GetBlockBuf pool fileSize in
            let '(data, rerr) := Read ec inodeID fileSize in
            let content := GoBytes.copy_into content 0 (Z.to_nat fileSize) data in
            let readSize := Z.of_nat (List.length data) in
            mkFrame
              (match rerr with
               | Some cause => Some (ErrRead cause fileSize readSize)
               | None => None
               end)
              content readSize p
              (tr ++ [EvOpenStream inodeID None; EvGetBlockBuf ContentBuf fileSize;
                      EvRead inodeID fileSize; EvCloseStream inodeID])
      end
  end.

(** The record the first deferred function of [ReadData] builds in
    [respData] for a path and [readSize] bytes of [content]. *)
Definition downloadRecord (pool : BlockPool) (filePath : string)
    (content : list byte) (readSize : Z) : list byte :=
  let pathLen := String.length filePath in
  let dataLen := (8 + pathLen + 8 + Z.to_nat readSize)%nat in
  let respData := GetBlockBuf pool (Z.of_nat dataLen) in
  let respData := GoBytes.PutUint64 respData 0 (GoBytes.uint64 (Z.of_nat pathLen)) in
  let respData :=
    GoBytes.copy_into respData 8 (8 + pathLen) (GoBytes.bytes_of_string filePath) in
  let respData := GoBytes.PutUint64 respData (8 + pathLen) (GoBytes.uint64 readSize) in
  let respData :=
    GoBytes.copy_into respData (16 + pathLen) dataLen (firstn (Z.to_nat readSize) content) in
  firstn dataLen respData.

(** The first deferred function of [ReadData], run last. *)
Definition ReadData_deferred (pool : BlockPool) (dInfo : DownloadFileInfo)
    (fr : readFrame) (ws : gmap resp_ptr BatchDownloadRespWriter)
    : gmap resp_ptr BatchDownloadRespWriter * list event :=
  match f_err fr with
  | None =>
      if 0 <? f_readSize fr then
        let filePath := absPath dInfo in
        let dataLen := 8 + Z.of_nat (String.length filePath) + 8 + f_readSize fr in
        let record := downloadRecord pool filePath (f_content fr) (f_readSize fr) in
        (WgDone (resp dInfo) (write (resp dInfo) record ws),
         [EvGetBlockBuf RespBuf dataLen; EvWrite (resp dInfo) record; EvPutBlockBuf RespBuf]
         ++ (if (0 <? List.length (f_content fr))%nat then [EvPutBlockBuf ContentBuf] else [])
         ++ [EvWgDone (resp dInfo)])
      else (WgDone (resp dInfo) ws, [EvWgDone (resp dInfo)])
  | Some _ => (WgDone (resp dInfo) ws, [EvWgDone (resp dInfo)])
  end.

(** [ReadData]: the error returned, the manager, the writers and the events
    of the whole call. *)
Definition ReadData (ec : ExtentClient) (pool : BlockPool) (now : Z -> GoTime.Time)
    (pManager : PrefetchManager) (ws : gmap resp_ptr BatchDownloadRespWriter)
    (dInfo : DownloadFileInfo)
    : option error * PrefetchManager * gmap resp_ptr BatchDownloadRespWriter * list event :=
  let fr := ReadData_body ec pool now pManager dInfo in
  let '(ws', tr) := ReadData_deferred pool dInfo fr ws in
  (f_err fr, f_manager fr, ws', f_events fr ++ tr).

(** ** The index registry *)

(** A call either completes or panics (a Go run-time panic). *)
Inductive outcome (A : Type) : Type :=
| Done (a : A)
| Panic (msg : string).
Arguments Done {A} a.
Arguments Panic {A} msg.

(** The times [AddIndexFilepath] reads: for the candidate ([t_new]), in
    [resetExistedIndexInfo] for the expiry test ([t_check]) and for the new
    [ttl] ([t_set]), and in [ResetExpiration] of the cache stored under a
    parent inode ([t_reset]). *)
Record addClock := mkAddClock {
  t_new : GoTime.Time;
  t_check : GoTime.Time;
  t_set : GoTime.Time;
  t_reset : Z -> GoTime.Time
}.

(** [putIndexInfoChan]. *)
Definition putIndexInfoChan (pManager : PrefetchManager) (indexInfo : index_ptr)
    : option error * PrefetchManager :=
  if isClosed pManager then (Some ErrClosed, pManager)
  else (None, with_indexInfoChan (indexInfoChan pManager ++ [indexInfo]) pManager).

(** [putFilePathChan]. *)
Definition putFilePathChan (pManager : PrefetchManager) (fileInfo : FileInfo.t)
    : option error * PrefetchManager :=
  if isClosed pManager then (Some ErrClosed, pManager)
  else (None, with_filePathChan (filePathChan pManager ++ [fileInfo]) pManager).

(** The test [indexInfo.ttl > 0 && time.Now().Unix() > indexInfo.ttl]. *)
Definition indexExpired (now : GoTime.Time) (info : IndexInfo.t) : bool :=
  ((0 <? IndexInfo.ttl info) && (IndexInfo.ttl info <? GoTime.Unix now))%bool.

(** The [Range] over [dcacheMap] in [resetExistedIndexInfo]. *)
Definition resetDcaches (now : Z -> GoTime.Time) (indexPath : string) (dcacheValid : Z)
    (m : gmap Z IndexDentryInfo.t) : gmap Z IndexDentryInfo.t :=
  map_imap (fun key indexDentryInfo =>
    Some (if String.eqb (IndexDentryInfo.path indexDentryInfo) indexPath
          then IndexDentryInfo.mk (IndexDentryInfo.path indexDentryInfo)
                 (DentryCache.ResetExpiration (now key) dcacheValid
                    (IndexDentryInfo.dcache indexDentryInfo))
          else indexDentryInfo)) m.

(** [resetExistedIndexInfo]; [store] holds the [IndexInfo] objects, and both
    arguments are addresses in it (an address outside does not occur). *)
Definition resetExistedIndexInfo (clk : addClock) (pManager : PrefetchManager)
    (store : list IndexInfo.t) (oldIndexInfo newIndexInfo : index_ptr) (ttlMinute : Z)
    : bool * PrefetchManager * list IndexInfo.t :=
  match store !! oldIndexInfo, store !! newIndexInfo with
  | Some old, Some new =>
      if indexExpired (t_check clk) old then
        (false,
         with_indexFileInfoMap
           (<[IndexInfo.path new := newIndexInfo]> (indexFileInfoMap pManager)) pManager,
         store)
      else
        let old' :=
          if ttlMinute =? 0
          then IndexInfo.mk (IndexInfo.path old) (IndexInfo.datasetCnt old) 0 0
                 (IndexInfo.fileInfoMap old)
          else IndexInfo.mk (IndexInfo.path old) (IndexInfo.datasetCnt old)
                 (GoTime.Unix (GoTime.Add (t_set clk) (GoTime.minutes ttlMinute)))
                 ttlMinute (IndexInfo.fileInfoMap old) in
        let dcacheValid :=
          if ttlMinute =? 0 then DefaultIndexDentryExpiration else GoTime.minutes ttlMinute in
        (true,
         with_dcacheMap
           (resetDcaches (t_reset clk) (IndexInfo.path old') dcacheValid (dcacheMap pManager))
           pManager,
         <[oldIndexInfo := old']> store)
  | _, _ => (false, pManager, store)
  end.

(** [AddIndexFilepath]; [notExist] is the error of [os.Stat(path)] when
    [os.IsNotExist] holds of it. *)
Definition AddIndexFilepath (clk : addClock) (notExist : option error)
    (pManager : PrefetchManager) (store : list IndexInfo.t)
    (datasetCnt path : string) (ttlMinute : Z)
    : option error * PrefetchManager * list IndexInfo.t :=
  let candidate :=
    if 0 <? ttlMinute
    then IndexInfo.mk path datasetCnt
           (GoTime.Unix (GoTime.Add (t_new clk) (GoTime.minutes ttlMinute))) ttlMinute []
    else IndexInfo.mk path datasetCnt 0 0 [] in
  let indexInfo := List.length store in
  let store := store ++ [candidate] in
  let '(actual, loaded, registry) :=
    match indexFileInfoMap pManager !! path with
    | Some found => (found, true, indexFileInfoMap pManager)
    | None => (indexInfo, false, <[path := indexInfo]> (indexFileInfoMap pManager))
    end in
  let pManager := with_indexFileInfoMap registry pManager in
  let '(refreshed, pManager, store) :=
    if loaded then resetExistedIndexInfo clk pManager store actual indexInfo ttlMinute
    else (false, pManager, store) in
  if refreshed then (None, pManager, store)
  else
    match notExist with
    | Some err =>
        (Some err,
         with_indexFileInfoMap (delete path (indexFileInfoMap pManager)) pManager, store)
    | None =>
        let '(err, pManager) := putIndexInfoChan pManager indexInfo in
        (err, pManager, store)
    end.

(** [strconv.ParseInt(s, 10, 64)]: an optional sign, then decimal digits
    only; [None] on a syntax or range error. *)
Fixpoint parseDigits (s : string) (acc : Z) : option Z :=
  match s with
  | EmptyString => Some acc
  | String c s' =>
      let d := Z.of_N (N_of_ascii c) - 48 in
      if ((0 <=? d) && (d <=? 9))%bool then parseDigits s' (10 * acc + d) else None
  end.

Definition ParseInt (s : string) : option Z :=
  let '(neg, digits) :=
    match s with
    | String "+" s' => (false, s')
    | String "-" s' => (true, s')
    | _ => (false, s)
    end in
  match digits with
  | EmptyString => None
  | _ =>
      match parseDigits digits 0 with
      | Some v =>
          let v := if neg then - v else v in
          if ((- 2 ^ 63 <=? v) && (v <? 2 ^ 63))%bool then Some v else None
      | None => None
      end
  end.

(** The capacity [infoNum] that [readIndexFileByLine] asks of [make]: the
    dataset count when it parses as an integer, else 0. *)
Definition capacityHint (datasetCnt : string) : Z :=
  match ParseInt datasetCnt with
  | Some n => n
  | None => 0
  end.

(** The path stored for one line of an index file. *)
Definition cfsPathOfLine (mountPoint line : string) : string :=
  GoStrings.TrimSpace (GoStrings.Replace1 line mountPoint "").

(** The loop [for scanner.Scan()] of [readIndexFileByLine] over the lines
    the scanner yields. *)
Fixpoint scanLines (mountPoint : string) (lines : list string)
    (fileInfoMap : list FileInfo.t) : list FileInfo.t :=
  match lines with
  | [] => fileInfoMap
  | line :: rest =>
      scanLines mountPoint rest
        (fileInfoMap ++ [FileInfo.mk (cfsPathOfLine mountPoint line) 0 false])
  end.

(** The largest allocation of the Go run time on the 64-bit platforms the
    client is built for (48 address bits), in bytes. *)
Definition maxAlloc : Z := 2 ^ 48.

(** The test of [runtime.makeslice] for [make([]*FileInfo, 0, cap)]: the
    call panics when the capacity is negative or when its elements, pointers
    of 8 bytes each, take more than [maxAlloc] bytes. A capacity that passes
    the test is taken to be granted by the allocator. *)
Definition capOutOfRange (cap : Z) : bool :=
  ((cap <? 0) || (maxAlloc <? 8 * cap))%bool.

(** [readIndexFileByLine] on the object at address [indexInfo]. [file] is
    what the operating system and [bufio.Scanner] give: the error of
    [os.OpenFile], or the lines scanned and the error of [scanner.Err()].
    [make] panics on a capacity that is negative or too large. *)
Definition readIndexFileByLine (pManager : PrefetchManager) (store : list IndexInfo.t)
    (indexInfo : index_ptr) (file : list string * option error + error)
    : outcome (option error * list IndexInfo.t) :=
  match store !! indexInfo with
  | None => Panic "invalid memory address or nil pointer dereference"
  | Some info =>
      match file with
      | inr err => Done (Some err, store)
      | inl (lines, scanErr) =>
          let infoNum := capacityHint (IndexInfo.datasetCnt info) in
          if capOutOfRange infoNum then Panic "makeslice: cap out of range"
          else
            let fileInfoMap := scanLines (mountPoint pManager) lines [] in
            Done (scanErr,
                  <[indexInfo := IndexInfo.mk (IndexInfo.path info) (IndexInfo.datasetCnt info)
                                   (IndexInfo.ttl info) (IndexInfo.validMinute info)
                                   fileInfoMap]> store)
      end
  end.

(** ** The janitor *)

(** The first [Range] of the one-minute tick of [cleanExpiredIndexInfo];
    [now key] is the time read when [key] is visited. *)
Definition sweepIndexInfo (now : string -> GoTime.Time) (store : list IndexInfo.t)
    (m : gmap string index_ptr) : gmap string index_ptr :=
  map_fold (fun key value acc =>
    match store !! value with
    | Some indexInfo => if indexExpired (now key) indexInfo then delete key acc else acc
    | None => acc
    end) m m.

(** The second [Range]: over [dcacheMap]. *)
Definition sweepDcacheMap (now : Z -> GoTime.Time)
    (m : gmap Z IndexDentryInfo.t) : gmap Z IndexDentryInfo.t :=
  map_fold (fun key value acc =>
    if DentryCache.IsExpired (now key) (IndexDentryInfo.dcache value)
    then delete key acc else acc) m m.

(** The third [Range]: over [lookupDcache]. *)
Definition sweepLookupDcache (now : Z -> GoTime.Time)
    (m : gmap Z DentryCache.t) : gmap Z DentryCache.t :=
  map_fold (fun key value acc =>
    if DentryCache.IsExpired (now key) value then delete key acc else acc) m m.

(** The times one tick reads. *)
Record sweepClock := mkSweepClock {
  t_index : string -> GoTime.Time;
  t_dcache : Z -> GoTime.Time;
  t_lookup : Z -> GoTime.Time
}.

(** The branch [case <-t.C] of [cleanExpiredIndexInfo]. *)
Definition cleanExpiredIndexInfo_tick (clk : sweepClock) (store : list IndexInfo.t)
    (pManager : PrefetchManager) : PrefetchManager :=
  let pManager :=
    with_indexFileInfoMap (sweepIndexInfo (t_index clk) store (indexFileInfoMap pManager))
      pManager in
  let pManager :=
    with_dcacheMap (sweepDcacheMap (t_dcache clk) (dcacheMap pManager)) pManager in
  with_lookupDcache (sweepLookupDcache (t_lookup clk) (lookupDcache pManager)) pManager.


(** ** Methods that guard a nil receiver *)

(** A receiver [*PrefetchManager] is [None] when nil. Reading a field
    through a nil receiver panics. *)
Definition nilDereference : string := "invalid memory address or nil pointer dereference".

(** [GetDentryCache], run without interference from other goroutines. *)
Definition GetDentryCache (now : GoTime.Time) (pManager : option PrefetchManager)
    (parIno : Z) : outcome (option DentryCache.t * option PrefetchManager) :=
  match pManager with
  | None => Done (None, None)
  | Some p =>
      match dcacheMap p !! parIno with
      | None => Done (None, Some p)
      | Some value =>
          let dcache := IndexDentryInfo.dcache value in
          if negb (DentryCache.IsExpired now dcache) then Done (Some dcache, Some p)
          else Done (None, Some (with_dcacheMap (delete parIno (dcacheMap p)) p))
      end
  end.

(** [PutAppPid]. *)
Definition PutAppPid (pManager : option PrefetchManager) (pid : Z)
    : outcome (option PrefetchManager) :=
  match pManager with
  | None => Done None
  | Some p =>
      match appPid p !! pid with
      | Some _ => Done (Some p)
      | None => Done (Some (with_appPid (<[pid := true]> (appPid p)) p))
      end
  end.

(** [DeleteAppPid]. *)
Definition DeleteAppPid (pManager : option PrefetchManager) (pid : Z)
    : outcome (option PrefetchManager) :=
  match pManager with
  | None => Done None
  | Some p => Done (Some (with_appPid (delete pid (appPid p)) p))
  end.

(** [ContainsAppPid]. *)
Definition ContainsAppPid (pManager : option PrefetchManager) (pid : Z) : outcome bool :=
  match pManager with
  | None => Done false
  | Some p => Done (bool_decide (is_Some (appPid p !! pid)))
  end.

(** [atomic.AddUint64(addr, 1)]. *)
Definition AddUint64 (v delta : Z) : Z := (v + delta) mod 2 ^ 64.

(** [AddTotalReadCount]. *)
Definition AddTotalReadCount (pManager : option PrefetchManager)
    : outcome (option PrefetchManager) :=
  match pManager with
  | None => Done None
  | Some p =>
      Done (Some (with_metrics
                    (mkMetrics (appReadCount (metrics p))
                       (AddUint64 (totalReadCount (metrics p)) 1)) p))
  end.

(** [AddAppReadCount]. *)
Definition AddAppReadCount (pManager : option PrefetchManager)
    : outcome (option PrefetchManager) :=
  match pManager with
  | None => Done None
  | Some p =>
      Done (Some (with_metrics
                    (mkMetrics (AddUint64 (appReadCount (metrics p)) 1)
                       (totalReadCount (metrics p))) p))
  end.

(** [PrefetchByPath] has no guard: [putFilePathChan] takes
    [pManager.closeLock] first. *)
Definition PrefetchByPath (pManager : option PrefetchManager) (filepath : string)
    : outcome (option error * option PrefetchManager) :=
  match pManager with
  | None => Panic nilDereference
  | Some p =>
      let '(err, p') := putFilePathChan p (FileInfo.mk filepath 0 true) in
      Done (err, Some p')
  end.

(** ** [GetDentryCache] among other goroutines *)

(** Where a call of [GetDentryCache] on a non-nil receiver stands between
    its operations on [dcacheMap]. *)
Inductive gdcState : Type :=
| GdcStart                               (* before [dcacheMap.Load] *)
| GdcLoaded (value : IndexDentryInfo.t)  (* before [dcache.IsExpired] *)
| GdcExpired                             (* before [dcacheMap.Delete] *)
| GdcReturn (res : option DentryCache.t).

(** One operation of the call; [m] is [dcacheMap] as the operation finds it. *)
Definition GetDentryCache_step (now : GoTime.Time) (parIno : Z) (s : gdcState)
    (m : gmap Z IndexDentryInfo.t) : gdcState * gmap Z IndexDentryInfo.t :=
  match s with
  | GdcStart =>
      match m !! parIno with
      | None => (GdcReturn None, m)
      | Some value => (GdcLoaded value, m)
      end
  | GdcLoaded value =>
      if negb (DentryCache.IsExpired now (IndexDentryInfo.dcache value))
      then (GdcReturn (Some (IndexDentryInfo.dcache value)), m)
      else (GdcExpired, m)
  | GdcExpired => (GdcReturn None, delete parIno m)
  | GdcReturn res => (GdcReturn res, m)
  end.

(** The part of [getFileInode] that records a resolved file under its
    parent inode: [Load], [LoadOrStore] of a new [IndexDentryInfo] when the
    key is absent, then [Put]. *)
Definition storeFileDentry (now : GoTime.Time) (indexInfo : IndexInfo.t)
    (parIno : Z) (fileName : string) (ino : Z)
    (m : gmap Z IndexDentryInfo.t) : gmap Z IndexDentryInfo.t :=
  let value :=
    match m !! parIno with
    | Some value => value
    | None =>
        let valid :=
          if 0 <? IndexInfo.validMinute indexInfo
          then GoTime.minutes (IndexInfo.validMinute indexInfo)
          else DefaultIndexDentryExpiration in
        IndexDentryInfo.mk (IndexInfo.path indexInfo) (DentryCache.NewDentryCache now valid)
    end in
  <[parIno := IndexDentryInfo.mk (IndexDentryInfo.path value)
                (DentryCache.Put fileName ino (IndexDentryInfo.dcache value))]> m.

(** What another goroutine does to [dcacheMap] between two operations of a
    call of [GetDentryCache]. *)
Inductive interference : Type :=
| JanitorSweep (now : Z -> GoTime.Time)
| WorkerStore (now : GoTime.Time) (indexInfo : IndexInfo.t) (parIno : Z)
    (fileName : string) (ino : Z)
| OtherDelete (parIno : Z).

Definition interfere (i : interference) (m : gmap Z IndexDentryInfo.t)
    : gmap Z IndexDentryInfo.t :=
  match i with
  | JanitorSweep now => sweepDcacheMap now m
  | WorkerStore now indexInfo parIno fileName ino =>
      storeFileDentry now indexInfo parIno fileName ino m
  | OtherDelete parIno => delete parIno m
  end.

Definition interfereAll (ops : list interference) (m : gmap Z IndexDentryInfo.t)
    : gmap Z IndexDentryInfo.t :=
  fold_left (fun m i => interfere i m) ops m.

(** A call of [GetDentryCache] with the operations of other goroutines
    [before] its load, [between1] load and expiry test, [between2] test and
    delete: the result and [dcacheMap] when the call returns. *)
Definition GetDentryCache_interleaved (now : GoTime.Time) (parIno : Z)
    (before between1 between2 : list interference) (m : gmap Z IndexDentryInfo.t)
    : gdcState * gmap Z IndexDentryInfo.t :=
  let m := interfereAll before m in
  let '(s, m) := GetDentryCache_step now parIno GdcStart m in
  let m := interfereAll between1 m in
  let '(s, m) := GetDentryCache_step now parIno s m in
  let m := interfereAll between2 m in
  GetDentryCache_step now parIno s m.
(** ** Notions of the specification *)

(** The remainder of an absolute path after the mount prefix. *)
Definition stripMount (pManager : PrefetchManager) (absPath : string) : string :=
  GoStrings.Replace1 absPath (mountPoint pManager) "".

(** The specification's component list of a remainder: split on ["/"],
    empty components ignored. *)
Definition pathComponents (subDir : string) : list string :=
  List.filter (fun dir => negb (String.eqb dir "")) (GoStrings.Split subDir "/").

(** ** The shape of a lookup's events *)

(** Finding no mapping for [name] under [ino]: the cache of [ino] does not
    hold it, or [ino] has no cache yet and gets a new one. *)
Definition isMiss (index : nat) (ino : Z) (name : string) (e : event) : Prop :=
  e = EvDcacheGet index ino name None \/ e = EvDcacheNew index ino.

(** What one non-empty element of the split path contributes, [n] being the
    number of elements of the split. *)
Inductive lookupStep (ec : ExtentClient) (n : nat) : list event -> Prop :=
| StepHit (index : nat) (ino : Z) (name : string) (child : Z) :
    lookupStep ec n [EvDcacheGet index ino name (Some child)]
| StepMissCached (index : nat) (ino : Z) (name : string) (child : Z) (miss : event) :
    isMiss index ino name miss ->
    lookup ec ino name = inl child ->
    index <> (n - 1)%nat ->
    lookupStep ec n [miss; EvLookup index ino name; EvDcachePut index ino name child]
| StepMissLast (index : nat) (ino : Z) (name : string) (child : Z) (miss : event) :
    isMiss index ino name miss ->
    lookup ec ino name = inl child ->
    index = (n - 1)%nat ->
    lookupStep ec n [miss; EvLookup index ino name]
| StepMissFailed (index : nat) (ino : Z) (name : string) (err : error) (miss : event) :
    isMiss index ino name miss ->
    lookup ec ino name = inr err ->
    lookupStep ec n [miss; EvLookup index ino name].

Inductive lookupTrace (ec : ExtentClient) (n : nat) : list event -> Prop :=
| TraceNil : lookupTrace ec n []
| TraceStep (step rest : list event) :
    lookupStep ec n step -> lookupTrace ec n rest -> lookupTrace ec n (step ++ rest).

(** The effect of the cache events of a trace on [lookupDcache]. *)
Fixpoint replayCache (now : Z -> GoTime.Time) (tr : list event)
    (lc : gmap Z DentryCache.t) : gmap Z DentryCache.t :=
  match tr with
  | [] => lc
  | e :: rest =>
      replayCache now rest
        match e with
        | EvDcacheNew _ ino =>
            <[ino := DentryCache.NewDentryCache (now ino) DefaultIndexDentryExpiration]> lc
        | EvDcachePut _ ino name child => alter (DentryCache.Put name child) ino lc
        | _ => lc
        end
  end.

(** Finding no mapping for [dir] in the cache of [ino], as [lookupDcache]
    stands at [lc]: either the cache of [ino] is there and does not hold
    [dir], or [ino] has no cache and gets a new, empty one. [miss] is the
    event, [dcache] the cache consulted and [lc1] the map afterwards. *)
Definition cacheMiss (now : Z -> GoTime.Time) (index : nat) (ino : Z) (dir : string)
    (lc : gmap Z DentryCache.t) (miss : event) (dcache : DentryCache.t)
    (lc1 : gmap Z DentryCache.t) : Prop :=
  (lc !! ino = Some dcache /\ DentryCache.Get dir dcache = None
   /\ miss = EvDcacheGet index ino dir None /\ lc1 = lc)
  \/ (lc !! ino = None
      /\ dcache = DentryCache.NewDentryCache (now ino) DefaultIndexDentryExpiration
      /\ miss = EvDcacheNew index ino /\ lc1 = <[ino := dcache]> lc).

(** The lookup as the amended claim C5 words it, element by element.
    [lookupRun ec now n index dirs ino lc tr res lc'] reads: with the
    elements [dirs] of the split still to come, the first of them at
    position [index] of the [n], the current inode being [ino] and
    [lookupDcache] standing at [lc], the events are [tr], the result is
    [res] and [lookupDcache] is left at [lc']. An empty element is passed
    over. Every other element is first looked up in the cache of the
    current inode; on a hit the lookup goes on from the inode found, with no
    call of the file system; on a miss the file system is asked for the
    element under the current inode, an error ends the lookup, and the
    inode found is put into the cache of the current inode exactly when the
    element does not stand at the last position. *)
Inductive lookupRun (ec : ExtentClient) (now : Z -> GoTime.Time) (n : nat)
  : nat -> list string -> Z -> gmap Z DentryCache.t ->
    list event -> Z + error -> gmap Z DentryCache.t -> Prop :=
| RunDone (index : nat) (ino : Z) (lc : gmap Z DentryCache.t) :
    lookupRun ec now n index [] ino lc [] (inl ino) lc
| RunEmpty (index : nat) (dir : string) (rest : list string) (ino : Z)
    (lc : gmap Z DentryCache.t) (tr : list event) (res : Z + error)
    (lc' : gmap Z DentryCache.t) :
    dir = "/"%string \/ dir = ""%string ->
    lookupRun ec now n (S index) rest ino lc tr res lc' ->
    lookupRun ec now n index (dir :: rest) ino lc tr res lc'
| RunHit (index : nat) (dir : string) (rest : list string) (ino : Z)
    (lc : gmap Z DentryCache.t) (dcache : DentryCache.t) (child : Z)
    (tr : list event) (res : Z + error) (lc' : gmap Z DentryCache.t) :
    dir <> "/"%string -> dir <> ""%string ->
    lc !! ino = Some dcache ->
    DentryCache.Get dir dcache = Some child ->
    lookupRun ec now n (S index) rest child lc tr res lc' ->
    lookupRun ec now n index (dir :: rest) ino lc
      (EvDcacheGet index ino dir (Some child) :: tr) res lc'
| RunMissCached (index : nat) (dir : string) (rest : list string) (ino : Z)
    (lc : gmap Z DentryCache.t) (miss : event) (dcache : DentryCache.t)
    (lc1 : gmap Z DentryCache.t) (child : Z)
    (tr : list event) (res : Z + error) (lc' : gmap Z DentryCache.t) :
    dir <> "/"%string -> dir <> ""%string ->
    cacheMiss now index ino dir lc miss dcache lc1 ->
    lookup ec ino dir = inl child ->
    index <> (n - 1)%nat ->
    lookupRun ec now n (S index) rest child
      (<[ino := DentryCache.Put dir child dcache]> lc1) tr res lc' ->
    lookupRun ec now n index (dir :: rest) ino lc
      (miss :: EvLookup index ino dir :: EvDcachePut index ino dir child :: tr) res lc'
| RunMissLast (index : nat) (dir : string) (rest : list string) (ino : Z)
    (lc : gmap Z DentryCache.t) (miss : event) (dcache : DentryCache.t)
    (lc1 : gmap Z DentryCache.t) (child : Z)
    (tr : list event) (res : Z + error) (lc' : gmap Z DentryCache.t) :
    dir <> "/"%string -> dir <> ""%string ->
    cacheMiss now index ino dir lc miss dcache lc1 ->
    lookup ec ino dir = inl child ->
    index = (n - 1)%nat ->
    lookupRun ec now n (S index) rest child lc1 tr res lc' ->
    lookupRun ec now n index (dir :: rest) ino lc
      (miss :: EvLookup index ino dir :: tr) res lc'
| RunMissFailed (index : nat) (dir : string) (rest : list string) (ino : Z)
    (lc : gmap Z DentryCache.t) (miss : event) (dcache : DentryCache.t)
    (lc1 : gmap Z DentryCache.t) (err : error) :
    dir <> "/"%string -> dir <> ""%string ->
    cacheMiss now index ino dir lc miss dcache lc1 ->
    lookup ec ino dir = inr err ->
    lookupRun ec now n index (dir :: rest) ino lc
      [miss; EvLookup index ino dir] (inr err) lc1.

(** The invariant of the registry: every key leads to an [IndexInfo] whose
    [path] is the key. *)
Definition registry_ok (pManager : PrefetchManager) (store : list IndexInfo.t) : Prop :=
  forall key l,
    indexFileInfoMap pManager !! key = Some l ->
    exists info, store !! l = Some info /\ IndexInfo.path info = key.


(** ** Observations on events and queues *)

(** The number of events of a trace that satisfy a test. *)
Fixpoint countEvents (test : event -> bool) (tr : list event) : nat :=
  match tr with
  | [] => O
  | e :: rest => if test e then S (countEvents test rest) else countEvents test rest
  end.

Definition isWgDone (w : resp_ptr) (e : event) : bool :=
  match e with EvWgDone w' => Nat.eqb w w' | _ => false end.

Definition isWrite (e : event) : bool :=
  match e with EvWrite _ _ => true | _ => false end.

Definition isGetBlockBuf (b : buffer) (e : event) : bool :=
  match e, b with
  | EvGetBlockBuf ContentBuf _, ContentBuf | EvGetBlockBuf RespBuf _, RespBuf => true
  | _, _ => false
  end.

Definition isPutBlockBuf (b : buffer) (e : event) : bool :=
  match e, b with
  | EvPutBlockBuf ContentBuf, ContentBuf | EvPutBlockBuf RespBuf, RespBuf => true
  | _, _ => false
  end.

Definition isOpenStream (e : event) : bool :=
  match e with EvOpenStream _ None => true | _ => false end.

Definition isCloseStream (e : event) : bool :=
  match e with EvCloseStream _ => true | _ => false end.

Definition isLookup (e : event) : bool :=
  match e with EvLookup _ _ _ => true | _ => false end.

Definition isDcachePut (e : event) : bool :=
  match e with EvDcachePut _ _ _ _ => true | _ => false end.

(** The number of queued jobs that hold the writer [w]. *)
Fixpoint queuedFor (w : resp_ptr) (jobs : list DownloadFileInfo) : Z :=
  match jobs with
  | [] => 0
  | dInfo :: rest =>
      (if Nat.eqb (resp dInfo) w then 1 else 0) + queuedFor w rest
  end.

(** The counter of the wait group of the writer at [w]. *)
Definition wgOf (w : resp_ptr) (ws : gmap resp_ptr BatchDownloadRespWriter) : option Z :=
  Wg <$> ws !! w.
(** * Further operations of the package *)

(** ** A reader of the download stream *)

(** The reader of a response is not part of the package. This one takes the
    four fields of a record in the order in which [ReadData] stores them:
    eight bytes of path length, the path, eight bytes of data length, the
    data; it gives the path, the data and the rest of the stream. *)
Definition parseRecord (stream : list byte) : option (list byte * list byte * list byte) :=
  if (List.length stream <? 8)%nat then None
  else
    let pathLen := Z.to_nat (GoBytes.Uint64 stream) in
    let s1 := skipn 8 stream in
    if (List.length s1 <? pathLen)%nat then None
    else
      let s2 := skipn pathLen s1 in
      if (List.length s2 <? 8)%nat then None
      else
        let dataLen := Z.to_nat (GoBytes.Uint64 s2) in
        let s3 := skipn 8 s2 in
        if (List.length s3 <? dataLen)%nat then None
        else Some (firstn pathLen s1, firstn dataLen s3, skipn dataLen s3).

(** Reading records until the stream is empty; [fuel] bounds their number. *)
Fixpoint parseStream (fuel : nat) (stream : list byte)
    : option (list (list byte * list byte)) :=
  match stream with
  | [] => Some []
  | _ :: _ =>
      match fuel with
      | O => None
      | S fuel' =>
          match parseRecord stream with
          | None => None
          | Some (path, data, rest) =>
              match parseStream fuel' rest with
              | None => None
              | Some records => Some ((path, data) :: records)
              end
          end
      end
  end.

(** ** Construction and shutdown *)

(** The fields [NewPrefetchManager] sets; the workers and the janitor it
    starts are goroutines of their own. *)
Definition NewPrefetchManager (volName mountPoint : string) : PrefetchManager :=
  mkManager volName mountPoint ∅ [] [] [] ∅ ∅ ∅ (mkMetrics 0 0) false.

(** [Close], once the workers have returned and with no job in their
    hands: the flag is set, the signal channel [closeC] is closed, and the
    download queue is drained. [closeC] is closed exactly when [isClosed]
    holds, and closing a closed channel panics. *)
Definition Close (pManager : PrefetchManager)
    (ws : gmap resp_ptr BatchDownloadRespWriter)
    : outcome (PrefetchManager * gmap resp_ptr BatchDownloadRespWriter) :=
  if isClosed pManager then Panic "close of closed channel"
  else Done (clearDownloadChan (with_isClosed true pManager) ws).

(** ** Resolving a path without the cache *)

(** Component by component with [lookup] alone, empty components skipped. *)
Fixpoint walk (ec : ExtentClient) (ino : Z) (dirs : list string) : Z + error :=
  match dirs with
  | [] => inl ino
  | dir :: rest =>
      if (String.eqb dir "/" || String.eqb dir "")%bool then walk ec ino rest
      else
        match lookup ec ino dir with
        | inl child => walk ec child rest
        | inr err => inr err
        end
  end.

(** Every mapping of [lookupDcache] is one the file system gives. *)
Definition cache_sound (ec : ExtentClient) (lc : gmap Z DentryCache.t) : Prop :=
  forall ino dc name child,
    lc !! ino = Some dc ->
    DentryCache.Get name dc = Some child ->
    lookup ec ino name = inl child.

(** [lc'] has a cache wherever [lc] has one, with at least its mappings. *)
Definition cache_le (lc lc' : gmap Z DentryCache.t) : Prop :=
  forall ino dc,
    lc !! ino = Some dc ->
    exists dc', lc' !! ino = Some dc'
                /\ forall name child,
                     DentryCache.Get name dc = Some child ->
                     DentryCache.Get name dc' = Some child.

(** ** Loading an index *)

(** [proto.Dentry], as far as the package reads it. *)
Record Dentry := mkDentry { Name : string; Inode : Z }.

(** The methods [lookupPath] and [readdir] of [ExtentClient], as functions
    of a fixed file-system snapshot. *)
Record DirClient := mkDirClient {
  lookupPath : string -> Z + error;
  readdir : Z -> list Dentry + error
}.

(** [path.Split]: the path up to and with its last slash, and what follows
    it; a path without slash has an empty directory. *)
Fixpoint pathSplit (s : string) : string * string :=
  match s with
  | EmptyString => (EmptyString, EmptyString)
  | String c s' =>
      let '(dir, file) := pathSplit s' in
      if String.eqb dir "" then
        if Ascii.eqb c "/" then (String c EmptyString, file)
        else (EmptyString, String c file)
      else (String c dir, file)
  end.

Module DentryInfo.
Record t := mk { parIno : Z; dcache : DentryCache.t }.
End DentryInfo.

(** The cache [getDirInfo] fills with the children of a directory. *)
Definition dirCache (now : GoTime.Time) (children : list Dentry) : DentryCache.t :=
  fold_left (fun dcache child => DentryCache.Put (Name child) (Inode child) dcache)
    children (DentryCache.NewDentryCache now (30 * GoTime.Minute)).

(** [getDirInfo]. *)
Definition getDirInfo (dc : DirClient) (now : GoTime.Time) (path : string)
    : Z * DentryCache.t + error :=
  match lookupPath dc path with
  | inr err => inr err
  | inl parIno =>
      match readdir dc parIno with
      | inr err => inr err
      | inl children => inl (parIno, dirCache now children)
      end
  end.

(** The errors of [getFileInode]: the one of [getDirInfo], or "get inode id
    failed". *)
Inductive inodeError : Type :=
| ErrDirInfo (err : error)
| ErrGetInode.

(** The times [LoadIndex] reads: when the cache of a directory path is
    made, and when the dentry cache of a parent inode is made. *)
Record loadClock := mkLoadClock {
  t_dir : string -> GoTime.Time;
  t_store : Z -> GoTime.Time
}.

(** [getFileInode]: the inode and the error, the scratch map of the load,
    the manager, and the directory paths handed to [getDirInfo]. *)
Definition getFileInode (dc : DirClient) (clk : loadClock) (pManager : PrefetchManager)
    (pathDentryInfoMap : gmap string DentryInfo.t) (cfsPath : string)
    (indexInfo : IndexInfo.t)
    : Z * option inodeError * gmap string DentryInfo.t * PrefetchManager * list string :=
  let '(dirPath, fileName) := pathSplit cfsPath in
  let found :=
    match pathDentryInfoMap !! dirPath with
    | Some dInfo => inl (dInfo, pathDentryInfoMap, [])
    | None =>
        match getDirInfo dc (t_dir clk dirPath) dirPath with
        | inr err => inr err
        | inl (parIno, allDcache) =>
            let dInfo := DentryInfo.mk parIno allDcache in
            inl (dInfo, <[dirPath := dInfo]> pathDentryInfoMap, [dirPath])
        end
    end in
  match found with
  | inr err => (0, Some (ErrDirInfo err), pathDentryInfoMap, pManager, [dirPath])
  | inl (dInfo, scratch, listed) =>
      match DentryCache.Get fileName (DentryInfo.dcache dInfo) with
      | Some ino =>
          (ino, None, scratch,
           with_dcacheMap
             (storeFileDentry (t_store clk (DentryInfo.parIno dInfo)) indexInfo
                (DentryInfo.parIno dInfo) fileName ino (dcacheMap pManager))
             pManager,
           listed)
      | None => (0, Some ErrGetInode, scratch, pManager, listed)
      end
  end.

(** The loop of [LoadIndex] over the file list: the lines with an empty
    path are skipped; the others get the inode [getFileInode] returns, 0 on
    an error. *)
Fixpoint resolveFiles (dc : DirClient) (clk : loadClock) (indexInfo : IndexInfo.t)
    (files : list FileInfo.t) (scratch : gmap string DentryInfo.t)
    (pManager : PrefetchManager) (listed : list string)
    : list FileInfo.t * gmap string DentryInfo.t * PrefetchManager * list string :=
  match files with
  | [] => ([], scratch, pManager, listed)
  | fInfo :: rest =>
      if String.eqb (FileInfo.path fInfo) "" then
        let '(rest', scratch, pManager, listed) :=
          resolveFiles dc clk indexInfo rest scratch pManager listed in
        (fInfo :: rest', scratch, pManager, listed)
      else
        let '(inoID, _, scratch, pManager, called) :=
          getFileInode dc clk pManager scratch (FileInfo.path fInfo) indexInfo in
        let '(rest', scratch, pManager, listed) :=
          resolveFiles dc clk indexInfo rest scratch pManager (listed ++ called) in
        (FileInfo.mk (FileInfo.path fInfo) inoID (FileInfo.isAbs fInfo) :: rest',
         scratch, pManager, listed)
  end.

Definition withFiles (info : IndexInfo.t) (files : list FileInfo.t) : IndexInfo.t :=
  IndexInfo.mk (IndexInfo.path info) (IndexInfo.datasetCnt info) (IndexInfo.ttl info)
    (IndexInfo.validMinute info) files.

(** [LoadIndex] on the object at address [indexInfo]: the error, the
    manager, the store and the directory paths handed to [getDirInfo]. The
    registered object [actual] takes the file list just parsed; its
    [FileInfo]s are the very objects of the list of [indexInfo], so the
    inodes found show in both. *)
Definition LoadIndex (dc : DirClient) (clk : loadClock) (pManager : PrefetchManager)
    (store : list IndexInfo.t) (indexInfo : index_ptr)
    (file : list string * option error + error)
    : outcome (option error * PrefetchManager * list IndexInfo.t * list string) :=
  match readIndexFileByLine pManager store indexInfo file with
  | Panic msg => Panic msg
  | Done (Some err, store) =>
      match store !! indexInfo with
      | None => Panic nilDereference
      | Some info =>
          Done (Some err,
                with_indexFileInfoMap
                  (delete (IndexInfo.path info) (indexFileInfoMap pManager)) pManager,
                store, [])
      end
  | Done (None, store) =>
      match store !! indexInfo with
      | None => Panic nilDereference
      | Some info =>
          let '(actual, registry) :=
            match indexFileInfoMap pManager !! IndexInfo.path info with
            | Some found => (found, indexFileInfoMap pManager)
            | None =>
                (indexInfo,
                 <[IndexInfo.path info := indexInfo]> (indexFileInfoMap pManager))
            end in
          match store !! actual with
          | None => Panic nilDereference
          | Some actualInfo =>
              let actualInfo := withFiles actualInfo (IndexInfo.fileInfoMap info) in
              let '(files, _, pManager, listed) :=
                resolveFiles dc clk actualInfo (IndexInfo.fileInfoMap info) ∅
                  (with_indexFileInfoMap registry pManager) [] in
              Done (None, pManager,
                    <[actual := withFiles actualInfo files]>
                      (<[indexInfo := withFiles info files]> store),
                    listed)
          end
      end
  end.

(** The inode the snapshot gives for a path of an index: the parent inode
    of its directory, its base name, and the inode of the child of that
    name ([None] when the directory does not resolve, cannot be listed, or
    has no such child). *)
Definition resolveLine (dc : DirClient) (cfsPath : string) : option (Z * string * Z) :=
  let '(dirPath, fileName) := pathSplit cfsPath in
  match lookupPath dc dirPath with
  | inr _ => None
  | inl parIno =>
      match readdir dc parIno with
      | inr _ => None
      | inl children =>
          match DentryCache.Get fileName (dirCache 0 children) with
          | Some ino => Some (parIno, fileName, ino)
          | None => None
          end
      end
  end.

(** What [LoadIndex] makes of a parsed line. *)
Definition resolvedFile (dc : DirClient) (fInfo : FileInfo.t) : FileInfo.t :=
  if String.eqb (FileInfo.path fInfo) "" then fInfo
  else
    FileInfo.mk (FileInfo.path fInfo)
      match resolveLine dc (FileInfo.path fInfo) with
      | Some (_, _, ino) => ino
      | None => 0
      end
      (FileInfo.isAbs fInfo).

(** [dcacheMap] maps [fileName] to [ino] under [parIno]. *)
Definition dentryCached (m : gmap Z IndexDentryInfo.t) (fact : Z * string * Z) : Prop :=
  let '(parIno, fileName, ino) := fact in
  exists owned,
    m !! parIno = Some owned
    /\ DentryCache.Get fileName (IndexDentryInfo.dcache owned) = Some ino.


(** The scratch map of a load holds what the snapshot gives. *)
Definition scratch_ok (dc : DirClient) (scratch : gmap string DentryInfo.t) : Prop :=
  forall dirPath dInfo,
    scratch !! dirPath = Some dInfo ->
    exists children,
      lookupPath dc dirPath = inl (DentryInfo.parIno dInfo)
      /\ readdir dc (DentryInfo.parIno dInfo) = inl children
      /\ forall name,
           DentryCache.Get name (DentryInfo.dcache dInfo)
           = DentryCache.Get name (dirCache 0 children).

(** A mapping that the listing of its parent gives. *)
Definition listed_fact (dc : DirClient) (fact : Z * string * Z) : Prop :=
  let '(parIno, fileName, ino) := fact in
  exists children,
    readdir dc parIno = inl children
    /\ DentryCache.Get fileName (dirCache 0 children) = Some ino.
(** A directory path that the snapshot resolves and lists. *)
Definition dirResolves (dc : DirClient) (dirPath : string) : Prop :=
  exists parIno children,
    lookupPath dc dirPath = inl parIno /\ readdir dc parIno = inl children.

(** How often a directory path was handed to [getDirInfo]. *)
Definition timesListed (dirPath : string) (listed : list string) : nat :=
  List.length (List.filter (String.eqb dirPath) listed).


(** ** A session of downloads *)

(** The case [dInfo := <-pManager.downloadChan] of the worker's [select]:
    the oldest job is received and handled by [ReadData], whose error is
    only logged. With nothing queued the case is not taken. *)
Definition workerDownload (ec : ExtentClient) (pool : BlockPool) (now : Z -> GoTime.Time)
    (pManager : PrefetchManager) (ws : gmap resp_ptr BatchDownloadRespWriter)
    : PrefetchManager * gmap resp_ptr BatchDownloadRespWriter * list event :=
  match downloadChan pManager with
  | [] => (pManager, ws, [])
  | dInfo :: rest =>
      let '(_, p, ws', tr) :=
        ReadData ec pool now (with_downloadChan rest pManager) ws dInfo in
      (p, ws', tr)
  end.

(** What happens to the download queue between start and shutdown, one
    whole call after the other: a job is offered ([putDownloadChan], as by
    [DownloadData]), a path is offered ([DownloadPath]), or a worker serves
    the oldest job. *)
Inductive downloadOp : Type :=
| OpPut (dInfo : DownloadFileInfo)
| OpDownloadPath (filePath : string) (respData : resp_ptr)
| OpWorker.

Fixpoint runDownloads (ec : ExtentClient) (pool : BlockPool) (now : Z -> GoTime.Time)
    (ops : list downloadOp) (pManager : PrefetchManager)
    (ws : gmap resp_ptr BatchDownloadRespWriter)
    : PrefetchManager * gmap resp_ptr BatchDownloadRespWriter :=
  match ops with
  | [] => (pManager, ws)
  | OpPut dInfo :: rest =>
      let '(_, p, ws') := putDownloadChan pManager ws dInfo in
      runDownloads ec pool now rest p ws'
  | OpDownloadPath filePath respData :: rest =>
      let '(p, ws') := DownloadPath pManager ws filePath respData in
      runDownloads ec pool now rest p ws'
  | OpWorker :: rest =>
      let '(p, ws', _) := workerDownload ec pool now pManager ws in
      runDownloads ec pool now rest p ws'
  end.


(** ** Files by their line number *)

(** The body the [Range] closures of [PrefetchByIndex] and
    [GetBatchFileInfos] share, for one visited [value]: the [FileInfo] at
    line [index] of an index of the dataset, unless the line is out of range
    or empty. [index] is a [uint64]. *)
Definition lineAt (store : list IndexInfo.t) (datasetCnt : string) (index : Z)
    (value : index_ptr) : outcome (option FileInfo.t) :=
  match store !! value with
  | None => Panic nilDereference
  | Some info =>
      if negb (String.eqb (IndexInfo.datasetCnt info) datasetCnt) then Done None
      else if Z.of_nat (List.length (IndexInfo.fileInfoMap info)) <=? index then Done None
      else
        match IndexInfo.fileInfoMap info !! Z.to_nat index with
        | None => Panic "index out of range"
        | Some fileInfo =>
            if String.eqb (FileInfo.path fileInfo) "" then Done None
            else Done (Some fileInfo)
        end
  end.

(** The [Range] of [PrefetchByIndex] over the entries in the order [visit]
    of the visit, which [sync.Map] leaves open: the first refused
    [putFilePathChan] ends it. *)
Fixpoint PrefetchByIndex_range (store : list IndexInfo.t) (datasetCnt : string)
    (index : Z) (visit : list (string * index_ptr)) (pManager : PrefetchManager)
    : outcome (option error * PrefetchManager) :=
  match visit with
  | [] => Done (None, pManager)
  | (_, value) :: rest =>
      match lineAt store datasetCnt index value with
      | Panic msg => Panic msg
      | Done None => PrefetchByIndex_range store datasetCnt index rest pManager
      | Done (Some fileInfo) =>
          match putFilePathChan pManager fileInfo with
          | (Some err, p) => Done (Some err, p)
          | (None, p) => PrefetchByIndex_range store datasetCnt index rest p
          end
      end
  end.

(** [PrefetchByIndex]. *)
Definition PrefetchByIndex (visit : list (string * index_ptr))
    (pManager : PrefetchManager) (store : list IndexInfo.t) (datasetCnt : string)
    (index : Z) : outcome (option error * PrefetchManager) :=
  PrefetchByIndex_range store datasetCnt index visit pManager.

(** The [Range] of [GetBatchFileInfos] for one [index]. *)
Fixpoint GetBatchFileInfos_range (store : list IndexInfo.t) (datasetCnt : string)
    (index : Z) (visit : list (string * index_ptr)) (infos : list FileInfo.t)
    : outcome (list FileInfo.t) :=
  match visit with
  | [] => Done infos
  | (_, value) :: rest =>
      match lineAt store datasetCnt index value with
      | Panic msg => Panic msg
      | Done None => GetBatchFileInfos_range store datasetCnt index rest infos
      | Done (Some fileInfo) =>
          GetBatchFileInfos_range store datasetCnt index rest (infos ++ [fileInfo])
      end
  end.

(** The two loops of [GetBatchFileInfos] over the indices of the batch, one
    after the other; [visits n] is the order of the visit of the [Range]
    numbered [n]. *)
Fixpoint GetBatchFileInfos_loop (store : list IndexInfo.t) (datasetCnt : string)
    (visits : nat -> list (string * index_ptr)) (n : nat) (indices : list Z)
    (infos : list FileInfo.t) : outcome (list FileInfo.t) :=
  match indices with
  | [] => Done infos
  | index :: rest =>
      match GetBatchFileInfos_range store datasetCnt index (visits n) infos with
      | Panic msg => Panic msg
      | Done infos => GetBatchFileInfos_loop store datasetCnt visits (S n) rest infos
      end
  end.

(** [GetBatchFileInfos]: the infos and the error, which is never set. *)
Definition GetBatchFileInfos (visits : nat -> list (string * index_ptr))
    (store : list IndexInfo.t) (batchArr : list (list Z)) (datasetCnt : string)
    : outcome (list FileInfo.t * option error) :=
  match GetBatchFileInfos_loop store datasetCnt visits 0 (concat batchArr) [] with
  | Panic msg => Panic msg
  | Done infos => Done (infos, None)
  end.

(** Line [index] of an index, when the index is of the dataset and has a
    non-empty line of that number. *)
Definition lineOf (datasetCnt : string) (index : Z) (info : IndexInfo.t)
    : option FileInfo.t :=
  if String.eqb (IndexInfo.datasetCnt info) datasetCnt then
    match IndexInfo.fileInfoMap info !! Z.to_nat index with
    | Some fileInfo =>
        if String.eqb (FileInfo.path fileInfo) "" then None else Some fileInfo
    | None => None
    end
  else None.

(** The non-empty lines numbered [index] of the registered indexes of a
    dataset, in the order of [map_to_list]. *)
Definition linesAt (store : list IndexInfo.t) (datasetCnt : string) (index : Z)
    (registry : gmap string index_ptr) : list FileInfo.t :=
  omap (fun entry : string * index_ptr =>
          match store !! snd entry with
          | Some info => lineOf datasetCnt index info
          | None => None
          end) (map_to_list registry).

(** ** The application pids and the read counters *)

Inductive pidOp : Type :=
| OpPutAppPid (pid : Z)
| OpDeleteAppPid (pid : Z).

(** Calls of [PutAppPid] and [DeleteAppPid], one after the other. *)
Fixpoint runPidOps (ops : list pidOp) (pManager : option PrefetchManager)
    : outcome (option PrefetchManager) :=
  match ops with
  | [] => Done pManager
  | op :: rest =>
      match (match op with
             | OpPutAppPid pid => PutAppPid pManager pid
             | OpDeleteAppPid pid => DeleteAppPid pManager pid
             end) with
      | Panic msg => Panic msg
      | Done p => runPidOps rest p
      end
  end.

(** Whether the last call about [pid] put it; [before] when there is none. *)
Fixpoint lastPidOp (pid : Z) (ops : list pidOp) (before : bool) : bool :=
  match ops with
  | [] => before
  | OpPutAppPid pid' :: rest => lastPidOp pid rest (if pid' =? pid then true else before)
  | OpDeleteAppPid pid' :: rest => lastPidOp pid rest (if pid' =? pid then false else before)
  end.

(** The case [<-t1.C] of [cleanExpiredIndexInfo], without its log line: the
    two counters are swapped for zero; the pair read is returned. *)
Definition metricsTick (pManager : PrefetchManager) : Z * Z * PrefetchManager :=
  (totalReadCount (metrics pManager), appReadCount (metrics pManager),
   with_metrics (mkMetrics 0 0) pManager).

Inductive readOp : Type :=
| OpTotalRead
| OpAppRead.

(** Calls of [AddTotalReadCount] and [AddAppReadCount], one after the other. *)
Fixpoint runReadOps (ops : list readOp) (pManager : option PrefetchManager)
    : outcome (option PrefetchManager) :=
  match ops with
  | [] => Done pManager
  | op :: rest =>
      match (match op with
             | OpTotalRead => AddTotalReadCount pManager
             | OpAppRead => AddAppReadCount pManager
             end) with
      | Panic msg => Panic msg
      | Done p => runReadOps rest p
      end
  end.

Definition isTotalRead (op : readOp) : bool :=
  match op with OpTotalRead => true | OpAppRead => false end.

Definition isAppRead (op : readOp) : bool :=
  match op with OpAppRead => true | OpTotalRead => false end.


(** ** Warming the inode cache *)

(** What [PrefetchInodeInfo] uses of the client: whether the hook
    [putIcache] is set, and [batchInodeGet]. The infos the client gives are
    of a type of package [proto], kept abstract here. *)
Record IcacheClient (Info : Type) := mkIcacheClient {
  hasPutIcache : bool;
  batchInodeGet : list Z -> list Info
}.
Arguments mkIcacheClient {Info} hasPutIcache batchInodeGet.
Arguments hasPutIcache {Info} i.
Arguments batchInodeGet {Info} i inodes.

(** The calls [PrefetchInodeInfo] makes on the client. *)
Inductive icacheEvent (Info : Type) : Type :=
| EvBatchInodeGet (inodes : list Z)
| EvPutIcache (info : Info).
Arguments EvBatchInodeGet {Info} inodes.
Arguments EvPutIcache {Info} info.

(** The body of the [Range] closure of [PrefetchInodeInfo] for one visited
    [value]: the inode of line [index] of an index of the dataset, unless
    the line is out of range or its inode is zero. The line is taken at
    [uint32(index)]. *)
Definition inodeAt (store : list IndexInfo.t) (datasetCnt : string) (index : Z)
    (value : index_ptr) : outcome (option Z) :=
  match store !! value with
  | None => Panic nilDereference
  | Some info =>
      if negb (String.eqb (IndexInfo.datasetCnt info) datasetCnt) then Done None
      else if Z.of_nat (List.length (IndexInfo.fileInfoMap info)) <=? index then Done None
      else
        match IndexInfo.fileInfoMap info !! Z.to_nat (index mod 2 ^ 32) with
        | None => Panic "index out of range"
        | Some fileInfo =>
            if negb (FileInfo.inoID fileInfo =? 0) then Done (Some (FileInfo.inoID fileInfo))
            else Done None
        end
  end.

(** The [Range] of [PrefetchInodeInfo] for one [index]. *)
Fixpoint PrefetchInodeInfo_range (store : list IndexInfo.t) (datasetCnt : string)
    (index : Z) (visit : list (string * index_ptr)) (inodes : list Z)
    : outcome (list Z) :=
  match visit with
  | [] => Done inodes
  | (_, value) :: rest =>
      match inodeAt store datasetCnt index value with
      | Panic msg => Panic msg
      | Done None => PrefetchInodeInfo_range store datasetCnt index rest inodes
      | Done (Some inode) =>
          PrefetchInodeInfo_range store datasetCnt index rest (inodes ++ [inode])
      end
  end.

(** The two loops of [PrefetchInodeInfo] over the indices of the batch. *)
Fixpoint PrefetchInodeInfo_loop (store : list IndexInfo.t) (datasetCnt : string)
    (visits : nat -> list (string * index_ptr)) (n : nat) (indices : list Z)
    (inodes : list Z) : outcome (list Z) :=
  match indices with
  | [] => Done inodes
  | index :: rest =>
      match PrefetchInodeInfo_range store datasetCnt index (visits n) inodes with
      | Panic msg => Panic msg
      | Done inodes => PrefetchInodeInfo_loop store datasetCnt visits (S n) rest inodes
      end
  end.

(** [PrefetchInodeInfo]: the calls made on the client, in order. *)
Definition PrefetchInodeInfo {Info : Type} (ic : IcacheClient Info)
    (visits : nat -> list (string * index_ptr)) (store : list IndexInfo.t)
    (datasetCnt : string) (batchArr : list (list Z))
    : outcome (list (icacheEvent Info)) :=
  if negb (hasPutIcache ic) then Done []
  else
    match PrefetchInodeInfo_loop store datasetCnt visits 0 (concat batchArr) [] with
    | Panic msg => Panic msg
    | Done inodes =>
        if (List.length inodes =? 0)%nat then Done []
        else
          let infos := batchInodeGet ic inodes in
          Done (EvBatchInodeGet inodes :: List.map EvPutIcache infos)
    end.

(** The inode of line [index] of an index, when the index is of the dataset
    and has a line of that number with an inode. *)
Definition inodeOf (datasetCnt : string) (index : Z) (info : IndexInfo.t) : option Z :=
  if String.eqb (IndexInfo.datasetCnt info) datasetCnt then
    match IndexInfo.fileInfoMap info !! Z.to_nat index with
    | Some fileInfo =>
        if FileInfo.inoID fileInfo =? 0 then None else Some (FileInfo.inoID fileInfo)
    | None => None
    end
  else None.

(** The inodes of the lines numbered [index] of the registered indexes of a
    dataset, in the order of [map_to_list]. *)
Definition inodesAt (store : list IndexInfo.t) (datasetCnt : string) (index : Z)
    (registry : gmap string index_ptr) : list Z :=
  omap (fun entry : string * index_ptr =>
          match store !! snd entry with
          | Some info => inodeOf datasetCnt index info
          | None => None
          end) (map_to_list registry).


(** * Scenarios

    Concrete file systems, pools and managers on which the properties below
    are exercised. The mount point is ["/mnt/v"]; the file system has the
    directory [d1] (inode 100) under the root, with the files [f1] (inode
    101, content ["abc"]) and [f2] (inode 102). *)

Module Scenario.

Definition ec : ExtentClient :=
  mkClient 1
    (fun ino name =>
       if ((ino =? 1) && String.eqb name "d1")%bool then inl 100
       else if ((ino =? 100) && String.eqb name "f1")%bool then inl 101
       else if ((ino =? 100) && String.eqb name "f2")%bool then inl 102
       else inr (ErrExternal "no such file or directory"))
    (fun _ => None)
    (fun ino => if ino =? 101 then (3, true) else (0, true))
    (fun ino size =>
       if ino =? 101
       then (firstn (Z.to_nat size) (GoBytes.bytes_of_string "abc"), None)
       else ([], None)).

(** A pool whose buffers are longer than asked and hold old bytes. *)
Definition pool : BlockPool :=
  mkPool (fun size => repeat xff (Z.to_nat size + 4)).

Definition manager : PrefetchManager :=
  mkManager "v" "/mnt/v" ∅ [] [] [] ∅ ∅ ∅ (mkMetrics 0 0) false.

Definition now : Z -> GoTime.Time := fun _ => 0.

(** One response writer, at address 0, with one job outstanding. *)
Definition writers : gmap resp_ptr BatchDownloadRespWriter := {[ 0%nat := mkResp 1 [] ]}.

Definition job_f1 : DownloadFileInfo := mkDownload "/mnt/v/d1/f1" None 0%nat.

(** The same file system when reading [f1] fails. *)
Definition ec_read_fails : ExtentClient :=
  mkClient (RootIno ec) (lookup ec) (OpenStream ec) (FileSize ec)
    (fun ino size => ([], Some (ErrExternal "input/output error"))).

(** The same file system when reading [f1] yields no byte and no error. *)
Definition ec_read_empty : ExtentClient :=
  mkClient (RootIno ec) (lookup ec) (OpenStream ec) (FileSize ec)
    (fun ino size => ([], None)).

(** A job made by [DownloadData] from a resolved index line. *)
Definition job_f1_resolved : DownloadFileInfo :=
  mkDownload "/mnt/v/d1/f1" (Some (FileInfo.mk "/d1/f1" 101 false)) 0%nat.

(** The manager after [LookupPathByCache "/mnt/v/d1/f1"]: the cache of the
    root inode holds [d1]. *)
Definition manager_warm : PrefetchManager :=
  snd (fst (LookupPathByCache ec now manager "/mnt/v/d1/f1")).

(** The registry after the index ["/idx/a.txt"] of dataset ["2"] was added
    at time 0 with a TTL of 5 minutes and loaded: two files under [d1], and
    the dentry cache of inode 100 owned by the index. *)
Definition index_a : IndexInfo.t :=
  IndexInfo.mk "/idx/a.txt" "2" 300 5
    [FileInfo.mk "/d1/f1" 101 false; FileInfo.mk "/d1/f2" 102 false].

Definition store_indexed : list IndexInfo.t := [index_a].

Definition dcache_d1 : DentryCache.t :=
  DentryCache.Put "f2" 102
    (DentryCache.Put "f1" 101 (DentryCache.NewDentryCache 0 (GoTime.minutes 5))).

Definition manager_indexed : PrefetchManager :=
  mkManager "v" "/mnt/v" {[ "/idx/a.txt"%string := 0%nat ]} [] [] [] ∅ ∅
    {[ 100 := IndexDentryInfo.mk "/idx/a.txt" dcache_d1 ]} (mkMetrics 0 0) false.

(** Two minutes later, in nanoseconds. *)
Definition clock_2min : addClock :=
  mkAddClock 120000000000 120000000000 120000000000 (fun _ => 120000000000).

(** More than an hour later, when the cache of inode 100 has expired. *)
Definition late : GoTime.Time := 4000000000000.

(** While a call of [GetDentryCache 100] stands between its expiry test and
    its delete, the janitor sweeps the expired entry away and a worker that
    loads the index again stores a new, live cache under inode 100. *)
Definition reload_between : list interference :=
  [JanitorSweep (fun _ => late); WorkerStore late index_a 100 "f1" 101].

(** A second index, registered without TTL ([ttl = 0]). *)
Definition index_b : IndexInfo.t := IndexInfo.mk "/idx/b.txt" "3" 0 0 [].

Definition store_two : list IndexInfo.t := [index_a; index_b].

Definition manager_two : PrefetchManager :=
  with_indexFileInfoMap
    {[ "/idx/a.txt"%string := 0%nat; "/idx/b.txt"%string := 1%nat ]} manager_indexed.


(** The directory listing of the file system above: the path ["/d1/"]
    leads to inode 100, whose children are [f1] and [f2]. *)
Definition dirs : DirClient :=
  mkDirClient
    (fun path =>
       if String.eqb path "/d1/" then inl 100
       else inr (ErrExternal "no such file or directory"))
    (fun ino =>
       if ino =? 100 then inl [mkDentry "f1" 101; mkDentry "f2" 102]
       else inr (ErrExternal "not a directory")).

(** The manager and the store when ["/idx/a.txt"] has been added at time 0
    with a TTL of 5 minutes and waits to be loaded. *)
Definition store_added : list IndexInfo.t := [IndexInfo.mk "/idx/a.txt" "2" 300 5 []].

Definition manager_added : PrefetchManager :=
  mkManager "v" "/mnt/v" {[ "/idx/a.txt"%string := 0%nat ]} [0%nat] [] [] ∅ ∅ ∅
    (mkMetrics 0 0) false.

Definition load_clock : loadClock := mkLoadClock (fun _ => 0) (fun _ => 0).

(** The lines of ["/idx/a.txt"], and a third one in a directory that does
    not exist. *)
Definition lines_a : list string :=
  ["/mnt/v/d1/f1"; "/mnt/v/d1/f2"; "/mnt/v/d9/f3"]%string.

End Scenario.

(** * Properties *)

(** ** The string functions on examples *)

Section StringExamples.

Example Replace1_strips_prefix :
  GoStrings.Replace1 "/mnt/v/d1/f1" "/mnt/v" "" = "/d1/f1"%string.
Proof. reflexivity. Qed.

Example Replace1_first_occurrence_only :
  GoStrings.Replace1 "/mnt/v/mnt/v/x" "/mnt/v" "" = "/mnt/v/x"%string.
Proof. reflexivity. Qed.

Example Replace1_empty_old :
  GoStrings.Replace1 "/d1" "" "" = "/d1"%string.
Proof. reflexivity. Qed.

Example Split_keeps_empty_elements :
  GoStrings.Split "/d1//f1/" "/" = [""; "d1"; ""; "f1"; ""]%string.
Proof. reflexivity. Qed.

Example Split_empty_string : GoStrings.Split "" "/" = [""%string].
Proof. reflexivity. Qed.

Example TrimSpace_ascii :
  GoStrings.TrimSpace (String "009" (" /d1/f 1 " +:+ String "013" "")) = "/d1/f 1"%string.
Proof. vm_compute. reflexivity. Qed.

(** U+00A0 in front (bytes C2 A0) and U+3000 behind (bytes E3 80 80). *)
Example TrimSpace_unicode :
  GoStrings.TrimSpace
    (String "194" (String "160" ("/d1" +:+ String "227" (String "128" (String "128" "")))))
  = "/d1"%string.
Proof. vm_compute. reflexivity. Qed.

(** A lone continuation byte is no white space. *)
Example TrimSpace_keeps_stray_byte :
  GoStrings.TrimSpace (String "160" " x") = String "160" " x".
Proof. vm_compute. reflexivity. Qed.

Example ParseInt_examples :
  ParseInt "2" = Some 2 /\ ParseInt "-5" = Some (-5) /\ ParseInt "+7" = Some 7
  /\ ParseInt "" = None /\ ParseInt "-" = None /\ ParseInt "1_0" = None
  /\ ParseInt "imagenet" = None
  /\ ParseInt "9223372036854775807" = Some 9223372036854775807
  /\ ParseInt "9223372036854775808" = None.
Proof. vm_compute. repeat split. Qed.

End StringExamples.

(** ** Bytes *)

Section Bytes.

Import GoBytes.

Lemma Z_of_byte_of_Z (v : Z) : Z_of_byte (byte_of_Z v) = v mod 256.
Proof.
  unfold Z_of_byte, byte_of_Z.
  assert (Hr : 0 <= v mod 256 < 256) by (apply Z.mod_pos_bound; lia).
  destruct (Byte.of_N (Z.to_N (v mod 256))) as [b|] eqn:E.
  - apply Byte.to_of_N in E. rewrite E. lia.
  - apply Byte.of_N_None_iff in E. lia.
Qed.

Lemma lor_shiftl_byte (acc b : Z) :
  0 <= acc -> 0 <= b < 256 -> Z.lor (Z.shiftl acc 8) b = acc * 256 + b.
Proof.
  intros Ha Hb. rewrite Z.shiftl_mul_pow2 by lia.
  change (2 ^ 8) with 256.
  rewrite <- Z.lxor_lor, <- Z.add_nocarry_lxor; try reflexivity.
  all: apply Z.bits_inj'; intros n Hn; rewrite Z.land_spec, Z.bits_0.
  all: destruct (Z.lt_ge_cases n 8) as [Hlt|Hge].
  all: try (replace (acc * 256) with (acc * 2 ^ 8) by reflexivity;
            rewrite Z.mul_pow2_bits_low by lia; reflexivity).
  all: rewrite (Z.bits_above_log2 b n), andb_false_r; try reflexivity; try lia.
  all: destruct (Z.eq_dec b 0) as [->|Hnz]; [simpl; lia|].
  all: apply Z.log2_lt_pow2; try lia.
  all: apply Z.lt_le_trans with (2 ^ 8); [simpl; lia | apply Z.pow_le_mono_r; lia].
Qed.

(** Decoding what [PutUint64] stores gives the value back. *)
Lemma Uint64_be_uint64 (v : Z) (rest : list byte) :
  Uint64 (be_uint64 v ++ rest) = v mod 2 ^ 64.
Proof.
  unfold Uint64, be_uint64. cbn [firstn app fold_left].
  rewrite !Z_of_byte_of_Z, !Z.shiftr_div_pow2 by lia.
  assert (Hb : forall x, 0 <= x mod 256 < 256) by (intros; apply Z.mod_pos_bound; lia).
  assert (Hn : forall x, 0 <= x mod 256) by (intros; apply Hb).
  repeat (rewrite lor_shiftl_byte;
          [ | repeat first [ apply Hn | apply Z.lor_nonneg; split
                           | apply Z.shiftl_nonneg | lia ] | apply Hb ]).
  clear Hb Hn. rewrite firstn_O. cbn [fold_left].
  change (2 ^ 64) with 18446744073709551616.
  change (2 ^ 56) with 72057594037927936.
  change (2 ^ 48) with 281474976710656.
  change (2 ^ 40) with 1099511627776.
  change (2 ^ 32) with 4294967296.
  change (2 ^ 24) with 16777216.
  change (2 ^ 16) with 65536.
  change (2 ^ 8) with 256.
  Z.div_mod_to_equations. lia.
Qed.

End Bytes.

Section Slices.

Import GoBytes.

Lemma copy_into_length (dst : list byte) (lo hi : nat) (src : list byte) :
  (lo <= hi <= List.length dst)%nat ->
  List.length (copy_into dst lo hi src) = List.length dst.
Proof.
  intros H. unfold copy_into.
  rewrite !length_app, !length_take, length_drop. lia.
Qed.

(** Storing [src] right after a prefix already in place extends the prefix. *)
Lemma copy_into_prefix (dst : list byte) (lo hi : nat) (src pre : list byte) :
  firstn lo dst = pre ->
  List.length src = (hi - lo)%nat ->
  (lo <= hi <= List.length dst)%nat ->
  firstn hi (copy_into dst lo hi src) = pre ++ src.
Proof.
  intros Hpre Hsrc H. unfold copy_into.
  rewrite Hpre, <- Hsrc, Nat.min_id, firstn_all, app_assoc.
  apply take_app_length'. rewrite length_app, <- Hpre, length_take. lia.
Qed.

Lemma length_bytes_of_string (s : string) :
  List.length (bytes_of_string s) = String.length s.
Proof.
  unfold bytes_of_string, list_byte_of_string.
  rewrite length_map. induction s as [|c s IH]; simpl; congruence.
Qed.

Lemma length_be_uint64 (v : Z) : List.length (be_uint64 v) = 8%nat.
Proof. reflexivity. Qed.

End Slices.

(** ** The download record (claim C1) *)

Section DownloadRecord.

Import GoBytes.

(** Whatever the pooled buffer held, the record built in it is the four
    fields one after the other. *)
Lemma downloadRecord_fields (pool : BlockPool) (filePath : string)
    (content data : list byte) :
  pool_ok pool ->
  firstn (List.length data) content = data ->
  downloadRecord pool filePath content (Z.of_nat (List.length data)) =
    be_uint64 (uint64 (Z.of_nat (String.length filePath)))
    ++ bytes_of_string filePath
    ++ be_uint64 (uint64 (Z.of_nat (List.length data)))
    ++ data.
Proof.
  intros Hpool Hdata. unfold downloadRecord, PutUint64.
  rewrite Nat2Z.id, Hdata.
  set (L := String.length filePath). set (n := List.length data).
  set (b0 := GetBlockBuf pool _).
  assert (Hb0 : (8 + L + 8 + n <= List.length b0)%nat).
  { subst b0. specialize (Hpool (Z.of_nat (8 + L + 8 + n))).
    rewrite Nat2Z.id in Hpool. exact Hpool. }
  set (b1 := copy_into b0 0 (0 + 8) _).
  assert (H1 : firstn 8 b1 = be_uint64 (uint64 (Z.of_nat L)) /\
               List.length b1 = List.length b0).
  { split.
    - subst b1. change (0 + 8)%nat with 8%nat.
      rewrite (copy_into_prefix b0 0 8 _ []); [reflexivity | reflexivity | reflexivity | lia].
    - apply copy_into_length. lia. }
  destruct H1 as [H1 H1l].
  set (b2 := copy_into b1 8 (8 + L) _).
  assert (H2 : firstn (8 + L) b2 =
               be_uint64 (uint64 (Z.of_nat L)) ++ bytes_of_string filePath /\
               List.length b2 = List.length b0).
  { split.
    - subst b2. apply copy_into_prefix; [exact H1 | | lia].
      rewrite length_bytes_of_string. subst L. lia.
    - rewrite <- H1l. apply copy_into_length. lia. }
  destruct H2 as [H2 H2l].
  set (b3 := copy_into b2 (8 + L) (8 + L + 8) _).
  assert (H3 : firstn (16 + L) b3 =
               (be_uint64 (uint64 (Z.of_nat L)) ++ bytes_of_string filePath)
               ++ be_uint64 (uint64 (Z.of_nat n)) /\
               List.length b3 = List.length b0).
  { split.
    - subst b3. replace (16 + L)%nat with (8 + L + 8)%nat by lia.
      apply copy_into_prefix; [exact H2 | | lia].
      rewrite length_be_uint64. lia.
    - rewrite <- H2l. apply copy_into_length. lia. }
  destruct H3 as [H3 H3l].
  rewrite (copy_into_prefix b3 (16 + L) (8 + L + 8 + n) data _ H3); [ | lia | lia].
  rewrite <- !app_assoc. reflexivity.
Qed.

(** After a read of [data] into the content buffer, the first
    [len(data)] bytes of the buffer are [data]. *)
Lemma content_after_read (pool : BlockPool) (fileSize : Z) (data : list byte) :
  pool_ok pool ->
  (List.length data <= Z.to_nat fileSize)%nat ->
  firstn (List.length data)
    (copy_into (GetBlockBuf pool fileSize) 0 (Z.to_nat fileSize) data) = data.
Proof.
  intros Hpool Hle. unfold copy_into.
  rewrite Nat.sub_0_r, Nat.min_r by lia.
  rewrite firstn_all, firstn_O. cbn [app].
  apply take_app_length'. reflexivity.
Qed.

(** C1. A download job whose read succeeds with [n > 0] bytes [data] of the
    file at path [p] has exactly one record written to its response writer:
    [16 + len(p) + n] bytes, namely the big-endian [uint64] of [len(p)] in
    bytes [0..8), the bytes of [p] in [8..8+len(p)), the big-endian [uint64]
    of [n] in the next eight bytes, and the [n] bytes read after them. *)
Theorem ReadData_record_layout (ec : ExtentClient) (pool : BlockPool)
    (now : Z -> GoTime.Time) (pManager p' : PrefetchManager)
    (ws : gmap resp_ptr BatchDownloadRespWriter) (dInfo : DownloadFileInfo)
    (w : BatchDownloadRespWriter) (inodeID fileSize : Z) (data : list byte)
    (tr : list event) :
  pool_ok pool ->
  ws !! resp dInfo = Some w ->
  jobInode ec now pManager dInfo = (inl inodeID, p', tr) ->
  OpenStream ec inodeID = None ->
  FileSize ec inodeID = (fileSize, true) ->
  0 < fileSize ->
  Read ec inodeID fileSize = (data, None) ->
  (0 < List.length data <= Z.to_nat fileSize)%nat ->
  let p := absPath dInfo in
  let L := String.length p in
  let n := List.length data in
  exists (record : list byte) ws' tr',
    ReadData ec pool now pManager ws dInfo = (None, p', ws', tr')
    /\ ws' !! resp dInfo = Some (mkResp (Wg w - 1) (Writer w ++ [record]))
    /\ List.length record = (16 + L + n)%nat
    /\ slice record 0 8 = be_uint64 (uint64 (Z.of_nat L))
    /\ Uint64 (slice record 0 8) = Z.of_nat L mod 2 ^ 64
    /\ slice record 8 (8 + L) = bytes_of_string p
    /\ slice record (8 + L) (16 + L) = be_uint64 (uint64 (Z.of_nat n))
    /\ Uint64 (slice record (8 + L) (16 + L)) = Z.of_nat n mod 2 ^ 64
    /\ slice record (16 + L) (16 + L + n) = data
    /\ record = be_uint64 (uint64 (Z.of_nat L)) ++ bytes_of_string p
                ++ be_uint64 (uint64 (Z.of_nat n)) ++ data.
Proof.
  intros Hpool Hw Hino Hopen Hsize Hpos Hread Hn p L n.
  set (record := be_uint64 (uint64 (Z.of_nat L)) ++ bytes_of_string p
                 ++ be_uint64 (uint64 (Z.of_nat n)) ++ data).
  assert (Hfr : ReadData_body ec pool now pManager dInfo =
                mkFrame None
                  (copy_into (GetBlockBuf pool fileSize) 0 (Z.to_nat fileSize) data)
                  (Z.of_nat n) p'
                  (tr ++ [EvOpenStream inodeID None; EvGetBlockBuf ContentBuf fileSize;
                          EvRead inodeID fileSize; EvCloseStream inodeID])).
  { unfold ReadData_body. rewrite Hino, Hopen, Hsize.
    replace (fileSize =? 0) with false by (symmetry; apply Z.eqb_neq; lia).
    cbn [negb orb]. rewrite Hread. reflexivity. }
  assert (Hrec : downloadRecord pool p
                   (copy_into (GetBlockBuf pool fileSize) 0 (Z.to_nat fileSize) data)
                   (Z.of_nat n) = record).
  { apply downloadRecord_fields; [exact Hpool|].
    apply content_after_read; [exact Hpool | lia]. }
  exists record. eexists. eexists. split.
  { unfold ReadData, ReadData_deferred. rewrite Hfr. cbn [f_err f_readSize f_content f_manager f_events].
    replace (0 <? Z.of_nat n) with true by (symmetry; apply Z.ltb_lt; lia).
    fold p. rewrite Hrec. reflexivity. }
  assert (Hlen : List.length record = (16 + L + n)%nat).
  { subst record. rewrite !length_app, !length_be_uint64, length_bytes_of_string.
    fold L. lia. }
  split.
  { unfold WgDone, WgAdd, write. rewrite !lookup_alter_eq, Hw. reflexivity. }
  split; [exact Hlen|].
  assert (S1 : slice record 0 8 = be_uint64 (uint64 (Z.of_nat L))).
  { reflexivity. }
  assert (S2 : slice record 8 (8 + L) = bytes_of_string p).
  { unfold slice. subst record. rewrite drop_app_length' by reflexivity.
    replace (8 + L - 8)%nat with L by lia.
    apply take_app_length'. symmetry. apply length_bytes_of_string. }
  assert (S3 : slice record (8 + L) (16 + L) = be_uint64 (uint64 (Z.of_nat n))).
  { unfold slice. subst record. rewrite app_assoc.
    rewrite drop_app_length' by (rewrite length_app, length_be_uint64, length_bytes_of_string; fold L; lia).
    replace (16 + L - (8 + L))%nat with 8%nat by lia. reflexivity. }
  assert (S4 : slice record (16 + L) (16 + L + n) = data).
  { unfold slice. subst record. rewrite !app_assoc.
    rewrite drop_app_length' by
      (rewrite !length_app, !length_be_uint64, length_bytes_of_string; fold L; lia).
    replace (16 + L + n - (16 + L))%nat with n by lia. apply firstn_all. }
  repeat split; try assumption.
  - rewrite S1. rewrite <- (app_nil_r (be_uint64 _)), Uint64_be_uint64.
    unfold uint64. apply Z.mod_mod. lia.
  - rewrite S3. rewrite <- (app_nil_r (be_uint64 _)), Uint64_be_uint64.
    unfold uint64. apply Z.mod_mod. lia.
Qed.

End DownloadRecord.

(** C1 as stated fails in its example: for the path ["/mnt/v/d1/f1"] (12
    bytes) and the content ["abc"] the record written is
    [00 00 00 00 00 00 00 0C "/mnt/v/d1/f1" 00 00 00 00 00 00 00 03 "abc"],
    which is 8 + 12 + 8 + 3 = 31 bytes long, not 40. *)
Lemma ReadData_record_f1_not_40_bytes :
  ~ (forall record : list byte,
        Writer <$> snd (fst (ReadData Scenario.ec Scenario.pool Scenario.now
                               Scenario.manager Scenario.writers Scenario.job_f1))
                   !! 0%nat = Some [record] ->
        List.length record = 40%nat).
Proof.
  intros H.
  specialize (H [x00; x00; x00; x00; x00; x00; x00; x0c;
                 x2f; x6d; x6e; x74; x2f; x76; x2f; x64; x31; x2f; x66; x31;
                 x00; x00; x00; x00; x00; x00; x00; x03;
                 x61; x62; x63]
                ltac:(vm_compute; reflexivity)).
  discriminate H.
Qed.

(** The scenario of the specification: path ["/mnt/v/d1/f1"] (12 bytes),
    content ["abc"]; the record is the 31 bytes
    [00 00 00 00 00 00 00 0C "/mnt/v/d1/f1" 00 00 00 00 00 00 00 03 "abc"]. *)
Lemma ReadData_record_layout_f1 :
  exists p' ws' tr',
    ReadData Scenario.ec Scenario.pool Scenario.now Scenario.manager
      Scenario.writers Scenario.job_f1 = (None, p', ws', tr')
    /\ ws' !! 0%nat =
       Some (mkResp 0
               [[x00; x00; x00; x00; x00; x00; x00; x0c;
                 x2f; x6d; x6e; x74; x2f; x76; x2f; x64; x31; x2f; x66; x31;
                 x00; x00; x00; x00; x00; x00; x00; x03;
                 x61; x62; x63]]).
Proof.
  destruct (ReadData_record_layout Scenario.ec Scenario.pool Scenario.now
              Scenario.manager
              (snd (fst (jobInode Scenario.ec Scenario.now Scenario.manager Scenario.job_f1)))
              Scenario.writers Scenario.job_f1 (mkResp 1 []) 101 3
              (GoBytes.bytes_of_string "abc")
              (snd (jobInode Scenario.ec Scenario.now Scenario.manager Scenario.job_f1)))
    as (record & ws' & tr' & Hrun & Hw & _ & _ & _ & _ & _ & _ & _ & Hrec).
  - intros size. unfold Scenario.pool. cbn [GetBlockBuf]. rewrite repeat_length. lia.
  - reflexivity.
  - vm_compute. reflexivity.
  - reflexivity.
  - reflexivity.
  - lia.
  - reflexivity.
  - simpl. lia.
  - eexists. exists ws', tr'. split; [exact Hrun|].
    rewrite Hrec in Hw. exact Hw.
Defined.

(** ** Wait-group accounting of the download queue (claim C2) *)

Section WaitGroup.

Lemma wgOf_WgAdd (w w' : resp_ptr) (delta : Z)
    (ws : gmap resp_ptr BatchDownloadRespWriter) :
  wgOf w' (WgAdd w delta ws) =
  (fun c => if Nat.eqb w w' then c + delta else c) <$> wgOf w' ws.
Proof.
  unfold wgOf, WgAdd. destruct (Nat.eqb_spec w w') as [->|Hne].
  - rewrite lookup_alter_eq. destruct (ws !! w'); reflexivity.
  - rewrite lookup_alter_ne by exact Hne. destruct (ws !! w'); reflexivity.
Qed.

Lemma wgOf_write (w w' : resp_ptr) (data : list byte)
    (ws : gmap resp_ptr BatchDownloadRespWriter) :
  wgOf w' (write w data ws) = wgOf w' ws.
Proof.
  unfold wgOf, write. destruct (decide (w = w')) as [->|Hne].
  - rewrite lookup_alter_eq. destruct (ws !! w'); reflexivity.
  - rewrite lookup_alter_ne by exact Hne. reflexivity.
Qed.

(** The deferred function ends every call with one [Done], whatever the
    body left. *)
Lemma ReadData_deferred_done (pool : BlockPool) (dInfo : DownloadFileInfo)
    (fr : readFrame) (ws : gmap resp_ptr BatchDownloadRespWriter) (w' : resp_ptr) :
  wgOf w' (fst (ReadData_deferred pool dInfo fr ws)) =
    (fun c => if Nat.eqb (resp dInfo) w' then c - 1 else c) <$> wgOf w' ws
  /\ countEvents (isWgDone (resp dInfo)) (snd (ReadData_deferred pool dInfo fr ws)) = 1%nat.
Proof.
  unfold ReadData_deferred.
  destruct (f_err fr); [|destruct (0 <? f_readSize fr)]; cbn [fst snd];
    unfold WgDone; rewrite wgOf_WgAdd, ?wgOf_write;
    (split; [reflexivity|]);
    try destruct (0 <? List.length (f_content fr))%nat;
    cbn; rewrite Nat.eqb_refl; reflexivity.
Qed.

Lemma countEvents_app (test : event -> bool) (tr1 tr2 : list event) :
  countEvents test (tr1 ++ tr2) = (countEvents test tr1 + countEvents test tr2)%nat.
Proof.
  induction tr1 as [|e tr1 IH]; cbn; [reflexivity|].
  destruct (test e); rewrite IH; reflexivity.
Qed.

(** No event of a path lookup touches a wait group. *)
Lemma lookupDirs_no_done (ec : ExtentClient) (now : Z -> GoTime.Time) (w : resp_ptr)
    (n : nat) (dirs : list string) :
  forall (index : nat) (ino : Z) (lc : gmap Z DentryCache.t) (tr : list event),
    countEvents (isWgDone w) (snd (lookupDirs ec now n index dirs ino lc tr)) =
    countEvents (isWgDone w) tr.
Proof.
  induction dirs as [|dir rest IH]; intros index ino lc tr; cbn [lookupDirs].
  - reflexivity.
  - destruct (String.eqb dir "/" || String.eqb dir "")%bool; [apply IH|].
    destruct (lc !! ino) as [dc|].
    + destruct (DentryCache.Get dir dc) as [child|].
      * rewrite IH, countEvents_app. cbn. lia.
      * destruct (lookup ec ino dir) as [child|err].
        -- destruct (negb (index =? n - 1)%nat); rewrite IH, !countEvents_app; cbn; lia.
        -- cbn [snd]. rewrite !countEvents_app. cbn. lia.
    + destruct (lookup ec ino dir) as [child|err].
      * destruct (negb (index =? n - 1)%nat); rewrite IH, !countEvents_app; cbn; lia.
      * cbn [snd]. rewrite !countEvents_app. cbn. lia.
Qed.

Lemma jobInode_no_done (ec : ExtentClient) (now : Z -> GoTime.Time)
    (pManager : PrefetchManager) (dInfo : DownloadFileInfo) (w : resp_ptr) :
  countEvents (isWgDone w) (snd (jobInode ec now pManager dInfo)) = O.
Proof.
  assert (H : forall absPath,
             countEvents (isWgDone w) (snd (LookupPathByCache ec now pManager absPath)) = O).
  { intros absPath. unfold LookupPathByCache.
    destruct (negb _); [reflexivity|].
    destruct (_ || _)%bool; [reflexivity|].
    match goal with
    | |- context [lookupDirs ?a ?b ?c ?d ?e ?f ?g ?h] =>
        pose proof (lookupDirs_no_done a b w c e d f g h) as Hl;
        destruct (lookupDirs a b c d e f g h) as [[res lc] tr]
    end.
    exact Hl. }
  unfold jobInode. destruct (fileInfo dInfo) as [fi|]; [|apply H].
  destruct (FileInfo.inoID fi =? 0); [apply H | reflexivity].
Qed.

Lemma ReadData_body_no_done (ec : ExtentClient) (pool : BlockPool)
    (now : Z -> GoTime.Time) (pManager : PrefetchManager) (dInfo : DownloadFileInfo)
    (w : resp_ptr) :
  countEvents (isWgDone w) (f_events (ReadData_body ec pool now pManager dInfo)) = O.
Proof.
  unfold ReadData_body.
  pose proof (jobInode_no_done ec now pManager dInfo w) as H.
  destruct (jobInode ec now pManager dInfo) as [[res p] tr]. cbn [snd] in H.
  destruct res as [inodeID|err]; [|exact H].
  destruct (OpenStream ec inodeID).
  { cbn [f_events]. rewrite countEvents_app, H. reflexivity. }
  destruct (FileSize ec inodeID) as [fileSize valid].
  destruct (negb valid || (fileSize =? 0))%bool.
  { cbn [f_events]. rewrite countEvents_app, H. reflexivity. }
  destruct (Read ec inodeID fileSize) as [data rerr].
  cbn [f_events]. rewrite countEvents_app, H. reflexivity.
Qed.

Lemma drainDownloads_wg (jobs : list DownloadFileInfo) :
  forall (ws : gmap resp_ptr BatchDownloadRespWriter) (w : resp_ptr),
    wgOf w (drainDownloads jobs ws) = (fun c => c - queuedFor w jobs) <$> wgOf w ws.
Proof.
  induction jobs as [|dInfo rest IH]; intros ws w; cbn [drainDownloads queuedFor].
  - destruct (wgOf w ws); cbn; f_equal; lia.
  - rewrite IH. unfold WgDone. rewrite wgOf_WgAdd.
    destruct (wgOf w ws); cbn; [|reflexivity].
    f_equal. destruct (Nat.eqb (resp dInfo) w); lia.
Qed.

(** C2. For a download job whose writer's wait group counts [c]: an
    accepted enqueue ([putDownloadChan] returns no error, which happens
    exactly when the manager is not closed) adds one and queues the job; a
    rejected enqueue returns the closed error and changes nothing; the
    handler [ReadData] calls [Done] exactly once and leaves the counter at
    [c - 1] whatever it returns, touching no other wait group; the shutdown
    drain empties the queue and takes from the counter one per queued job
    of that writer. *)
Theorem download_waitgroup_conservation (ec : ExtentClient) (pool : BlockPool)
    (now : Z -> GoTime.Time) (pManager : PrefetchManager)
    (ws : gmap resp_ptr BatchDownloadRespWriter) (dInfo : DownloadFileInfo) (c : Z) :
  pool_ok pool ->
  read_ok ec ->
  wgOf (resp dInfo) ws = Some c ->
  (forall err p' ws',
      putDownloadChan pManager ws dInfo = (err, p', ws') ->
      (err = None <-> isClosed pManager = false)
      /\ (err = None ->
          wgOf (resp dInfo) ws' = Some (c + 1)
          /\ downloadChan p' = downloadChan pManager ++ [dInfo])
      /\ (err <> None -> err = Some ErrClosed /\ p' = pManager /\ ws' = ws))
  /\ (forall err p' ws' tr,
        ReadData ec pool now pManager ws dInfo = (err, p', ws', tr) ->
        wgOf (resp dInfo) ws' = Some (c - 1)
        /\ countEvents (isWgDone (resp dInfo)) tr = 1%nat
        /\ (forall w, w <> resp dInfo -> wgOf w ws' = wgOf w ws))
  /\ (forall p' ws',
        clearDownloadChan pManager ws = (p', ws') ->
        downloadChan p' = []
        /\ wgOf (resp dInfo) ws' =
           Some (c - queuedFor (resp dInfo) (downloadChan pManager)))
  /\ queuedFor (resp dInfo) [dInfo] = 1.
Proof.
  intros _ _ Hc. split; [|split; [|split]].
  - intros err p' ws' H. unfold putDownloadChan in H.
    destruct (isClosed pManager); injection H as <- <- <-.
    + repeat split; try congruence.
    + repeat split; try congruence.
      rewrite wgOf_WgAdd, Hc. cbn. rewrite Nat.eqb_refl. reflexivity.
  - intros err p' ws' tr H. unfold ReadData in H.
    pose proof (ReadData_deferred_done pool dInfo
                  (ReadData_body ec pool now pManager dInfo) ws) as Hd.
    pose proof (ReadData_body_no_done ec pool now pManager dInfo (resp dInfo)) as Hb.
    destruct (ReadData_deferred pool dInfo _ ws) as [ws1 tr1].
    injection H as _ _ <- <-. cbn [fst snd] in Hd. split; [|split].
    + destruct (Hd (resp dInfo)) as [-> _]. rewrite Hc. cbn.
      rewrite Nat.eqb_refl. reflexivity.
    + destruct (Hd (resp dInfo)) as [_ Hone].
      rewrite countEvents_app, Hb, Hone. reflexivity.
    + intros w Hne. destruct (Hd w) as [-> _].
      destruct (Nat.eqb_spec (resp dInfo) w) as [E|_]; [congruence|].
      destruct (wgOf w ws); reflexivity.
  - intros p' ws' H. unfold clearDownloadChan in H. injection H as <- <-.
    split; [reflexivity|]. rewrite drainDownloads_wg, Hc. reflexivity.
  - cbn. rewrite Nat.eqb_refl. reflexivity.
Qed.

(** The scenario: the writer counts one job; enqueueing [job_f1] gives two,
    handling it gives zero. *)
Lemma download_waitgroup_conservation_f1 :
  wgOf 0%nat (snd (putDownloadChan Scenario.manager Scenario.writers Scenario.job_f1))
    = Some 2
  /\ wgOf 0%nat
       (snd (fst (ReadData Scenario.ec Scenario.pool Scenario.now Scenario.manager
                    Scenario.writers Scenario.job_f1))) = Some 0.
Proof.
  destruct (download_waitgroup_conservation Scenario.ec Scenario.pool Scenario.now
              Scenario.manager Scenario.writers Scenario.job_f1 1)
    as (Hput & Hread & _).
  - intros size. unfold Scenario.pool. cbn [GetBlockBuf]. rewrite repeat_length. lia.
  - intros ino size. unfold Scenario.ec. cbn [Read].
    destruct (ino =? 101); cbn [fst]; [rewrite length_take|]; simpl; lia.
  - reflexivity.
  - split.
    + destruct (putDownloadChan Scenario.manager Scenario.writers Scenario.job_f1)
        as [[err p'] ws'] eqn:E.
      destruct (Hput err p' ws' eq_refl) as (Hiff & Hok & _).
      apply Hok. apply Hiff. reflexivity.
    + destruct (ReadData Scenario.ec Scenario.pool Scenario.now Scenario.manager
                  Scenario.writers Scenario.job_f1) as [[[err p'] ws'] tr] eqn:E.
      destruct (Hread err p' ws' tr eq_refl) as (Hwg & _). exact Hwg.
Defined.

(** The scenario of the specification for a path outside the mount:
    [DownloadPath "/elsewhere/x"] is queued, the handler fails with NotCFS,
    writes no byte, and the wait group is back where it was. *)
Example download_outside_mount :
  let '(p, ws) :=
    DownloadPath Scenario.manager Scenario.writers "/elsewhere/x" 0%nat in
  downloadChan p = [mkDownload "/elsewhere/x" None 0%nat]
  /\ wgOf 0%nat ws = Some 2
  /\ let '(err, _, ws', tr) :=
       ReadData Scenario.ec Scenario.pool Scenario.now p ws
         (mkDownload "/elsewhere/x" None 0%nat) in
     err = Some ErrNotCfsPath
     /\ ws' !! 0%nat = Some (mkResp 1 [])
     /\ tr = [EvWgDone 0%nat].
Proof. vm_compute. repeat split. Qed.

End WaitGroup.

(** ** Resources of the download handler (claim C3) *)

Section Resources.

(** Every stream the handler opens it closes, on every path. *)
Lemma ReadData_body_streams_paired (ec : ExtentClient) (pool : BlockPool)
    (now : Z -> GoTime.Time) (pManager : PrefetchManager) (dInfo : DownloadFileInfo)
    (res : Z + error) (p : PrefetchManager) (tr : list event) :
  jobInode ec now pManager dInfo = (res, p, tr) ->
  exists tail,
    f_events (ReadData_body ec pool now pManager dInfo) = tr ++ tail
    /\ countEvents isOpenStream tail = countEvents isCloseStream tail.
Proof.
  intros Hino. unfold ReadData_body. rewrite Hino. cbv beta iota.
  destruct res as [inodeID|err];
    [| exists []; split; [cbn [f_events]; symmetry; apply app_nil_r | reflexivity] ].
  destruct (OpenStream ec inodeID) as [err|].
  { eexists. split; reflexivity. }
  destruct (FileSize ec inodeID) as [fileSize valid].
  destruct (negb valid || (fileSize =? 0))%bool.
  { eexists. split; reflexivity. }
  destruct (Read ec inodeID fileSize) as [data rerr].
  eexists. split; reflexivity.
Qed.

(** The response buffer is taken only to be written and is given back at
    once; the deferred function gives the content buffer back only on the
    path that writes. *)
Lemma ReadData_deferred_buffers (pool : BlockPool) (dInfo : DownloadFileInfo)
    (fr : readFrame) (ws : gmap resp_ptr BatchDownloadRespWriter) :
  let tr := snd (ReadData_deferred pool dInfo fr ws) in
  countEvents (isGetBlockBuf RespBuf) tr = countEvents (isPutBlockBuf RespBuf) tr
  /\ countEvents (isGetBlockBuf RespBuf) tr = countEvents isWrite tr
  /\ (countEvents isWrite tr = O -> countEvents (isPutBlockBuf ContentBuf) tr = O).
Proof.
  unfold ReadData_deferred.
  destruct (f_err fr); [|destruct (0 <? f_readSize fr)]; cbn [snd];
    try destruct (0 <? List.length (f_content fr))%nat; cbn; repeat split; try reflexivity;
    intros; try discriminate.
Qed.

(** C3, at the input on which it fails: the read of [f1] returns an error.
    The handler takes the content buffer from the pool, opens and closes
    the stream, decrements the wait group, and never gives the content
    buffer back. *)
Theorem ReadData_read_failure_keeps_content :
  let '(err, _, _, tr) :=
    ReadData Scenario.ec_read_fails Scenario.pool Scenario.now Scenario.manager
      Scenario.writers Scenario.job_f1_resolved in
  err = Some (ErrRead (ErrExternal "input/output error") 3 0)
  /\ tr = [EvOpenStream 101 None; EvGetBlockBuf ContentBuf 3; EvRead 101 3;
          EvCloseStream 101; EvWgDone 0%nat]
  /\ countEvents (isGetBlockBuf ContentBuf) tr = 1%nat
  /\ countEvents (isPutBlockBuf ContentBuf) tr = 0%nat.
Proof. vm_compute. repeat split. Qed.

(** The same when the read yields no byte and no error. *)
Lemma ReadData_empty_read_keeps_content :
  let '(err, _, _, tr) :=
    ReadData Scenario.ec_read_empty Scenario.pool Scenario.now Scenario.manager
      Scenario.writers Scenario.job_f1_resolved in
  err = None
  /\ countEvents (isGetBlockBuf ContentBuf) tr = 1%nat
  /\ countEvents (isPutBlockBuf ContentBuf) tr = 0%nat.
Proof. vm_compute. repeat split. Qed.

(** On the path that writes, both buffers are given back. *)
Lemma ReadData_success_releases_buffers :
  let '(err, _, _, tr) :=
    ReadData Scenario.ec Scenario.pool Scenario.now Scenario.manager
      Scenario.writers Scenario.job_f1_resolved in
  err = None
  /\ countEvents (isGetBlockBuf ContentBuf) tr = countEvents (isPutBlockBuf ContentBuf) tr
  /\ countEvents (isGetBlockBuf RespBuf) tr = countEvents (isPutBlockBuf RespBuf) tr
  /\ countEvents isOpenStream tr = countEvents isCloseStream tr.
Proof. vm_compute. repeat split. Qed.

End Resources.

(** ** Rejected paths (claim C4) *)

Section RejectedPaths.


(** C4 as stated fails: with the mount point ["/mnt/v"], the remainder of
    ["/mnt/v//"] is ["//"], whose component list is empty, and the lookup
    returns the root inode with no error. *)
Lemma LookupPathByCache_slashes_accepted :
  ~ (forall (ec : ExtentClient) (now : Z -> GoTime.Time) (pManager : PrefetchManager)
            (absPath : string),
        GoStrings.HasPrefix absPath (mountPoint pManager) = true ->
        pathComponents (stripMount pManager absPath) = [] ->
        exists e, fst (fst (LookupPathByCache ec now pManager absPath)) = inr e
                  /\ is_NotCFS e = true).
Proof.
  intros H.
  destruct (H Scenario.ec Scenario.now Scenario.manager "/mnt/v//"%string
              eq_refl eq_refl) as (e & He & _).
  vm_compute in He. discriminate He.
Qed.

(** C4, amended: the lookup fails with a NotCFS error, returns no inode,
    calls nothing and changes nothing, when the path does not begin with the
    mount point, and when the remainder after the mount prefix is empty or
    is ["/"]. *)
Theorem LookupPathByCache_rejects (ec : ExtentClient) (now : Z -> GoTime.Time)
    (pManager : PrefetchManager) (absPath : string) :
  GoStrings.HasPrefix absPath (mountPoint pManager) = false
  \/ stripMount pManager absPath = ""%string
  \/ stripMount pManager absPath = "/"%string ->
  exists e,
    LookupPathByCache ec now pManager absPath = (inr e, pManager, [])
    /\ is_NotCFS e = true
    /\ (GoStrings.HasPrefix absPath (mountPoint pManager) = false -> e = ErrNotCfsPath)
    /\ (GoStrings.HasPrefix absPath (mountPoint pManager) = true -> e = ErrNotCfsFile).
Proof.
  intros H. unfold LookupPathByCache. fold (stripMount pManager absPath).
  destruct (GoStrings.HasPrefix absPath (mountPoint pManager)) eqn:Hp; cbn [negb].
  - destruct H as [H|[H|H]]; [discriminate| |]; rewrite H; cbn;
      exists ErrNotCfsFile; repeat split; congruence.
  - exists ErrNotCfsPath. repeat split; congruence.
Qed.

(** The three rejected shapes, under the mount point ["/mnt/v"]. *)
Lemma LookupPathByCache_rejects_examples :
  (exists e, LookupPathByCache Scenario.ec Scenario.now Scenario.manager "/elsewhere/x"
             = (inr e, Scenario.manager, []) /\ is_NotCFS e = true)
  /\ (exists e, LookupPathByCache Scenario.ec Scenario.now Scenario.manager "/mnt/v"
                = (inr e, Scenario.manager, []) /\ is_NotCFS e = true)
  /\ (exists e, LookupPathByCache Scenario.ec Scenario.now Scenario.manager "/mnt/v/"
                = (inr e, Scenario.manager, []) /\ is_NotCFS e = true).
Proof.
  split; [|split].
  - destruct (LookupPathByCache_rejects Scenario.ec Scenario.now Scenario.manager
                "/elsewhere/x") as (e & H1 & H2 & _).
    + left. reflexivity.
    + exists e. split; assumption.
  - destruct (LookupPathByCache_rejects Scenario.ec Scenario.now Scenario.manager
                "/mnt/v") as (e & H1 & H2 & _).
    + right. left. reflexivity.
    + exists e. split; assumption.
  - destruct (LookupPathByCache_rejects Scenario.ec Scenario.now Scenario.manager
                "/mnt/v/") as (e & H1 & H2 & _).
    + right. right. reflexivity.
    + exists e. split; assumption.
Defined.

End RejectedPaths.

(** ** Caching in the absolute-path lookup (claim C5) *)

Section LookupCaching.

Lemma lookupTrace_app (ec : ExtentClient) (n : nat) (tr1 tr2 : list event) :
  lookupTrace ec n tr1 -> lookupTrace ec n tr2 -> lookupTrace ec n (tr1 ++ tr2).
Proof.
  induction 1 as [|step rest Hstep Hrest IH]; intros H2; [exact H2|].
  rewrite <- app_assoc. apply TraceStep; [exact Hstep | apply IH, H2].
Qed.

Lemma lookupTrace_step (ec : ExtentClient) (n : nat) (step : list event) :
  lookupStep ec n step -> lookupTrace ec n step.
Proof.
  intros H. rewrite <- (app_nil_r step). apply TraceStep; [exact H | apply TraceNil].
Qed.

Lemma replayCache_app (now : Z -> GoTime.Time) (tr1 tr2 : list event) :
  forall lc, replayCache now (tr1 ++ tr2) lc = replayCache now tr2 (replayCache now tr1 lc).
Proof. induction tr1 as [|e tr1 IH]; intros lc; cbn; [reflexivity | apply IH]. Qed.

Lemma alter_loaded (f : DentryCache.t -> DentryCache.t) (ino : Z) (dc : DentryCache.t)
    (lc : gmap Z DentryCache.t) :
  lc !! ino = Some dc -> alter f ino lc = <[ino := f dc]> lc.
Proof.
  intros H. apply map_eq. intros j. destruct (decide (ino = j)) as [->|Hne].
  - rewrite lookup_alter_eq, lookup_insert_eq, H. reflexivity.
  - rewrite lookup_alter_ne, lookup_insert_ne by exact Hne. reflexivity.
Qed.

(** The loop appends to the events it is given a well-shaped tail, and the
    cache it returns is the one it was given with the tail replayed. *)
Lemma lookupDirs_trace (ec : ExtentClient) (now : Z -> GoTime.Time) (n : nat)
    (dirs : list string) :
  forall (index : nat) (ino : Z) (lc : gmap Z DentryCache.t) (tr : list event),
  exists tail,
    snd (lookupDirs ec now n index dirs ino lc tr) = tr ++ tail
    /\ lookupTrace ec n tail
    /\ snd (fst (lookupDirs ec now n index dirs ino lc tr)) = replayCache now tail lc.
Proof.
  induction dirs as [|dir rest IH]; intros index ino lc tr; cbn [lookupDirs].
  { exists []. rewrite app_nil_r. repeat split. apply TraceNil. }
  destruct (String.eqb dir "/" || String.eqb dir "")%bool; [apply IH|].
  destruct (lc !! ino) as [dc|] eqn:Hlc.
  - destruct (DentryCache.Get dir dc) as [child|] eqn:Hget.
    + destruct (IH (S index) child lc (tr ++ [EvDcacheGet index ino dir (Some child)]))
        as (tail & Htr & Hshape & Hlcs).
      exists ([EvDcacheGet index ino dir (Some child)] ++ tail).
      rewrite Htr, Hlcs, <- app_assoc. repeat split.
      apply TraceStep; [apply StepHit | exact Hshape].
    + destruct (lookup ec ino dir) as [child|err] eqn:Hlk.
      * destruct (Nat.eqb_spec index (n - 1)) as [Hlast|Hnot]; cbn [negb].
        -- destruct (IH (S index) child lc
                       ((tr ++ [EvDcacheGet index ino dir None]) ++ [EvLookup index ino dir]))
             as (tail & Htr & Hshape & Hlcs).
           exists ([EvDcacheGet index ino dir None; EvLookup index ino dir] ++ tail).
           rewrite Htr, Hlcs, <- !app_assoc. repeat split.
           apply TraceStep; [|exact Hshape].
           apply StepMissLast with child; [left; reflexivity | exact Hlk | exact Hlast].
        -- destruct (IH (S index) child (<[ino := DentryCache.Put dir child dc]> lc)
                       ((tr ++ [EvDcacheGet index ino dir None])
                        ++ [EvLookup index ino dir; EvDcachePut index ino dir child]))
             as (tail & Htr & Hshape & Hlcs).
           exists ([EvDcacheGet index ino dir None; EvLookup index ino dir;
                    EvDcachePut index ino dir child] ++ tail).
           rewrite Htr, Hlcs, <- !app_assoc. repeat split.
           ++ apply TraceStep; [|exact Hshape].
              apply StepMissCached; [left; reflexivity | exact Hlk | exact Hnot].
           ++ cbn [app replayCache]. rewrite (alter_loaded _ _ dc) by exact Hlc. reflexivity.
      * exists [EvDcacheGet index ino dir None; EvLookup index ino dir].
        cbn [fst snd]. rewrite <- app_assoc. repeat split.
        apply lookupTrace_step.
        apply StepMissFailed with err; [left; reflexivity | exact Hlk].
  - set (dc := DentryCache.NewDentryCache (now ino) DefaultIndexDentryExpiration).
    destruct (lookup ec ino dir) as [child|err] eqn:Hlk.
    + destruct (Nat.eqb_spec index (n - 1)) as [Hlast|Hnot]; cbn [negb].
      * destruct (IH (S index) child (<[ino := dc]> lc)
                    ((tr ++ [EvDcacheNew index ino]) ++ [EvLookup index ino dir]))
          as (tail & Htr & Hshape & Hlcs).
        exists ([EvDcacheNew index ino; EvLookup index ino dir] ++ tail).
        rewrite Htr, Hlcs, <- !app_assoc. repeat split.
        apply TraceStep; [|exact Hshape].
        apply StepMissLast with child; [right; reflexivity | exact Hlk | exact Hlast].
      * destruct (IH (S index) child
                    (<[ino := DentryCache.Put dir child dc]> (<[ino := dc]> lc))
                    ((tr ++ [EvDcacheNew index ino])
                     ++ [EvLookup index ino dir; EvDcachePut index ino dir child]))
          as (tail & Htr & Hshape & Hlcs).
        exists ([EvDcacheNew index ino; EvLookup index ino dir;
                 EvDcachePut index ino dir child] ++ tail).
        rewrite Htr, Hlcs, <- !app_assoc. repeat split.
        -- apply TraceStep; [|exact Hshape].
           apply StepMissCached; [right; reflexivity | exact Hlk | exact Hnot].
        -- cbn [app replayCache]. fold dc. rewrite alter_insert_eq, insert_insert_eq.
           reflexivity.
    + exists [EvDcacheNew index ino; EvLookup index ino dir].
      cbn [fst snd]. rewrite <- app_assoc. repeat split.
      apply lookupTrace_step.
      apply StepMissFailed with err; [right; reflexivity | exact Hlk].
Qed.

(** In a well-shaped trace nothing is put at the last position. *)
Lemma lookupTrace_no_put_last (ec : ExtentClient) (n : nat) (tr : list event) :
  lookupTrace ec n tr ->
  forall index ino name child,
    In (EvDcachePut index ino name child) tr -> index <> (n - 1)%nat.
Proof.
  induction 1 as [|step rest Hstep Hrest IH]; intros index ino name child Hin.
  { destruct Hin. }
  apply in_app_or in Hin. destruct Hin as [Hin|Hin]; [|eapply IH; exact Hin].
  destruct Hstep as [i a b c | i a b c m [->| ->] Hl Hi | i a b c m [->| ->] Hl Hi
                    | i a b e m [->| ->] Hl];
    cbn in Hin;
    repeat (destruct Hin as [Hin|Hin]; try discriminate Hin);
    try contradiction;
    injection Hin as <- <- <- <-; exact Hi.
Qed.

(** The loop runs as the amended claim words it: the events it appends,
    its result and the cache it leaves are those of [lookupRun]. *)
Lemma lookupDirs_run (ec : ExtentClient) (now : Z -> GoTime.Time) (n : nat)
    (dirs : list string) :
  forall (index : nat) (ino : Z) (lc : gmap Z DentryCache.t) (tr : list event),
  exists tail,
    snd (lookupDirs ec now n index dirs ino lc tr) = tr ++ tail
    /\ lookupRun ec now n index dirs ino lc tail
         (fst (fst (lookupDirs ec now n index dirs ino lc tr)))
         (snd (fst (lookupDirs ec now n index dirs ino lc tr))).
Proof.
  induction dirs as [|dir rest IH]; intros index ino lc tr; cbn [lookupDirs].
  { exists []. rewrite app_nil_r. split; [reflexivity | apply RunDone]. }
  destruct (String.eqb_spec dir "/") as [Hslash|Hslash]; cbn [orb].
  { destruct (IH (S index) ino lc tr) as (tail & Htr & Hrun).
    exists tail. split; [exact Htr|]. apply RunEmpty; [left; exact Hslash | exact Hrun]. }
  destruct (String.eqb_spec dir "") as [Hempty|Hempty].
  { destruct (IH (S index) ino lc tr) as (tail & Htr & Hrun).
    exists tail. split; [exact Htr|]. apply RunEmpty; [right; exact Hempty | exact Hrun]. }
  destruct (lc !! ino) as [dc|] eqn:Hlc.
  - destruct (DentryCache.Get dir dc) as [child|] eqn:Hget.
    + destruct (IH (S index) child lc (tr ++ [EvDcacheGet index ino dir (Some child)]))
        as (tail & Htr & Hrun).
      exists (EvDcacheGet index ino dir (Some child) :: tail).
      split; [rewrite Htr, <- app_assoc; reflexivity|].
      apply (RunHit ec now n index dir rest ino lc dc child); assumption.
    + assert (Hmiss : cacheMiss now index ino dir lc (EvDcacheGet index ino dir None) dc lc).
      { left. repeat split; assumption. }
      destruct (lookup ec ino dir) as [child|err] eqn:Hlk.
      * destruct (Nat.eqb_spec index (n - 1)) as [Hlast|Hnot]; cbn [negb].
        -- destruct (IH (S index) child lc
                       ((tr ++ [EvDcacheGet index ino dir None]) ++ [EvLookup index ino dir]))
             as (tail & Htr & Hrun).
           exists (EvDcacheGet index ino dir None :: EvLookup index ino dir :: tail).
           split; [rewrite Htr, <- !app_assoc; reflexivity|].
           apply (RunMissLast ec now n index dir rest ino lc _ dc lc child); assumption.
        -- destruct (IH (S index) child (<[ino := DentryCache.Put dir child dc]> lc)
                       ((tr ++ [EvDcacheGet index ino dir None])
                        ++ [EvLookup index ino dir; EvDcachePut index ino dir child]))
             as (tail & Htr & Hrun).
           exists (EvDcacheGet index ino dir None :: EvLookup index ino dir
                   :: EvDcachePut index ino dir child :: tail).
           split; [rewrite Htr, <- !app_assoc; reflexivity|].
           apply (RunMissCached ec now n index dir rest ino lc _ dc lc child); assumption.
      * exists [EvDcacheGet index ino dir None; EvLookup index ino dir].
        cbn [fst snd]. split; [rewrite <- app_assoc; reflexivity|].
        apply (RunMissFailed ec now n index dir rest ino lc _ dc lc err); assumption.
  - set (dc := DentryCache.NewDentryCache (now ino) DefaultIndexDentryExpiration).
    assert (Hmiss : cacheMiss now index ino dir lc (EvDcacheNew index ino) dc
                      (<[ino := dc]> lc)).
    { right. repeat split. exact Hlc. }
    destruct (lookup ec ino dir) as [child|err] eqn:Hlk.
    + destruct (Nat.eqb_spec index (n - 1)) as [Hlast|Hnot]; cbn [negb].
      * destruct (IH (S index) child (<[ino := dc]> lc)
                    ((tr ++ [EvDcacheNew index ino]) ++ [EvLookup index ino dir]))
          as (tail & Htr & Hrun).
        exists (EvDcacheNew index ino :: EvLookup index ino dir :: tail).
        split; [rewrite Htr, <- !app_assoc; reflexivity|].
        apply (RunMissLast ec now n index dir rest ino lc _ dc (<[ino := dc]> lc) child);
          assumption.
      * destruct (IH (S index) child
                    (<[ino := DentryCache.Put dir child dc]> (<[ino := dc]> lc))
                    ((tr ++ [EvDcacheNew index ino])
                     ++ [EvLookup index ino dir; EvDcachePut index ino dir child]))
          as (tail & Htr & Hrun).
        exists (EvDcacheNew index ino :: EvLookup index ino dir
                :: EvDcachePut index ino dir child :: tail).
        split; [rewrite Htr, <- !app_assoc; reflexivity|].
        apply (RunMissCached ec now n index dir rest ino lc _ dc (<[ino := dc]> lc) child);
          assumption.
    + exists [EvDcacheNew index ino; EvLookup index ino dir].
      cbn [fst snd]. split; [rewrite <- app_assoc; reflexivity|].
      apply (RunMissFailed ec now n index dir rest ino lc _ dc (<[ino := dc]> lc) err);
        assumption.
Qed.

(** In a run the file system is asked only after a miss in the cache of the
    same inode, at the same position. *)
Lemma lookupRun_lookup_after_miss (ec : ExtentClient) (now : Z -> GoTime.Time) (n : nat)
    (index : nat) (dirs : list string) (ino : Z) (lc : gmap Z DentryCache.t)
    (tr : list event) (res : Z + error) (lc' : gmap Z DentryCache.t) :
  lookupRun ec now n index dirs ino lc tr res lc' ->
  forall i parent name,
    In (EvLookup i parent name) tr ->
    In (EvDcacheGet i parent name None) tr \/ In (EvDcacheNew i parent) tr.
Proof.
  assert (Hm : forall now index ino dir lc miss dc lc1,
             cacheMiss now index ino dir lc miss dc lc1 ->
             miss = EvDcacheGet index ino dir None \/ miss = EvDcacheNew index ino).
  { intros ? ? ? ? ? ? ? ? [(_ & _ & -> & _)|(_ & _ & -> & _)]; [left|right]; reflexivity. }
  induction 1 as [ | ? ? ? ? ? ? ? ? _ _ IH
                   | ? ? ? ? ? ? ? ? ? ? _ _ _ _ _ IH
                   | ? ? ? ? ? miss ? ? ? ? ? ? _ _ Hmiss _ _ _ IH
                   | ? ? ? ? ? miss ? ? ? ? ? ? _ _ Hmiss _ _ _ IH
                   | ? ? ? ? ? miss ? ? ? _ _ Hmiss _ ];
    intros i parent name Hin.
  - destruct Hin.
  - exact (IH i parent name Hin).
  - destruct Hin as [Hin|Hin]; [discriminate Hin|].
    destruct (IH i parent name Hin) as [H|H]; [left|right]; right; exact H.
  - destruct (Hm _ _ _ _ _ _ _ _ Hmiss) as [->| ->];
      (destruct Hin as [Hin|[Hin|[Hin|Hin]]];
       [discriminate Hin
       | injection Hin as <- <- <-; first [left; left; reflexivity | right; left; reflexivity]
       | discriminate Hin
       | destruct (IH i parent name Hin) as [H|H];
         [left|right]; right; right; right; exact H]).
  - destruct (Hm _ _ _ _ _ _ _ _ Hmiss) as [->| ->];
      (destruct Hin as [Hin|[Hin|Hin]];
       [discriminate Hin
       | injection Hin as <- <- <-; first [left; left; reflexivity | right; left; reflexivity]
       | destruct (IH i parent name Hin) as [H|H];
         [left|right]; right; right; exact H]).
  - destruct (Hm _ _ _ _ _ _ _ _ Hmiss) as [->| ->];
      (destruct Hin as [Hin|[Hin|[]]];
       [discriminate Hin
       | injection Hin as <- <- <-; first [left; left; reflexivity | right; left; reflexivity]]).
Qed.

(** In a run that succeeds every element that is not empty is served: by a
    hit in the cache of some inode, or by the file system. *)
Lemma lookupRun_serves_elements (ec : ExtentClient) (now : Z -> GoTime.Time) (n : nat)
    (index : nat) (dirs : list string) (ino : Z) (lc : gmap Z DentryCache.t)
    (tr : list event) (res : Z + error) (lc' : gmap Z DentryCache.t) :
  lookupRun ec now n index dirs ino lc tr res lc' ->
  forall inodeID, res = inl inodeID ->
  forall k dir,
    dirs !! k = Some dir -> dir <> "/"%string -> dir <> ""%string ->
    exists parent,
      (exists child, In (EvDcacheGet (index + k) parent dir (Some child)) tr)
      \/ In (EvLookup (index + k) parent dir) tr.
Proof.
  induction 1 as [ | index d rest ino lc tr res lc' Hskip _ IH
                   | index d rest ino lc dc child tr res lc' _ _ _ _ _ IH
                   | index d rest ino lc miss dc lc1 child tr res lc' _ _ _ _ _ _ IH
                   | index d rest ino lc miss dc lc1 child tr res lc' _ _ _ _ _ _ IH
                   | index d rest ino lc miss dc lc1 err _ _ _ _ ];
    intros inodeID Hres k dir Hk Hslash Hempty.
  - destruct k; discriminate Hk.
  - destruct k as [|k]; cbn in Hk.
    + injection Hk as ->. destruct Hskip; contradiction.
    + replace (index + S k)%nat with (S index + k)%nat by lia.
      exact (IH inodeID Hres k dir Hk Hslash Hempty).
  - destruct k as [|k]; cbn in Hk.
    + injection Hk as ->. exists ino. left. exists child.
      rewrite Nat.add_0_r. left. reflexivity.
    + replace (index + S k)%nat with (S index + k)%nat by lia.
      destruct (IH inodeID Hres k dir Hk Hslash Hempty) as (parent & [[c H]|H]);
        exists parent; [left; exists c|right]; right; exact H.
  - destruct k as [|k]; cbn in Hk.
    + injection Hk as ->. exists ino. right.
      rewrite Nat.add_0_r. right. left. reflexivity.
    + replace (index + S k)%nat with (S index + k)%nat by lia.
      destruct (IH inodeID Hres k dir Hk Hslash Hempty) as (parent & [[c H]|H]);
        exists parent; [left; exists c|right]; right; right; right; exact H.
  - destruct k as [|k]; cbn in Hk.
    + injection Hk as ->. exists ino. right.
      rewrite Nat.add_0_r. right. left. reflexivity.
    + replace (index + S k)%nat with (S index + k)%nat by lia.
      destruct (IH inodeID Hres k dir Hk Hslash Hempty) as (parent & [[c H]|H]);
        exists parent; [left; exists c|right]; right; right; exact H.
  - discriminate Hres.
Qed.

(** C5 as stated fails on both counts. With the cache of the root inode
    holding [d1] (left there by a lookup of ["/mnt/v/d1/f1"]), the lookup of
    ["/mnt/v/d1"] is accepted and takes its last component from the cache,
    with no call of the file system. From an empty cache, the lookup of
    ["/mnt/v/d1/f1/"] is accepted and puts its last component [f1] into the
    cache of inode 100, since [f1] is not the last element of the split. *)
Lemma LookupPathByCache_last_component_counterexample :
  ~ (forall (ec : ExtentClient) (now : Z -> GoTime.Time) (pManager p' : PrefetchManager)
            (absPath name : string) (ino : Z) (tr : list event),
        LookupPathByCache ec now pManager absPath = (inl ino, p', tr) ->
        last (pathComponents (stripMount pManager absPath)) = Some name ->
        exists index parent, In (EvLookup index parent name) tr)
  /\ ~ (forall (ec : ExtentClient) (now : Z -> GoTime.Time) (pManager p' : PrefetchManager)
               (absPath name : string) (ino : Z) (tr : list event),
           LookupPathByCache ec now pManager absPath = (inl ino, p', tr) ->
           last (pathComponents (stripMount pManager absPath)) = Some name ->
           forall index parent child, ~ In (EvDcachePut index parent name child) tr).
Proof.
  split; intros H.
  - destruct (H Scenario.ec Scenario.now Scenario.manager_warm
                (snd (fst (LookupPathByCache Scenario.ec Scenario.now
                             Scenario.manager_warm "/mnt/v/d1")))
                "/mnt/v/d1"%string "d1"%string 100
                [EvDcacheGet 1 1 "d1" (Some 100)])
      as (index & parent & Hin).
    + vm_compute. reflexivity.
    + reflexivity.
    + cbn in Hin. destruct Hin as [Hin|[]]. discriminate Hin.
  - apply (H Scenario.ec Scenario.now Scenario.manager
             (snd (fst (LookupPathByCache Scenario.ec Scenario.now
                          Scenario.manager "/mnt/v/d1/f1/")))
             "/mnt/v/d1/f1/"%string "f1"%string 101
             (snd (LookupPathByCache Scenario.ec Scenario.now
                     Scenario.manager "/mnt/v/d1/f1/"))
             ltac:(vm_compute; reflexivity) eq_refl 2%nat 100 101).
    vm_compute. right. right. right. right. right. left. reflexivity.
Qed.

(** C5, amended. For a path under the mount whose remainder is neither
    empty nor ["/"], the lookup runs over the elements of the split of the
    remainder, from the root inode and the cache as it stands, as
    [lookupRun] says: each non-empty element, the last included, is first
    looked up in the cache of the current inode; a hit moves on to the inode
    found and asks the file system nothing; on a miss [lookup] is called on
    the current inode, and the pair it returns is put into that cache
    exactly when the element does not stand at the last position of the
    split. So the file system is asked only after a miss, every non-empty
    element of a lookup that succeeds is served by a hit or by [lookup], and
    nothing is put at the last position. For every path the events have this
    shape, and the cache the call leaves is the one it found with these
    events applied. *)
Theorem LookupPathByCache_caching (ec : ExtentClient) (now : Z -> GoTime.Time)
    (pManager : PrefetchManager) (absPath : string) :
  let dirs := GoStrings.Split (stripMount pManager absPath) "/" in
  let n := List.length dirs in
  let r := LookupPathByCache ec now pManager absPath in
  lookupTrace ec n (snd r)
  /\ lookupDcache (snd (fst r)) = replayCache now (snd r) (lookupDcache pManager)
  /\ (forall index ino name child,
        In (EvDcachePut index ino name child) (snd r) -> index <> (n - 1)%nat)
  /\ (GoStrings.HasPrefix absPath (mountPoint pManager) = true ->
      stripMount pManager absPath <> ""%string ->
      stripMount pManager absPath <> "/"%string ->
      lookupRun ec now n 0 dirs (RootIno ec) (lookupDcache pManager)
        (snd r) (fst (fst r)) (lookupDcache (snd (fst r))))
  /\ (forall index ino name,
        In (EvLookup index ino name) (snd r) ->
        In (EvDcacheGet index ino name None) (snd r) \/ In (EvDcacheNew index ino) (snd r))
  /\ (forall inodeID,
        fst (fst r) = inl inodeID ->
        forall index dir,
          dirs !! index = Some dir -> dir <> "/"%string -> dir <> ""%string ->
          exists parent,
            (exists child, In (EvDcacheGet index parent dir (Some child)) (snd r))
            \/ In (EvLookup index parent dir) (snd r)).
Proof.
  intros dirs n r.
  assert (Hrun : (GoStrings.HasPrefix absPath (mountPoint pManager) = false /\ snd r = []
                  /\ exists err, fst (fst r) = inr err)
                 \/ ((stripMount pManager absPath = ""%string
                      \/ stripMount pManager absPath = "/"%string) /\ snd r = []
                     /\ exists err, fst (fst r) = inr err)
                 \/ lookupRun ec now n 0 dirs (RootIno ec) (lookupDcache pManager)
                      (snd r) (fst (fst r)) (lookupDcache (snd (fst r)))).
  { subst r n dirs. unfold LookupPathByCache. fold (stripMount pManager absPath).
    destruct (GoStrings.HasPrefix absPath (mountPoint pManager)); cbn [negb].
    2:{ left. repeat split. eexists. reflexivity. }
    destruct (String.eqb_spec (stripMount pManager absPath) "") as [E|_]; cbn [orb].
    { right. left. split; [left; exact E|]. split; [reflexivity|]. eexists. reflexivity. }
    destruct (String.eqb_spec (stripMount pManager absPath) "/") as [E|_].
    { right. left. split; [right; exact E|]. split; [reflexivity|]. eexists. reflexivity. }
    right. right.
    destruct (lookupDirs_run ec now
                (List.length (GoStrings.Split (stripMount pManager absPath) "/"))
                (GoStrings.Split (stripMount pManager absPath) "/")
                0%nat (RootIno ec) (lookupDcache pManager) []) as (tail & Htr & Hrun).
    destruct (lookupDirs _ _ _ _ _ _ _ _) as [[res lc] tr].
    cbn [fst snd app] in *. subst tr. destruct pManager; exact Hrun. }
  assert (H : lookupTrace ec n (snd r)
              /\ lookupDcache (snd (fst r)) = replayCache now (snd r) (lookupDcache pManager)).
  { subst r n. unfold LookupPathByCache. fold (stripMount pManager absPath).
    destruct (negb _); [split; [apply TraceNil|reflexivity]|].
    destruct (_ || _)%bool; [split; [apply TraceNil|reflexivity]|].
    destruct (lookupDirs_trace ec now
                (List.length (GoStrings.Split (stripMount pManager absPath) "/"))
                (GoStrings.Split (stripMount pManager absPath) "/")
                0%nat (RootIno ec) (lookupDcache pManager) [])
      as (tail & Htr & Hshape & Hlc).
    destruct (lookupDirs _ _ _ _ _ _ _ _) as [[res lc] tr].
    cbn [fst snd] in *. subst tr lc. split; [exact Hshape | reflexivity]. }
  destruct H as [Hshape Hlc]. split; [exact Hshape|]. split; [exact Hlc|].
  split; [apply (lookupTrace_no_put_last ec n _ Hshape)|].
  split; [|split].
  - intros Hprefix Hne1 Hne2.
    destruct Hrun as [(Hp & _)|[([E|E] & _)|Hrun]];
      [congruence | contradiction | contradiction | exact Hrun].
  - intros index ino name Hin.
    destruct Hrun as [(_ & Hnil & _)|[(_ & Hnil & _)|Hrun]];
      [rewrite Hnil in Hin; destruct Hin | rewrite Hnil in Hin; destruct Hin |].
    exact (lookupRun_lookup_after_miss _ _ _ _ _ _ _ _ _ _ Hrun index ino name Hin).
  - intros inodeID Hres index dir Hdir Hslash Hempty.
    destruct Hrun as [(_ & _ & err & Herr)|[(_ & _ & err & Herr)|Hrun]];
      [congruence | congruence |].
    exact (lookupRun_serves_elements _ _ _ _ _ _ _ _ _ _ Hrun inodeID Hres
             index dir Hdir Hslash Hempty).
Qed.

(** The lookup of ["/mnt/v/d1/f1"] from an empty cache: its events have
    the shape above for a split of three elements, and the cache it leaves
    is the empty one with these events applied. The run passes over the
    empty first element, misses [d1] under the root, asks the file system
    and caches the answer, then misses [f1] under inode 100, asks the file
    system and caches nothing. *)
Lemma LookupPathByCache_caching_f1 :
  lookupTrace Scenario.ec 3
    (snd (LookupPathByCache Scenario.ec Scenario.now Scenario.manager "/mnt/v/d1/f1"))
  /\ lookupDcache
       (snd (fst (LookupPathByCache Scenario.ec Scenario.now Scenario.manager
                    "/mnt/v/d1/f1")))
     = replayCache Scenario.now
         (snd (LookupPathByCache Scenario.ec Scenario.now Scenario.manager "/mnt/v/d1/f1"))
         ∅
  /\ lookupRun Scenario.ec Scenario.now 3 0 [""; "d1"; "f1"]%string 1 ∅
       [EvDcacheNew 1 1; EvLookup 1 1 "d1"; EvDcachePut 1 1 "d1" 100;
        EvDcacheNew 2 100; EvLookup 2 100 "f1"]
       (inl 101)
       (lookupDcache
          (snd (fst (LookupPathByCache Scenario.ec Scenario.now Scenario.manager
                       "/mnt/v/d1/f1")))).
Proof.
  split; [|split].
  - exact (proj1 (LookupPathByCache_caching Scenario.ec Scenario.now
                    Scenario.manager "/mnt/v/d1/f1")).
  - exact (proj1 (proj2 (LookupPathByCache_caching Scenario.ec Scenario.now
                           Scenario.manager "/mnt/v/d1/f1"))).
  - exact (proj1 (proj2 (proj2 (proj2
             (LookupPathByCache_caching Scenario.ec Scenario.now
                Scenario.manager "/mnt/v/d1/f1"))))
             eq_refl ltac:(discriminate) ltac:(discriminate)).
Defined.

End LookupCaching.

(** ** Refreshing the TTL of a registered index (claim C6) *)

Section TtlRefresh.

Lemma wrap64_small (z : Z) : - 2 ^ 63 <= z < 2 ^ 63 -> GoTime.wrap64 z = z.
Proof.
  intros H. unfold GoTime.wrap64.
  rewrite Z.mod_small; [lia|].
  change (2 ^ 64) with (2 * 2 ^ 63). lia.
Qed.

(** Up to 153722867 minutes the product with [time.Minute] fits [int64]. *)
Lemma minutes_small (m : Z) :
  0 <= m <= 153722867 -> GoTime.minutes m = m * 60000000000.
Proof.
  intros H. unfold GoTime.minutes, GoTime.Minute. apply wrap64_small.
  change (2 ^ 63) with 9223372036854775808. lia.
Qed.

Lemma Unix_Add_minutes (t m : Z) :
  0 <= m <= 153722867 ->
  GoTime.Unix (GoTime.Add t (GoTime.minutes m)) = GoTime.Unix t + 60 * m.
Proof.
  intros H. rewrite minutes_small by exact H. unfold GoTime.Unix, GoTime.Add.
  replace (t + m * 60000000000) with (t + (60 * m) * 1000000000) by lia.
  apply Z.div_add. lia.
Qed.

Lemma with_indexFileInfoMap_same (p : PrefetchManager) :
  with_indexFileInfoMap (indexFileInfoMap p) p = p.
Proof. destruct p; reflexivity. Qed.

Lemma resetDcaches_lookup (now : Z -> GoTime.Time) (indexPath : string) (valid : Z)
    (m : gmap Z IndexDentryInfo.t) (key : Z) :
  resetDcaches now indexPath valid m !! key =
  (fun v => if String.eqb (IndexDentryInfo.path v) indexPath
            then IndexDentryInfo.mk (IndexDentryInfo.path v)
                   (DentryCache.ResetExpiration (now key) valid (IndexDentryInfo.dcache v))
            else v) <$> m !! key.
Proof.
  unfold resetDcaches. rewrite map_lookup_imap.
  destruct (m !! key); reflexivity.
Qed.

(** What [AddIndexFilepath] returns when the path is registered and its
    entry has not expired. *)
Lemma AddIndexFilepath_registered (clk : addClock) (notExist : option error)
    (pManager : PrefetchManager) (store : list IndexInfo.t)
    (datasetCnt path : string) (ttlMinute : Z) (l : index_ptr) (old : IndexInfo.t) :
  indexFileInfoMap pManager !! path = Some l ->
  store !! l = Some old ->
  indexExpired (t_check clk) old = false ->
  exists candidate,
  AddIndexFilepath clk notExist pManager store datasetCnt path ttlMinute =
    (None,
     with_dcacheMap
       (resetDcaches (t_reset clk) (IndexInfo.path old)
          (if ttlMinute =? 0 then DefaultIndexDentryExpiration else GoTime.minutes ttlMinute)
          (dcacheMap pManager)) pManager,
     <[l := IndexInfo.mk (IndexInfo.path old) (IndexInfo.datasetCnt old)
              (if ttlMinute =? 0 then 0
               else GoTime.Unix (GoTime.Add (t_set clk) (GoTime.minutes ttlMinute)))
              (if ttlMinute =? 0 then 0 else ttlMinute)
              (IndexInfo.fileInfoMap old)]> (store ++ [candidate])).
Proof.
  intros Hreg Hold Hlive. eexists.
  unfold AddIndexFilepath. rewrite Hreg. rewrite with_indexFileInfoMap_same.
  unfold resetExistedIndexInfo.
  rewrite (lookup_app_l_Some _ _ _ _ Hold).
  rewrite lookup_app_r by lia. rewrite Nat.sub_diag. cbn [lookup list_lookup].
  rewrite Hlive. destruct (ttlMinute =? 0); reflexivity.
Qed.

(** [AddIndexFilepath] keeps the invariant of the registry. *)
Lemma AddIndexFilepath_registry_ok (clk : addClock) (notExist : option error)
    (pManager : PrefetchManager) (store : list IndexInfo.t)
    (datasetCnt path : string) (ttlMinute : Z) :
  registry_ok pManager store ->
  registry_ok
    (snd (fst (AddIndexFilepath clk notExist pManager store datasetCnt path ttlMinute)))
    (snd (AddIndexFilepath clk notExist pManager store datasetCnt path ttlMinute)).
Proof.
  intros Hok. unfold AddIndexFilepath.
  set (candidate := if 0 <? ttlMinute then _ else _).
  assert (Hcp : IndexInfo.path candidate = path)
    by (subst candidate; destruct (0 <? ttlMinute); reflexivity).
  assert (Hnew : (store ++ [candidate]) !! List.length store = Some candidate).
  { rewrite lookup_app_r by lia. rewrite Nat.sub_diag. reflexivity. }
  assert (Hok0 : forall key l, indexFileInfoMap pManager !! key = Some l ->
                   exists info, (store ++ [candidate]) !! l = Some info
                                /\ IndexInfo.path info = key).
  { intros key l H. destruct (Hok key l H) as (info & Hi & Hp).
    exists info. split; [apply lookup_app_l_Some; exact Hi | exact Hp]. }
  clearbody candidate.
  destruct (indexFileInfoMap pManager !! path) as [found|] eqn:Hreg.
  - rewrite with_indexFileInfoMap_same. unfold resetExistedIndexInfo.
    destruct (Hok0 path found Hreg) as (old & Hold & Holdp).
    rewrite Hold, Hnew.
    destruct (indexExpired (t_check clk) old).
    + rewrite Hcp.
      assert (Hins : registry_ok
                (with_indexFileInfoMap
                   (<[path := List.length store]> (indexFileInfoMap pManager)) pManager)
                (store ++ [candidate])).
      { intros key l H. destruct pManager; cbn in H, Hok0.
        destruct (decide (path = key)) as [<-|Hne].
        - rewrite lookup_insert_eq in H. injection H as <-. eauto.
        - rewrite lookup_insert_ne in H by exact Hne. eauto. }
      destruct notExist as [err|].
      * intros key l H. apply Hins. destruct pManager; cbn in H |- *.
        destruct (decide (path = key)) as [<-|Hne].
        -- rewrite lookup_delete_eq in H. discriminate H.
        -- rewrite lookup_delete_ne in H by exact Hne. exact H.
      * unfold putIndexInfoChan. destruct pManager as [? ? ? ? ? ? ? ? ? ? closed].
        destruct closed; exact Hins.
    + intros key l H. destruct pManager; cbn in H, Hok0 |- *.
      destruct (Hok0 key l H) as (info & Hi & Hp).
      destruct (decide (found = l)) as [->|Hne].
      * rewrite list_lookup_insert_eq by (eapply lookup_lt_Some; exact Hi).
        rewrite Hold in Hi. injection Hi as <-.
        eexists. split; [reflexivity|]. destruct (ttlMinute =? 0); exact Hp.
      * rewrite list_lookup_insert_ne by exact Hne. eauto.
  - assert (Hins : registry_ok
              (with_indexFileInfoMap
                 (<[path := List.length store]> (indexFileInfoMap pManager)) pManager)
              (store ++ [candidate])).
    { intros key l H. destruct pManager; cbn in H, Hok0.
      destruct (decide (path = key)) as [<-|Hne].
      - rewrite lookup_insert_eq in H. injection H as <-. eauto.
      - rewrite lookup_insert_ne in H by exact Hne. eauto. }
    destruct notExist as [err|].
    + intros key l H. apply Hins. destruct pManager; cbn in H |- *.
      destruct (decide (path = key)) as [<-|Hne].
      * rewrite lookup_delete_eq in H. discriminate H.
      * rewrite lookup_delete_ne in H by exact Hne. exact H.
    + unfold putIndexInfoChan. destruct pManager as [? ? ? ? ? ? ? ? ? ? closed].
      destruct closed; exact Hins.
Qed.

(** C6 as stated fails for a TTL whose nanoseconds do not fit [int64]:
    with [ttlMinutes = 153722868] the product with [time.Minute] wraps
    around, and the entry's [ttl] is set some 292 years before now instead
    of [ttlMinutes] minutes after it. *)
Lemma AddIndexFilepath_refresh_overflow :
  ~ (forall (clk : addClock) (notExist : option error) (pManager p' : PrefetchManager)
            (store store' : list IndexInfo.t) (datasetCnt path : string) (ttlMinute : Z)
            (l : index_ptr) (old : IndexInfo.t) (err : option error),
        indexFileInfoMap pManager !! path = Some l ->
        store !! l = Some old ->
        indexExpired (t_check clk) old = false ->
        0 < ttlMinute < 2 ^ 63 ->
        AddIndexFilepath clk notExist pManager store datasetCnt path ttlMinute
          = (err, p', store') ->
        IndexInfo.ttl <$> store' !! l = Some (GoTime.Unix (t_set clk) + 60 * ttlMinute)).
Proof.
  intros H.
  specialize (H Scenario.clock_2min None Scenario.manager_indexed
                (snd (fst (AddIndexFilepath Scenario.clock_2min None
                             Scenario.manager_indexed Scenario.store_indexed
                             "2" "/idx/a.txt" 153722868)))
                Scenario.store_indexed
                (snd (AddIndexFilepath Scenario.clock_2min None
                        Scenario.manager_indexed Scenario.store_indexed
                        "2" "/idx/a.txt" 153722868))
                "2"%string "/idx/a.txt"%string 153722868 0%nat Scenario.index_a None
                eq_refl eq_refl eq_refl ltac:(split; reflexivity)
                ltac:(vm_compute; reflexivity)).
  vm_compute in H. discriminate H.
Qed.

(** C6, amended. When [indexPath] is registered and its entry has not
    expired, [AddIndexFilepath] with [ttlMinutes = 0] or
    [0 < ttlMinutes <= 153722867] (minutes that fit [int64] nanoseconds)
    returns no error and: the registry still maps [indexPath] to the same
    object, whose [ttl] is now 0, respectively now plus [ttlMinutes]
    minutes, whose [validMinute] is [ttlMinutes], and whose dataset and
    file list are as before (nothing is parsed again); nothing is queued
    for loading; every [IndexDentryInfo] whose path is [indexPath] has the
    expiration of its cache set to now plus [ttlMinutes] minutes (plus the
    default 60 minutes when [ttlMinutes = 0]) and its mappings kept; every
    other one is untouched. *)
Theorem AddIndexFilepath_refresh (clk : addClock) (notExist : option error)
    (pManager : PrefetchManager) (store : list IndexInfo.t)
    (datasetCnt path : string) (ttlMinute : Z) (l : index_ptr) (old : IndexInfo.t) :
  indexFileInfoMap pManager !! path = Some l ->
  store !! l = Some old ->
  IndexInfo.path old = path ->
  indexExpired (t_check clk) old = false ->
  0 <= ttlMinute <= 153722867 ->
  let valid := if ttlMinute =? 0 then 60 * 60000000000 else ttlMinute * 60000000000 in
  exists p' store',
    AddIndexFilepath clk notExist pManager store datasetCnt path ttlMinute
      = (None, p', store')
    /\ indexFileInfoMap p' = indexFileInfoMap pManager
    /\ indexInfoChan p' = indexInfoChan pManager
    /\ store' !! l =
         Some (IndexInfo.mk path (IndexInfo.datasetCnt old)
                 (if ttlMinute =? 0 then 0 else GoTime.Unix (t_set clk) + 60 * ttlMinute)
                 ttlMinute (IndexInfo.fileInfoMap old))
    /\ (forall j, j <> l -> (j < List.length store)%nat -> store' !! j = store !! j)
    /\ (forall key, dcacheMap pManager !! key = None -> dcacheMap p' !! key = None)
    /\ (forall key info,
          dcacheMap pManager !! key = Some info ->
          IndexDentryInfo.path info = path ->
          dcacheMap p' !! key =
            Some (IndexDentryInfo.mk path
                    (DentryCache.mk (DentryCache.cache (IndexDentryInfo.dcache info))
                       (t_reset clk key + valid))))
    /\ (forall key info,
          dcacheMap pManager !! key = Some info ->
          IndexDentryInfo.path info <> path ->
          dcacheMap p' !! key = Some info).
Proof.
  intros Hreg Hold Hpath Hlive Hrange valid.
  destruct (AddIndexFilepath_registered clk notExist pManager store datasetCnt path
              ttlMinute l old Hreg Hold Hlive) as (candidate & Hcall).
  rewrite Hpath in Hcall.
  eexists. eexists. split; [exact Hcall|].
  assert (Hl : (l < List.length store)%nat) by (eapply lookup_lt_Some; exact Hold).
  assert (Hvalid : (if ttlMinute =? 0 then DefaultIndexDentryExpiration
                    else GoTime.minutes ttlMinute) = valid).
  { subst valid. destruct (ttlMinute =? 0); [reflexivity|].
    apply minutes_small. exact Hrange. }
  rewrite Hvalid.
  split; [destruct pManager; reflexivity|].
  split; [destruct pManager; reflexivity|].
  split.
  { rewrite list_lookup_insert_eq by (rewrite length_app; lia).
    destruct (Z.eqb_spec ttlMinute 0) as [->|Hnz]; [reflexivity|].
    rewrite Unix_Add_minutes by exact Hrange. reflexivity. }
  split.
  { intros j Hj Hlt. rewrite list_lookup_insert_ne by congruence.
    apply lookup_app_l. exact Hlt. }
  replace (dcacheMap (with_dcacheMap
             (resetDcaches (t_reset clk) path valid (dcacheMap pManager)) pManager))
    with (resetDcaches (t_reset clk) path valid (dcacheMap pManager))
    by (destruct pManager; reflexivity).
  split; [|split].
  - intros key Hnone. rewrite resetDcaches_lookup, Hnone. reflexivity.
  - intros key info Hsome Hp. rewrite resetDcaches_lookup, Hsome. cbn.
    rewrite Hp, String.eqb_refl. reflexivity.
  - intros key info Hsome Hp. rewrite resetDcaches_lookup, Hsome. cbn.
    destruct (String.eqb_spec (IndexDentryInfo.path info) path); [contradiction|reflexivity].
Qed.

(** The scenario of the specification: the index was added at time 0 with a
    TTL of 5 minutes; two minutes later it is added with 10 minutes. Its
    [ttl] moves to 720 s (12 minutes after time 0), its file list is kept,
    and the cache of inode 100 expires 10 minutes from now. *)
Lemma AddIndexFilepath_refresh_scenario :
  exists p' store',
    AddIndexFilepath Scenario.clock_2min None Scenario.manager_indexed
      Scenario.store_indexed "2" "/idx/a.txt" 10 = (None, p', store')
    /\ store' !! 0%nat =
         Some (IndexInfo.mk "/idx/a.txt" "2" 720 10
                 [FileInfo.mk "/d1/f1" 101 false; FileInfo.mk "/d1/f2" 102 false])
    /\ indexInfoChan p' = []
    /\ (DentryCache.expiration <$> (IndexDentryInfo.dcache <$> dcacheMap p' !! 100))
         = Some (120000000000 + 600000000000).
Proof.
  destruct (AddIndexFilepath_refresh Scenario.clock_2min None Scenario.manager_indexed
              Scenario.store_indexed "2" "/idx/a.txt" 10 0%nat Scenario.index_a)
    as (p' & store' & Hcall & _ & Hchan & Hstore & _ & _ & Hdc & _).
  - reflexivity.
  - reflexivity.
  - reflexivity.
  - reflexivity.
  - lia.
  - exists p', store'. split; [exact Hcall|]. split; [exact Hstore|].
    split; [exact Hchan|].
    rewrite (Hdc 100 (IndexDentryInfo.mk "/idx/a.txt" Scenario.dcache_d1) eq_refl eq_refl).
    reflexivity.
Defined.

End TtlRefresh.

(** ** Liveness of the caches [GetDentryCache] returns (claim C7) *)

Section DentryLiveness.

(** C7 as stated fails in its atomicity: the load, the expiry test and the
    delete of [GetDentryCache] are three operations, and the delete removes
    whatever is stored under the key when it runs. Here the entry of inode
    100 is found expired; before the delete the janitor removes it and a
    worker stores a new cache that is not expired; the delete then removes
    the new cache. *)
Lemma GetDentryCache_removal_not_atomic :
  ~ (forall (now : GoTime.Time) (parIno : Z) (before between1 between2 : list interference)
            (m : gmap Z IndexDentryInfo.t) (replacement : IndexDentryInfo.t),
        interfereAll between2
          (interfereAll between1 (interfereAll before m)) !! parIno = Some replacement ->
        DentryCache.IsExpired now (IndexDentryInfo.dcache replacement) = false ->
        snd (GetDentryCache_interleaved now parIno before between1 between2 m) !! parIno
          = Some replacement).
Proof.
  intros H.
  specialize (H Scenario.late 100 [] [] Scenario.reload_between
                (dcacheMap Scenario.manager_indexed)
                (IndexDentryInfo.mk "/idx/a.txt"
                   (DentryCache.Put "f1" 101
                      (DentryCache.NewDentryCache Scenario.late (GoTime.minutes 5))))
                ltac:(vm_compute; reflexivity) ltac:(vm_compute; reflexivity)).
  vm_compute in H. discriminate H.
Qed.

Lemma GetDentryCache_as_steps (now : GoTime.Time) (p : PrefetchManager) (parIno : Z) :
  exists res m,
    GetDentryCache_interleaved now parIno [] [] [] (dcacheMap p) = (GdcReturn res, m)
    /\ GetDentryCache now (Some p) parIno =
       Done (res, Some (match res, dcacheMap p !! parIno with
                        | None, Some _ => with_dcacheMap m p
                        | _, _ => p
                        end)).
Proof.
  unfold GetDentryCache_interleaved, GetDentryCache, interfereAll.
  cbn [fold_left GetDentryCache_step].
  destruct (dcacheMap p !! parIno) as [value|]; [|eexists; eexists; split; reflexivity].
  cbn [GetDentryCache_step].
  destruct (DentryCache.IsExpired now (IndexDentryInfo.dcache value));
    cbn [negb GetDentryCache_step]; eexists; eexists; split; reflexivity.
Qed.

(** C7, amended. [GetDentryCache] returns nil or the cache it loaded from
    the key, and only when [IsExpired] was false of it at the test, also on
    a nil receiver and whatever other goroutines do meanwhile. When the
    loaded cache is found expired, the call returns nil and deletes the key
    as a separate operation: what it removes is whatever the map holds
    under the key when the delete runs. Without interference that is the
    expired entry, and the map is otherwise unchanged. *)
Theorem GetDentryCache_never_expired (now : GoTime.Time) (parIno : Z) :
  (forall (pManager p' : option PrefetchManager) (dcache : DentryCache.t),
      GetDentryCache now pManager parIno = Done (Some dcache, p') ->
      DentryCache.IsExpired now dcache = false
      /\ p' = pManager
      /\ exists p, pManager = Some p
                   /\ IndexDentryInfo.dcache <$> dcacheMap p !! parIno = Some dcache)
  /\ (forall (p : PrefetchManager) (p' : option PrefetchManager),
        GetDentryCache now (Some p) parIno = Done (None, p') ->
        (dcacheMap p !! parIno = None /\ p' = Some p)
        \/ (exists value, dcacheMap p !! parIno = Some value
                          /\ DentryCache.IsExpired now (IndexDentryInfo.dcache value) = true
                          /\ p' = Some (with_dcacheMap (delete parIno (dcacheMap p)) p)))
  /\ (forall (before between1 between2 : list interference) (m : gmap Z IndexDentryInfo.t),
        let loaded := interfereAll before m !! parIno in
        let last := interfereAll between2 (interfereAll between1 (interfereAll before m)) in
        GetDentryCache_interleaved now parIno before between1 between2 m =
          match loaded with
          | None => (GdcReturn None, last)
          | Some value =>
              if DentryCache.IsExpired now (IndexDentryInfo.dcache value)
              then (GdcReturn None, delete parIno last)
              else (GdcReturn (Some (IndexDentryInfo.dcache value)), last)
          end).
Proof.
  split; [|split].
  - intros pManager p' dcache H. unfold GetDentryCache in H.
    destruct pManager as [p|]; [|discriminate H].
    destruct (dcacheMap p !! parIno) as [value|] eqn:Hv; [|discriminate H].
    destruct (DentryCache.IsExpired now (IndexDentryInfo.dcache value)) eqn:He;
      cbn [negb] in H; [discriminate H|].
    injection H as <- <-. split; [exact He|]. split; [reflexivity|].
    exists p. split; [reflexivity|]. rewrite Hv. reflexivity.
  - intros p p' H. unfold GetDentryCache in H.
    destruct (dcacheMap p !! parIno) as [value|] eqn:Hv.
    + right. exists value.
      destruct (DentryCache.IsExpired now (IndexDentryInfo.dcache value)) eqn:He;
        cbn [negb] in H; [|discriminate H].
      injection H as <-. repeat split.
    + left. injection H as <-. split; reflexivity.
  - intros before between1 between2 m loaded last. subst loaded last.
    unfold GetDentryCache_interleaved. cbn [GetDentryCache_step].
    destruct (interfereAll before m !! parIno) as [value|]; [|reflexivity].
    cbn [GetDentryCache_step].
    destruct (DentryCache.IsExpired now (IndexDentryInfo.dcache value));
      reflexivity.
Qed.

(** Before its expiry the cache of inode 100 is returned as it is stored. *)
Lemma GetDentryCache_never_expired_scenario :
  GetDentryCache 60000000000 (Some Scenario.manager_indexed) 100
    = Done (Some Scenario.dcache_d1, Some Scenario.manager_indexed)
  /\ DentryCache.IsExpired 60000000000 Scenario.dcache_d1 = false.
Proof.
  split; [reflexivity|].
  apply (proj1 (GetDentryCache_never_expired 60000000000 100)
           (Some Scenario.manager_indexed) (Some Scenario.manager_indexed)
           Scenario.dcache_d1 eq_refl).
Defined.

End DentryLiveness.

(** ** The janitor's sweep of the registry (claim C8) *)

Section Janitor.

(** A [Range] that deletes the keys on which [test] holds leaves exactly
    the others. *)
Lemma sweepIndexInfo_lookup (now : string -> GoTime.Time) (store : list IndexInfo.t)
    (m : gmap string index_ptr) (key : string) :
  sweepIndexInfo now store m !! key =
  match m !! key with
  | Some l =>
      match store !! l with
      | Some info => if indexExpired (now key) info then None else Some l
      | None => Some l
      end
  | None => None
  end.
Proof.
  unfold sweepIndexInfo.
  set (f := fun (key : string) (value : index_ptr) (acc : gmap string index_ptr) =>
              match store !! value with
              | Some indexInfo =>
                  if indexExpired (now key) indexInfo then delete key acc else acc
              | None => acc
              end).
  assert (H : forall visited : gmap string index_ptr,
             forall k, map_fold f m visited !! k =
                       match visited !! k with
                       | Some l =>
                           match store !! l with
                           | Some info => if indexExpired (now k) info then None else m !! k
                           | None => m !! k
                           end
                       | None => m !! k
                       end).
  { intros visited.
    apply (map_fold_weak_ind
             (fun r visited => forall k, r !! k =
                match visited !! k with
                | Some l =>
                    match store !! l with
                    | Some info => if indexExpired (now k) info then None else m !! k
                    | None => m !! k
                    end
                | None => m !! k
                end)).
    - intros k. rewrite lookup_empty. reflexivity.
    - intros i x visited' r Hfresh IH k. unfold f.
      destruct (decide (i = k)) as [->|Hne].
      + rewrite lookup_insert_eq. specialize (IH k). rewrite Hfresh in IH.
        destruct (store !! x) as [info|]; [|exact IH].
        destruct (indexExpired (now k) info); [apply lookup_delete_eq | exact IH].
      + rewrite lookup_insert_ne by exact Hne. specialize (IH k).
        destruct (store !! x) as [info|]; [|exact IH].
        destruct (indexExpired (now i) info); [|exact IH].
        rewrite lookup_delete_ne by exact Hne. exact IH. }
  rewrite (H m key). destruct (m !! key) as [l|]; [|reflexivity].
  destruct (store !! l) as [info|]; [|reflexivity].
  destruct (indexExpired (now key) info); reflexivity.
Qed.

Lemma tick_indexFileInfoMap (clk : sweepClock) (store : list IndexInfo.t)
    (pManager : PrefetchManager) :
  indexFileInfoMap (cleanExpiredIndexInfo_tick clk store pManager) =
  sweepIndexInfo (t_index clk) store (indexFileInfoMap pManager).
Proof. reflexivity. Qed.




End Janitor.

(** ** The paths parsed from an index file (claim C9) *)

Section IndexLines.



(** The statement that a line not beginning with the mount point is stored
    as it is, trimmed, does not hold of [readIndexFileByLine]: with the
    mount point ["/mnt/v"], the line ["/data/mnt/v/x"] does not begin with
    it, yet the path stored is ["/data/x"]. *)
Lemma readIndexFileByLine_inner_mount_removed :
  ~ (forall (pManager : PrefetchManager) (store store' : list IndexInfo.t)
            (indexInfo : index_ptr) (lines : list string) (scanErr err : option error)
            (info : IndexInfo.t) (i : nat) (line : string),
        readIndexFileByLine pManager store indexInfo (inl (lines, scanErr))
          = Done (err, store') ->
        store' !! indexInfo = Some info ->
        lines !! i = Some line ->
        GoStrings.HasPrefix line (mountPoint pManager) = false ->
        FileInfo.path <$> IndexInfo.fileInfoMap info !! i
          = Some (GoStrings.TrimSpace line)).
Proof.
  intros H.
  specialize (H Scenario.manager_indexed Scenario.store_indexed
                (snd (match readIndexFileByLine Scenario.manager_indexed
                              Scenario.store_indexed 0%nat
                              (inl (["/data/mnt/v/x"%string], None)) with
                      | Done r => r
                      | Panic _ => (None, [])
                      end))
                0%nat ["/data/mnt/v/x"%string] None None
                (IndexInfo.mk "/idx/a.txt" "2" 300 5 [FileInfo.mk "/data/x" 0 false])
                0%nat "/data/mnt/v/x"%string
                ltac:(vm_compute; reflexivity) ltac:(vm_compute; reflexivity)
                eq_refl eq_refl).
  vm_compute in H. discriminate H.
Qed.

(** C9, at the input on which it fails. The mount point is ["/mnt/v"] and
    the index file holds the one line ["/data/mnt/v/x"], which does not
    begin with the mount point and has no white space at its ends: the
    claim has it stored as it is. [readIndexFileByLine] stores ["/data/x"]:
    [strings.Replace] removes the mount point from inside the line, where
    [LookupPathByCache] tests [strings.HasPrefix] before the same call. *)
Theorem readIndexFileByLine_inner_mount_stored :
  GoStrings.HasPrefix "/data/mnt/v/x" (mountPoint Scenario.manager_indexed) = false
  /\ GoStrings.TrimSpace "/data/mnt/v/x" = "/data/mnt/v/x"%string
  /\ readIndexFileByLine Scenario.manager_indexed Scenario.store_indexed 0%nat
       (inl (["/data/mnt/v/x"%string], None))
     = Done (None,
             [IndexInfo.mk "/idx/a.txt" "2" 300 5 [FileInfo.mk "/data/x" 0 false]])
  /\ LookupPathByCache Scenario.ec Scenario.now Scenario.manager_indexed "/data/mnt/v/x"
     = (inr ErrNotCfsPath, Scenario.manager_indexed, []).
Proof. vm_compute. repeat split. Qed.

(** A dataset count too large for [make]: the largest [int64]. *)
Lemma readIndexFileByLine_large_count_panics (pManager : PrefetchManager)
    (lines : list string) (scanErr : option error) :
  readIndexFileByLine pManager
    [IndexInfo.mk "/idx/a.txt" "9223372036854775807" 0 0 []] 0%nat (inl (lines, scanErr))
  = Panic "makeslice: cap out of range".
Proof. reflexivity. Qed.



End IndexLines.

(** ** Nil receivers (claim C10) *)

Section NilReceiver.

(** A method without the guard panics on a nil receiver. *)
Lemma PrefetchByPath_nil_panics (filepath : string) :
  PrefetchByPath None filepath = Panic nilDereference.
Proof. reflexivity. Qed.

(** C10. On a nil receiver the six guarded methods complete without a
    panic: [GetDentryCache] returns nil, [ContainsAppPid] returns false, and
    [PutAppPid], [DeleteAppPid], [AddTotalReadCount] and [AddAppReadCount]
    return at once; there is no manager whose state could change, and the
    receiver is still nil. *)
Theorem nil_receiver_is_noop (now : GoTime.Time) (parIno pid : Z) :
  GetDentryCache now None parIno = Done (None, None)
  /\ PutAppPid None pid = Done None
  /\ DeleteAppPid None pid = Done None
  /\ ContainsAppPid None pid = Done false
  /\ AddTotalReadCount None = Done None
  /\ AddAppReadCount None = Done None.
Proof. repeat split. Qed.

End NilReceiver.

(** * Further properties *)

(** ** The download stream read back *)

Section StreamRoundTrip.

Import GoBytes.

Lemma Uint64_be_small (v : Z) (rest : list byte) :
  0 <= v < 2 ^ 64 -> Z.to_nat (Uint64 (be_uint64 (uint64 v) ++ rest)) = Z.to_nat v.
Proof.
  intros H. rewrite Uint64_be_uint64. unfold uint64.
  rewrite Z.mod_mod by lia. rewrite Z.mod_small by exact H. reflexivity.
Qed.

(** A record followed by anything is read back as its path, its data and
    what follows. *)
Lemma parseRecord_fields (filePath : string) (data rest : list byte) :
  Z.of_nat (String.length filePath) < 2 ^ 64 ->
  Z.of_nat (List.length data) < 2 ^ 64 ->
  parseRecord
    ((be_uint64 (uint64 (Z.of_nat (String.length filePath)))
      ++ bytes_of_string filePath
      ++ be_uint64 (uint64 (Z.of_nat (List.length data)))
      ++ data) ++ rest)
  = Some (bytes_of_string filePath, data, rest).
Proof.
  intros HL Hn. rewrite <- !app_assoc. unfold parseRecord.
  set (L := String.length filePath) in *. set (n := List.length data) in *.
  assert (HbL : List.length (bytes_of_string filePath) = L) by apply length_bytes_of_string.
  replace (List.length (be_uint64 (uint64 (Z.of_nat L)) ++ _) <? 8)%nat with false
    by (symmetry; apply Nat.ltb_ge; rewrite length_app, length_be_uint64; lia).
  rewrite Uint64_be_small by lia. rewrite Nat2Z.id.
  rewrite (drop_app_length' (be_uint64 (uint64 (Z.of_nat L)))) by reflexivity.
  replace (List.length (bytes_of_string filePath ++ _) <? L)%nat with false
    by (symmetry; apply Nat.ltb_ge; rewrite length_app; lia).
  rewrite (drop_app_length' (bytes_of_string filePath)) by (symmetry; exact HbL).
  rewrite (take_app_length' (bytes_of_string filePath)) by (symmetry; exact HbL).
  replace (List.length (be_uint64 (uint64 (Z.of_nat n)) ++ _) <? 8)%nat with false
    by (symmetry; apply Nat.ltb_ge; rewrite length_app, length_be_uint64; lia).
  rewrite Uint64_be_small by lia. rewrite Nat2Z.id.
  rewrite (drop_app_length' (be_uint64 (uint64 (Z.of_nat n)))) by reflexivity.
  replace (List.length (data ++ rest) <? n)%nat with false
    by (symmetry; apply Nat.ltb_ge; rewrite length_app; lia).
  rewrite (take_app_length' data) by reflexivity.
  rewrite (drop_app_length' data) by reflexivity.
  reflexivity.
Qed.

(** X1. The records [ReadData] builds for any jobs, written one after the
    other, are read back as the paths and the data of the jobs, in order,
    whatever the pooled buffers held before. *)
Theorem parseStream_downloadRecords (pool : BlockPool)
    (jobs : list (string * list byte)) :
  pool_ok pool ->
  Forall (fun job => Z.of_nat (String.length (fst job)) < 2 ^ 64
                     /\ Z.of_nat (List.length (snd job)) < 2 ^ 64) jobs ->
  parseStream (List.length jobs)
    (concat (List.map (fun job =>
               downloadRecord pool (fst job) (snd job) (Z.of_nat (List.length (snd job))))
             jobs))
  = Some (List.map (fun job => (bytes_of_string (fst job), snd job)) jobs).
Proof.
  intros Hpool Hjobs. induction Hjobs as [|[filePath data] rest [HL Hn] Hrest IH].
  { reflexivity. }
  cbn [List.map concat List.length fst snd] in *.
  rewrite (downloadRecord_fields pool filePath data data Hpool (firstn_all data)).
  cbn [parseStream].
  destruct (be_uint64 (uint64 (Z.of_nat (String.length filePath)))
            ++ bytes_of_string filePath
            ++ be_uint64 (uint64 (Z.of_nat (List.length data))) ++ data)
    as [|b record] eqn:Hrec.
  { apply (f_equal (@List.length byte)) in Hrec.
    rewrite length_app, length_be_uint64 in Hrec. discriminate Hrec. }
  change ((b :: record) ++ ?r) with (b :: (record ++ r)).
  change (b :: (record ++ ?r)) with ((b :: record) ++ r).
  rewrite <- Hrec, (parseRecord_fields filePath data _ HL Hn), IH. reflexivity.
Qed.

(** Two jobs under the mount; the pooled buffers hold old bytes. *)
Lemma parseStream_downloadRecords_scenario :
  parseStream 2
    (downloadRecord Scenario.pool "/mnt/v/d1/f1" (bytes_of_string "abc") 3
     ++ downloadRecord Scenario.pool "/mnt/v/d1/f2" (bytes_of_string "xy") 2 ++ [])
  = Some [(bytes_of_string "/mnt/v/d1/f1", bytes_of_string "abc");
          (bytes_of_string "/mnt/v/d1/f2", bytes_of_string "xy")].
Proof.
  apply (parseStream_downloadRecords Scenario.pool
           [("/mnt/v/d1/f1"%string, bytes_of_string "abc");
            ("/mnt/v/d1/f2"%string, bytes_of_string "xy")]).
  - intros size. unfold Scenario.pool. cbn [GetBlockBuf]. rewrite repeat_length. lia.
  - repeat constructor; cbn; lia.
Defined.

End StreamRoundTrip.

(** ** What the download handler does on each path *)

Section HandlerPaths.

(** A test that holds of no event of a path lookup counts nothing in one. *)
Lemma lookupDirs_count (test : event -> bool) (ec : ExtentClient)
    (now : Z -> GoTime.Time) (n : nat) (dirs : list string) :
  (forall index ino name found, test (EvDcacheGet index ino name found) = false) ->
  (forall index ino, test (EvDcacheNew index ino) = false) ->
  (forall index ino name, test (EvLookup index ino name) = false) ->
  (forall index ino name child, test (EvDcachePut index ino name child) = false) ->
  forall (index : nat) (ino : Z) (lc : gmap Z DentryCache.t) (tr : list event),
    countEvents test (snd (lookupDirs ec now n index dirs ino lc tr)) = countEvents test tr.
Proof.
  intros Hget Hnew Hlk Hput.
  induction dirs as [|dir rest IH]; intros index ino lc tr; cbn [lookupDirs].
  - reflexivity.
  - destruct (String.eqb dir "/" || String.eqb dir "")%bool; [apply IH|].
    destruct (lc !! ino) as [dc|].
    + destruct (DentryCache.Get dir dc) as [child|].
      * rewrite IH, countEvents_app. cbn. rewrite Hget. lia.
      * destruct (lookup ec ino dir) as [child|err].
        -- destruct (negb (index =? n - 1)%nat); rewrite IH, !countEvents_app; cbn;
             rewrite ?Hget, ?Hlk, ?Hput; lia.
        -- cbn [snd]. rewrite !countEvents_app. cbn. rewrite Hget, Hlk. lia.
    + destruct (lookup ec ino dir) as [child|err].
      * destruct (negb (index =? n - 1)%nat); rewrite IH, !countEvents_app; cbn;
          rewrite ?Hnew, ?Hlk, ?Hput; lia.
      * cbn [snd]. rewrite !countEvents_app. cbn. rewrite Hnew, Hlk. lia.
Qed.

Lemma jobInode_count (test : event -> bool) (ec : ExtentClient)
    (now : Z -> GoTime.Time) (pManager : PrefetchManager) (dInfo : DownloadFileInfo) :
  (forall index ino name found, test (EvDcacheGet index ino name found) = false) ->
  (forall index ino, test (EvDcacheNew index ino) = false) ->
  (forall index ino name, test (EvLookup index ino name) = false) ->
  (forall index ino name child, test (EvDcachePut index ino name child) = false) ->
  countEvents test (snd (jobInode ec now pManager dInfo)) = O.
Proof.
  intros Hget Hnew Hlk Hput.
  assert (H : forall absPath,
             countEvents test (snd (LookupPathByCache ec now pManager absPath)) = O).
  { intros absPath. unfold LookupPathByCache.
    destruct (negb _); [reflexivity|].
    destruct (_ || _)%bool; [reflexivity|].
    match goal with
    | |- context [lookupDirs ?a ?b ?c ?d ?e ?f ?g ?h] =>
        pose proof (lookupDirs_count test a b c e Hget Hnew Hlk Hput d f g h) as Hl;
        destruct (lookupDirs a b c d e f g h) as [[res lc] tr]
    end.
    exact Hl. }
  unfold jobInode. destruct (fileInfo dInfo) as [fi|]; [|apply H].
  destruct (FileInfo.inoID fi =? 0); [apply H | reflexivity].
Qed.

(** X2. However a download job ends: every stream it opened it closed
    (at most one); the response buffer is taken from the pool once for each
    record written and is given back; at most one record is written; the
    content buffer is given back no more often than it was taken; and when
    the job ends in an error nothing is written. *)
Theorem ReadData_resource_accounting (ec : ExtentClient) (pool : BlockPool)
    (now : Z -> GoTime.Time) (pManager : PrefetchManager)
    (ws : gmap resp_ptr BatchDownloadRespWriter) (dInfo : DownloadFileInfo) :
  let err := fst (fst (fst (ReadData ec pool now pManager ws dInfo))) in
  let tr := snd (ReadData ec pool now pManager ws dInfo) in
  countEvents isOpenStream tr = countEvents isCloseStream tr
  /\ (countEvents isOpenStream tr <= 1)%nat
  /\ countEvents (isGetBlockBuf RespBuf) tr = countEvents isWrite tr
  /\ countEvents (isPutBlockBuf RespBuf) tr = countEvents isWrite tr
  /\ (countEvents isWrite tr <= 1)%nat
  /\ (countEvents (isPutBlockBuf ContentBuf) tr
      <= countEvents (isGetBlockBuf ContentBuf) tr <= 1)%nat
  /\ (err <> None -> countEvents isWrite tr = O).
Proof.
  cbv zeta. unfold ReadData.
  pose proof (fun test H1 H2 H3 H4 =>
                jobInode_count test ec now pManager dInfo H1 H2 H3 H4) as Hj.
  assert (J1 := Hj isOpenStream ltac:(easy) ltac:(easy) ltac:(easy) ltac:(easy)).
  assert (J2 := Hj isCloseStream ltac:(easy) ltac:(easy) ltac:(easy) ltac:(easy)).
  assert (J3 := Hj isWrite ltac:(easy) ltac:(easy) ltac:(easy) ltac:(easy)).
  assert (J4 := Hj (isGetBlockBuf RespBuf) ltac:(easy) ltac:(easy) ltac:(easy) ltac:(easy)).
  assert (J5 := Hj (isPutBlockBuf RespBuf) ltac:(easy) ltac:(easy) ltac:(easy) ltac:(easy)).
  assert (J6 := Hj (isGetBlockBuf ContentBuf)
                  ltac:(easy) ltac:(easy) ltac:(easy) ltac:(easy)).
  assert (J7 := Hj (isPutBlockBuf ContentBuf)
                  ltac:(easy) ltac:(easy) ltac:(easy) ltac:(easy)).
  clear Hj. unfold ReadData_body, ReadData_deferred.
  destruct (jobInode ec now pManager dInfo) as [[res p] tr0]. cbn [snd] in *.
  destruct res as [inodeID|err];
    [destruct (OpenStream ec inodeID) as [err|];
     [|destruct (FileSize ec inodeID) as [fileSize valid];
       destruct (negb valid || (fileSize =? 0))%bool;
       [|destruct (Read ec inodeID fileSize) as [data [cause|]];
         [|cbn [f_err f_readSize f_content f_events];
           destruct (0 <? Z.of_nat (List.length data));
           [destruct (0 <? List.length _)%nat|]]]]|];
    cbn [f_err f_readSize f_content f_events fst snd];
    rewrite ?countEvents_app, ?J1, ?J2, ?J3, ?J4, ?J5, ?J6, ?J7; cbn;
    repeat split; try lia; try congruence.
Qed.

Lemma Writer_WgAdd (w w' : resp_ptr) (delta : Z)
    (ws : gmap resp_ptr BatchDownloadRespWriter) :
  Writer <$> WgAdd w delta ws !! w' = Writer <$> ws !! w'.
Proof.
  unfold WgAdd. destruct (decide (w = w')) as [->|Hne].
  - rewrite lookup_alter_eq. destruct (ws !! w'); reflexivity.
  - rewrite lookup_alter_ne by exact Hne. reflexivity.
Qed.

(** X3. A download job that ends in an error, or that writes no record
    (its read gave no byte), leaves the output of every response writer as
    it was: for a path outside the mount, a failed lookup, a stream that
    does not open, an invalid or zero file size, a failed read and an empty
    read alike. *)
Theorem ReadData_failure_writes_nothing (ec : ExtentClient) (pool : BlockPool)
    (now : Z -> GoTime.Time) (pManager : PrefetchManager)
    (ws : gmap resp_ptr BatchDownloadRespWriter) (dInfo : DownloadFileInfo) :
  let '(err, _, ws', tr) := ReadData ec pool now pManager ws dInfo in
  err <> None \/ countEvents isWrite tr = O ->
  forall w, Writer <$> ws' !! w = Writer <$> ws !! w.
Proof.
  unfold ReadData, ReadData_deferred.
  set (fr := ReadData_body ec pool now pManager dInfo).
  destruct (f_err fr) as [err|] eqn:Herr.
  - intros _ w. apply Writer_WgAdd.
  - destruct (0 <? f_readSize fr) eqn:Hpos.
    + intros [H|H] w; [congruence|].
      rewrite countEvents_app in H. cbn in H. lia.
    + intros _ w. apply Writer_WgAdd.
Qed.

(** A job for a path outside the mount and a job whose read fails. *)
Lemma ReadData_failure_writes_nothing_scenario :
  (forall w,
      Writer <$> snd (fst (ReadData Scenario.ec Scenario.pool Scenario.now
                             Scenario.manager Scenario.writers
                             (mkDownload "/elsewhere/x" None 0%nat))) !! w
      = Writer <$> Scenario.writers !! w)
  /\ (forall w,
        Writer <$> snd (fst (ReadData Scenario.ec_read_fails Scenario.pool Scenario.now
                               Scenario.manager Scenario.writers
                               Scenario.job_f1_resolved)) !! w
        = Writer <$> Scenario.writers !! w).
Proof.
  split.
  - pose proof (ReadData_failure_writes_nothing Scenario.ec Scenario.pool Scenario.now
                  Scenario.manager Scenario.writers
                  (mkDownload "/elsewhere/x" None 0%nat)) as H.
    destruct (ReadData _ _ _ _ _ _) as [[[err p] ws'] tr] eqn:E.
    apply H. left. vm_compute in E. injection E as <- _ _ _. discriminate.
  - pose proof (ReadData_failure_writes_nothing Scenario.ec_read_fails Scenario.pool
                  Scenario.now Scenario.manager Scenario.writers
                  Scenario.job_f1_resolved) as H.
    destruct (ReadData _ _ _ _ _ _) as [[[err p] ws'] tr] eqn:E.
    apply H. left. vm_compute in E. injection E as <- _ _ _. discriminate.
Defined.

End HandlerPaths.

(** ** The lookup cache agrees with the file system *)

Section CacheSoundness.

Lemma Get_Put (name dir : string) (child : Z) (dc : DentryCache.t) :
  DentryCache.Get name (DentryCache.Put dir child dc) =
  if decide (dir = name) then Some child else DentryCache.Get name dc.
Proof.
  unfold DentryCache.Get, DentryCache.Put. cbn [DentryCache.cache].
  rewrite lookup_insert. reflexivity.
Qed.

Lemma cache_sound_put (ec : ExtentClient) (lc : gmap Z DentryCache.t)
    (ino : Z) (dc : DentryCache.t) (dir : string) (child : Z) :
  cache_sound ec lc ->
  (forall name c, DentryCache.Get name dc = Some c -> lookup ec ino name = inl c) ->
  lookup ec ino dir = inl child ->
  cache_sound ec (<[ino := DentryCache.Put dir child dc]> lc).
Proof.
  intros Hs Hdc Hlk ino' dc' name c Hl Hg.
  destruct (decide (ino = ino')) as [<-|Hne].
  - rewrite lookup_insert_eq in Hl. injection Hl as <-.
    rewrite Get_Put in Hg. destruct (decide (dir = name)) as [<-|_].
    + injection Hg as <-. exact Hlk.
    + apply Hdc. exact Hg.
  - rewrite lookup_insert_ne in Hl by exact Hne. eapply Hs; eassumption.
Qed.

Lemma cache_sound_new (ec : ExtentClient) (lc : gmap Z DentryCache.t)
    (ino : Z) (now valid : Z) :
  cache_sound ec lc ->
  cache_sound ec (<[ino := DentryCache.NewDentryCache now valid]> lc).
Proof.
  intros Hs ino' dc' name c Hl Hg.
  destruct (decide (ino = ino')) as [<-|Hne].
  - rewrite lookup_insert_eq in Hl. injection Hl as <-.
    unfold DentryCache.Get, DentryCache.NewDentryCache in Hg. cbn in Hg.
    rewrite lookup_empty in Hg. discriminate Hg.
  - rewrite lookup_insert_ne in Hl by exact Hne. eapply Hs; eassumption.
Qed.

Lemma lookupDirs_sound (ec : ExtentClient) (now : Z -> GoTime.Time) (n : nat)
    (dirs : list string) :
  forall (index : nat) (ino : Z) (lc : gmap Z DentryCache.t) (tr : list event),
    cache_sound ec lc ->
    cache_sound ec (snd (fst (lookupDirs ec now n index dirs ino lc tr)))
    /\ fst (fst (lookupDirs ec now n index dirs ino lc tr)) = walk ec ino dirs.
Proof.
  induction dirs as [|dir rest IH]; intros index ino lc tr Hs; cbn [lookupDirs walk].
  { split; [exact Hs | reflexivity]. }
  destruct (String.eqb dir "/" || String.eqb dir "")%bool; [apply IH; exact Hs|].
  destruct (lc !! ino) as [dc|] eqn:Hlc.
  - destruct (DentryCache.Get dir dc) as [child|] eqn:Hget.
    + rewrite (Hs ino dc dir child Hlc Hget). apply IH. exact Hs.
    + destruct (lookup ec ino dir) as [child|err] eqn:Hlk.
      * destruct (negb (index =? n - 1)%nat); apply IH; [|exact Hs].
        apply cache_sound_put; [exact Hs | | exact Hlk].
        intros name c Hg. eapply Hs; eassumption.
      * split; [exact Hs | reflexivity].
  - destruct (lookup ec ino dir) as [child|err] eqn:Hlk.
    + destruct (negb (index =? n - 1)%nat); apply IH.
      * apply cache_sound_put; [apply cache_sound_new; exact Hs | | exact Hlk].
        intros name c Hg. unfold DentryCache.Get, DentryCache.NewDentryCache in Hg.
        cbn in Hg. rewrite lookup_empty in Hg. discriminate Hg.
      * apply cache_sound_new. exact Hs.
    + split; [apply cache_sound_new; exact Hs | reflexivity].
Qed.

(** X4. When every mapping of [lookupDcache] is one the file system gives
    (as in a new manager), a lookup of a path under the mount gives what a
    walk with [lookup] alone gives, component by component from the root:
    the same inode, or the same first error. The cache the lookup leaves
    again holds only mappings the file system gives. *)
Theorem LookupPathByCache_agrees_with_walk (ec : ExtentClient)
    (now : Z -> GoTime.Time) (pManager : PrefetchManager) (absPath : string) :
  cache_sound ec (lookupDcache pManager) ->
  let '(res, p', _) := LookupPathByCache ec now pManager absPath in
  cache_sound ec (lookupDcache p')
  /\ (GoStrings.HasPrefix absPath (mountPoint pManager) = true ->
      stripMount pManager absPath <> ""%string ->
      stripMount pManager absPath <> "/"%string ->
      res = walk ec (RootIno ec) (GoStrings.Split (stripMount pManager absPath) "/")).
Proof.
  intros Hs. unfold LookupPathByCache. fold (stripMount pManager absPath).
  destruct (GoStrings.HasPrefix absPath (mountPoint pManager)); cbn [negb].
  2:{ split; [exact Hs | discriminate]. }
  destruct (String.eqb_spec (stripMount pManager absPath) "") as [E|_]; cbn [orb].
  { split; [exact Hs | congruence]. }
  destruct (String.eqb_spec (stripMount pManager absPath) "/") as [E|_].
  { split; [exact Hs | congruence]. }
  pose proof (lookupDirs_sound ec now
                (List.length (GoStrings.Split (stripMount pManager absPath) "/"))
                (GoStrings.Split (stripMount pManager absPath) "/")
                0%nat (RootIno ec) (lookupDcache pManager) [] Hs) as [H1 H2].
  destruct (lookupDirs _ _ _ _ _ _ _ _) as [[res lc] tr]. cbn [fst snd] in *.
  split; [destruct pManager; exact H1 | intros _ _ _; exact H2].
Qed.

Lemma cache_sound_empty (ec : ExtentClient) : cache_sound ec ∅.
Proof. intros ino dc name child H. rewrite lookup_empty in H. discriminate H. Qed.

(** From a new manager, then again with the cache the first lookup left. *)
Lemma LookupPathByCache_agrees_with_walk_scenario :
  fst (fst (LookupPathByCache Scenario.ec Scenario.now Scenario.manager "/mnt/v/d1/f1"))
    = walk Scenario.ec 1 [""; "d1"; "f1"]%string
  /\ fst (fst (LookupPathByCache Scenario.ec Scenario.now Scenario.manager_warm
                 "/mnt/v/d1/f2"))
     = walk Scenario.ec 1 [""; "d1"; "f2"]%string.
Proof.
  pose proof (LookupPathByCache_agrees_with_walk Scenario.ec Scenario.now
                Scenario.manager "/mnt/v/d1/f1" (cache_sound_empty Scenario.ec)) as H1.
  unfold Scenario.manager_warm.
  destruct (LookupPathByCache Scenario.ec Scenario.now Scenario.manager "/mnt/v/d1/f1")
    as [[res p'] tr] eqn:E.
  destruct H1 as [Hs H1]. split.
  - apply H1; [reflexivity | discriminate | discriminate].
  - cbn [fst snd].
    pose proof (LookupPathByCache_agrees_with_walk Scenario.ec Scenario.now
                  p' "/mnt/v/d1/f2" Hs) as H2.
    destruct (LookupPathByCache Scenario.ec Scenario.now p' "/mnt/v/d1/f2")
      as [[res2 p2] tr2].
    destruct H2 as [_ H2].
    assert (Hp : mountPoint p' = "/mnt/v"%string).
    { vm_compute in E. injection E as _ <- _. reflexivity. }
    cbn [fst]. unfold stripMount in H2. rewrite Hp in H2.
    apply H2; [reflexivity | discriminate | discriminate].
Defined.

End CacheSoundness.

(** ** A lookup repeated *)

Section LookupRepeated.

Lemma cache_le_refl (lc : gmap Z DentryCache.t) : cache_le lc lc.
Proof. intros ino dc H. exists dc. split; [exact H | auto]. Qed.

Lemma cache_le_trans (a b c : gmap Z DentryCache.t) :
  cache_le a b -> cache_le b c -> cache_le a c.
Proof.
  intros Hab Hbc ino dc H.
  destruct (Hab ino dc H) as (dc1 & H1 & M1).
  destruct (Hbc ino dc1 H1) as (dc2 & H2 & M2).
  exists dc2. split; [exact H2 | auto].
Qed.

Lemma cache_le_put (lc : gmap Z DentryCache.t) (ino : Z) (dc : DentryCache.t)
    (dir : string) (child : Z) :
  lc !! ino = Some dc ->
  DentryCache.Get dir dc = None ->
  cache_le lc (<[ino := DentryCache.Put dir child dc]> lc).
Proof.
  intros Hl Hg ino' dc' H. destruct (decide (ino = ino')) as [<-|Hne].
  - rewrite Hl in H. injection H as <-. eexists. rewrite lookup_insert_eq.
    split; [reflexivity|]. intros name c Hc. rewrite Get_Put.
    destruct (decide (dir = name)) as [<-|_]; [congruence | exact Hc].
  - exists dc'. rewrite lookup_insert_ne by exact Hne. split; [exact H | auto].
Qed.

Lemma cache_le_new (lc : gmap Z DentryCache.t) (ino : Z) (dc : DentryCache.t) :
  lc !! ino = None -> cache_le lc (<[ino := dc]> lc).
Proof.
  intros Hl ino' dc' H. destruct (decide (ino = ino')) as [<-|Hne]; [congruence|].
  exists dc'. rewrite lookup_insert_ne by exact Hne. split; [exact H | auto].
Qed.

(** A lookup drops no cache and no mapping. *)
Lemma lookupDirs_grows (ec : ExtentClient) (now : Z -> GoTime.Time) (n : nat)
    (dirs : list string) :
  forall (index : nat) (ino : Z) (lc : gmap Z DentryCache.t) (tr : list event),
    cache_le lc (snd (fst (lookupDirs ec now n index dirs ino lc tr))).
Proof.
  induction dirs as [|dir rest IH]; intros index ino lc tr; cbn [lookupDirs].
  { apply cache_le_refl. }
  destruct (String.eqb dir "/" || String.eqb dir "")%bool; [apply IH|].
  destruct (lc !! ino) as [dc|] eqn:Hlc.
  - destruct (DentryCache.Get dir dc) as [child|] eqn:Hget; [apply IH|].
    destruct (lookup ec ino dir) as [child|err]; [|apply cache_le_refl].
    destruct (negb (index =? n - 1)%nat); [|apply IH].
    eapply cache_le_trans; [|apply IH]. apply cache_le_put; assumption.
  - destruct (lookup ec ino dir) as [child|err]; [|apply cache_le_new; exact Hlc].
    destruct (negb (index =? n - 1)%nat).
    + eapply cache_le_trans; [|apply IH]. rewrite insert_insert_eq.
      apply cache_le_new. exact Hlc.
    + eapply cache_le_trans; [|apply IH]. apply cache_le_new. exact Hlc.
Qed.

Lemma lookupDirs_rerun (ec : ExtentClient) (now now' : Z -> GoTime.Time) (n : nat)
    (dirs : list string) :
  forall (index : nat) (ino : Z) (lc : gmap Z DentryCache.t) (tr : list event)
         (r : Z) (lc' : gmap Z DentryCache.t) (tr' : list event),
    lookupDirs ec now n index dirs ino lc tr = (inl r, lc', tr') ->
    forall (lc'' : gmap Z DentryCache.t) (tr'' : list event),
      cache_le lc' lc'' ->
      cache_sound ec lc'' ->
      exists tail,
        lookupDirs ec now' n index dirs ino lc'' tr'' = (inl r, lc'', tr'' ++ tail)
        /\ (countEvents isLookup tail <= if (index <=? n - 1)%nat then 1 else 0)%nat.
Proof.
  induction dirs as [|dir rest IH];
    intros index ino lc tr r lc' tr' Hrun lc'' tr'' Hle Hs; cbn [lookupDirs] in *.
  { injection Hrun as <- _ _. exists []. rewrite app_nil_r.
    split; [reflexivity | cbn; lia]. }
  assert (Hmono : forall k : nat,
             ((if (S k <=? n - 1)%nat then 1 else 0)
              <= if (k <=? n - 1)%nat then 1 else 0)%nat).
  { intros k. destruct (Nat.leb_spec (S k) (n - 1)), (Nat.leb_spec k (n - 1)); lia. }
  destruct (String.eqb dir "/" || String.eqb dir "")%bool eqn:Hskip.
  { destruct (IH _ _ _ _ _ _ _ Hrun lc'' tr'' Hle Hs) as (tail & E & Hc).
    exists tail. split; [exact E|]. specialize (Hmono index). lia. }
  (* the first run tells where the second finds the component *)
  assert (Hhit : forall child lc1 tr1,
             lookupDirs ec now n (S index) rest child lc1 tr1 = (inl r, lc', tr') ->
             (exists dc1, lc1 !! ino = Some dc1 /\ DentryCache.Get dir dc1 = Some child) ->
             exists tail,
               match lc'' !! ino with
               | Some dc =>
                   match DentryCache.Get dir dc with
                   | Some c =>
                       lookupDirs ec now' n (S index) rest c lc''
                         (tr'' ++ [EvDcacheGet index ino dir (Some c)])
                   | None => (inr ErrClosed, lc'', [])
                   end
               | None => (inr ErrClosed, lc'', [])
               end = (inl r, lc'', tr'' ++ tail)
               /\ (countEvents isLookup tail <= if (index <=? n - 1)%nat then 1 else 0)%nat).
  { intros child lc1 tr1 Hrest (dc1 & Hl1 & Hg1).
    pose proof (lookupDirs_grows ec now n rest (S index) child lc1 tr1) as Hgrow.
    rewrite Hrest in Hgrow. cbn [fst snd] in Hgrow.
    destruct (Hgrow ino dc1 Hl1) as (dc2 & Hl2 & M2).
    destruct (Hle ino dc2 Hl2) as (dc3 & Hl3 & M3).
    rewrite Hl3, (M3 _ _ (M2 _ _ Hg1)).
    destruct (IH _ _ _ _ _ _ _ Hrest lc''
                (tr'' ++ [EvDcacheGet index ino dir (Some child)]) Hle Hs)
      as (tail & E & Hc).
    exists ([EvDcacheGet index ino dir (Some child)] ++ tail).
    rewrite app_assoc. split; [exact E|].
    rewrite countEvents_app. cbn. specialize (Hmono index). lia. }
  (* the last position, which the first run looked up and did not cache *)
  assert (Hlast : forall child lc1 tr1,
             lookupDirs ec now n (S index) rest child lc1 tr1 = (inl r, lc', tr') ->
             lookup ec ino dir = inl child ->
             index = (n - 1)%nat ->
             is_Some (lc1 !! ino) ->
             exists tail,
               lookupDirs ec now' n index (dir :: rest) ino lc'' tr''
                 = (inl r, lc'', tr'' ++ tail)
               /\ (countEvents isLookup tail <= 1)%nat).
  { intros child lc1 tr1 Hrest Hlk Hidx [dc1 Hl1].
    pose proof (lookupDirs_grows ec now n rest (S index) child lc1 tr1) as Hgrow.
    rewrite Hrest in Hgrow. cbn [fst snd] in Hgrow.
    destruct (Hgrow ino dc1 Hl1) as (dc2 & Hl2 & _).
    destruct (Hle ino dc2 Hl2) as (dc3 & Hl3 & _).
    cbn [lookupDirs]. rewrite Hskip.
    rewrite Hl3. destruct (DentryCache.Get dir dc3) as [c|] eqn:Hg3.
    - pose proof (Hs ino dc3 dir c Hl3 Hg3) as Hc3. rewrite Hlk in Hc3.
      injection Hc3 as <-.
      destruct (IH _ _ _ _ _ _ _ Hrest lc''
                  (tr'' ++ [EvDcacheGet index ino dir (Some child)]) Hle Hs)
        as (tail & E & Hc).
      exists ([EvDcacheGet index ino dir (Some child)] ++ tail).
      rewrite app_assoc. split; [exact E|].
      rewrite countEvents_app. cbn.
      replace (S index <=? n - 1)%nat with false in Hc
        by (symmetry; apply Nat.leb_gt; lia). lia.
    - rewrite Hlk. replace (index =? n - 1)%nat with true
          by (symmetry; apply Nat.eqb_eq; exact Hidx). cbn [negb].
        destruct (IH _ _ _ _ _ _ _ Hrest lc''
                    ((tr'' ++ [EvDcacheGet index ino dir None]) ++ [EvLookup index ino dir])
                    Hle Hs) as (tail & E & Hc).
        exists ([EvDcacheGet index ino dir None; EvLookup index ino dir] ++ tail).
        rewrite E. split; [rewrite <- !app_assoc; reflexivity|].
        rewrite countEvents_app. cbn.
        replace (S index <=? n - 1)%nat with false in Hc
          by (symmetry; apply Nat.leb_gt; lia). lia. }
  destruct (lc !! ino) as [dc|] eqn:Hlc.
  - destruct (DentryCache.Get dir dc) as [child|] eqn:Hget.
    + destruct (Hhit child lc _ Hrun (ex_intro _ dc (conj Hlc Hget))) as (tail & E & Hc).
      exists tail. split; [|exact Hc].
      destruct (lc'' !! ino) as [dc3|]; [|discriminate E].
      destruct (DentryCache.Get dir dc3) as [c|]; [exact E | discriminate E].
    + destruct (lookup ec ino dir) as [child|err] eqn:Hlk; [|discriminate Hrun].
      destruct (Nat.eqb_spec index (n - 1)) as [Hidx|Hidx]; cbn [negb] in Hrun.
      * destruct (Hlast child lc _ Hrun eq_refl Hidx (ex_intro _ dc Hlc))
          as (tail & E & Hc).
        cbn [lookupDirs] in E. rewrite Hskip, Hlk in E.
        replace (index =? n - 1)%nat with true in E
          by (symmetry; apply Nat.eqb_eq; exact Hidx).
        exists tail. split; [exact E|].
        replace (index <=? n - 1)%nat with true by (symmetry; apply Nat.leb_le; lia).
        exact Hc.
      * assert (Hput : exists dc1,
                   <[ino := DentryCache.Put dir child dc]> lc !! ino = Some dc1
                   /\ DentryCache.Get dir dc1 = Some child).
        { eexists. rewrite lookup_insert_eq. split; [reflexivity|].
          rewrite Get_Put. destruct (decide (dir = dir)); congruence. }
        destruct (Hhit child _ _ Hrun Hput) as (tail & E & Hc).
        exists tail. split; [|exact Hc].
        destruct (lc'' !! ino) as [dc3|]; [|discriminate E].
        destruct (DentryCache.Get dir dc3) as [c|]; [exact E | discriminate E].
  - destruct (lookup ec ino dir) as [child|err] eqn:Hlk; [|discriminate Hrun].
    destruct (Nat.eqb_spec index (n - 1)) as [Hidx|Hidx]; cbn [negb] in Hrun.
    + assert (Hsome : is_Some (<[ino := DentryCache.NewDentryCache (now ino)
                                          DefaultIndexDentryExpiration]> lc !! ino)).
      { rewrite lookup_insert_eq. eauto. }
      destruct (Hlast child _ _ Hrun eq_refl Hidx Hsome) as (tail & E & Hc).
      cbn [lookupDirs] in E. rewrite Hskip, Hlk in E.
      replace (index =? n - 1)%nat with true in E
        by (symmetry; apply Nat.eqb_eq; exact Hidx).
      exists tail. split; [exact E|].
      replace (index <=? n - 1)%nat with true by (symmetry; apply Nat.leb_le; lia).
      exact Hc.
    + assert (Hput : exists dc1,
                 <[ino := DentryCache.Put dir child
                            (DentryCache.NewDentryCache (now ino)
                               DefaultIndexDentryExpiration)]>
                   (<[ino := DentryCache.NewDentryCache (now ino)
                               DefaultIndexDentryExpiration]> lc) !! ino = Some dc1
                 /\ DentryCache.Get dir dc1 = Some child).
      { eexists. rewrite lookup_insert_eq. split; [reflexivity|].
        rewrite Get_Put. destruct (decide (dir = dir)); congruence. }
      destruct (Hhit child _ _ Hrun Hput) as (tail & E & Hc).
      exists tail. split; [|exact Hc].
      destruct (lc'' !! ino) as [dc3|]; [|discriminate E].
      destruct (DentryCache.Get dir dc3) as [c|]; [exact E | discriminate E].
Qed.

Lemma with_lookupDcache_same (p : PrefetchManager) :
  with_lookupDcache (lookupDcache p) p = p.
Proof. destruct p; reflexivity. Qed.

(** X5. When the cache holds only mappings the file system gives, a lookup
    that succeeded, made again on the manager it left, gives the same inode,
    leaves the cache as it is and calls [lookup] of the file system at most
    once: every component but the one at the last position of the split is
    now served from the cache. *)
Theorem LookupPathByCache_repeated (ec : ExtentClient) (now now' : Z -> GoTime.Time)
    (pManager p1 : PrefetchManager) (absPath : string) (ino : Z) (tr1 : list event) :
  cache_sound ec (lookupDcache pManager) ->
  LookupPathByCache ec now pManager absPath = (inl ino, p1, tr1) ->
  exists tr2,
    LookupPathByCache ec now' p1 absPath = (inl ino, p1, tr2)
    /\ (countEvents isLookup tr2 <= 1)%nat.
Proof.
  intros Hs Hrun. unfold LookupPathByCache in *.
  destruct (negb (GoStrings.HasPrefix absPath (mountPoint pManager))) eqn:Hp;
    [discriminate Hrun|].
  destruct (String.eqb _ "" || String.eqb _ "/")%bool eqn:Hroot; [discriminate Hrun|].
  set (dirs := GoStrings.Split _ "/") in *.
  pose proof (lookupDirs_sound ec now (List.length dirs) dirs 0%nat (RootIno ec)
                (lookupDcache pManager) [] Hs) as [Hs1 _].
  destruct (lookupDirs ec now (List.length dirs) 0 dirs (RootIno ec)
              (lookupDcache pManager) []) as [[res lc1] tr] eqn:E1.
  injection Hrun as -> <- <-. cbn [fst snd] in Hs1.
  assert (Hmp : mountPoint (with_lookupDcache lc1 pManager) = mountPoint pManager)
    by (destruct pManager; reflexivity).
  assert (Hlc : lookupDcache (with_lookupDcache lc1 pManager) = lc1)
    by (destruct pManager; reflexivity).
  rewrite Hmp, Hp, Hroot. fold dirs. rewrite Hlc.
  destruct (lookupDirs_rerun ec now now' (List.length dirs) dirs 0%nat (RootIno ec)
              (lookupDcache pManager) [] ino lc1 tr E1 lc1 [] (cache_le_refl lc1) Hs1)
    as (tail & E2 & Hc).
  rewrite E2. exists tail. split.
  - destruct pManager; reflexivity.
  - cbn [app]. destruct (0 <=? List.length dirs - 1)%nat; lia.
Qed.

(** The lookup of ["/mnt/v/d1/f1"], made again: one call for [f1]. *)
Lemma LookupPathByCache_repeated_scenario :
  exists tr2,
    LookupPathByCache Scenario.ec Scenario.now Scenario.manager_warm "/mnt/v/d1/f1"
      = (inl 101, Scenario.manager_warm, tr2)
    /\ (countEvents isLookup tr2 <= 1)%nat.
Proof.
  apply (LookupPathByCache_repeated Scenario.ec Scenario.now Scenario.now
           Scenario.manager Scenario.manager_warm "/mnt/v/d1/f1" 101
           (snd (LookupPathByCache Scenario.ec Scenario.now Scenario.manager
                   "/mnt/v/d1/f1"))).
  - apply cache_sound_empty.
  - vm_compute. reflexivity.
Defined.

End LookupRepeated.

(** ** Adding an index that is not registered, or whose entry has expired *)

Section AddIndex.

Lemma candidate_fields (clk : addClock) (datasetCnt path : string) (ttlMinute : Z) :
  ttlMinute <= 153722867 ->
  (if 0 <? ttlMinute
   then IndexInfo.mk path datasetCnt
          (GoTime.Unix (GoTime.Add (t_new clk) (GoTime.minutes ttlMinute))) ttlMinute []
   else IndexInfo.mk path datasetCnt 0 0 [])
  = IndexInfo.mk path datasetCnt
      (if 0 <? ttlMinute then GoTime.Unix (t_new clk) + 60 * ttlMinute else 0)
      (if 0 <? ttlMinute then ttlMinute else 0) [].
Proof.
  intros H. destruct (Z.ltb_spec 0 ttlMinute) as [Hpos|_]; [|reflexivity].
  rewrite Unix_Add_minutes by lia. reflexivity.
Qed.

(** X6. [AddIndexFilepath] for a path that is not registered. If the index
    file does not exist, the error of [os.Stat] is returned and the registry
    and the load queue are as before. If it exists and the manager is open,
    the path is registered to a new index with the dataset, an empty file
    list, and a TTL of now plus [ttlMinute] minutes when [ttlMinute > 0] and
    none otherwise (a negative [ttlMinute] counts as none); that index is
    queued for loading behind the ones already queued. If the manager is
    closed, the closed error is returned and nothing is queued, but the path
    stays registered to the new index. *)
Theorem AddIndexFilepath_unregistered (clk : addClock) (notExist : option error)
    (pManager : PrefetchManager) (store : list IndexInfo.t)
    (datasetCnt path : string) (ttlMinute : Z) :
  indexFileInfoMap pManager !! path = None ->
  ttlMinute <= 153722867 ->
  let candidate :=
    IndexInfo.mk path datasetCnt
      (if 0 <? ttlMinute then GoTime.Unix (t_new clk) + 60 * ttlMinute else 0)
      (if 0 <? ttlMinute then ttlMinute else 0) [] in
  let '(err, p', store') :=
    AddIndexFilepath clk notExist pManager store datasetCnt path ttlMinute in
  store' = store ++ [candidate]
  /\ dcacheMap p' = dcacheMap pManager
  /\ match notExist with
     | Some statErr =>
         err = Some statErr
         /\ indexFileInfoMap p' = indexFileInfoMap pManager
         /\ indexInfoChan p' = indexInfoChan pManager
     | None =>
         indexFileInfoMap p' = <[path := List.length store]> (indexFileInfoMap pManager)
         /\ if isClosed pManager
            then err = Some ErrClosed /\ indexInfoChan p' = indexInfoChan pManager
            else err = None
                 /\ indexInfoChan p' = indexInfoChan pManager ++ [List.length store]
     end.
Proof.
  intros Hreg Hrange candidate. unfold AddIndexFilepath.
  rewrite Hreg, (candidate_fields clk datasetCnt path ttlMinute Hrange).
  fold candidate. destruct notExist as [statErr|].
  - split; [reflexivity|]. split; [destruct pManager; reflexivity|].
    split; [reflexivity|]. split; [|destruct pManager; reflexivity].
    destruct pManager; cbn in *. rewrite delete_insert_eq, delete_id; [reflexivity|].
    exact Hreg.
  - unfold putIndexInfoChan.
    destruct pManager as [? ? ? ? ? ? ? ? ? ? closed]; cbn in *.
    destruct closed; cbn; repeat split; reflexivity.
Qed.

(** The index ["/idx/b.txt"] added to the manager that holds ["/idx/a.txt"]. *)
Lemma AddIndexFilepath_unregistered_scenario :
  let '(err, p', store') :=
    AddIndexFilepath Scenario.clock_2min None Scenario.manager_indexed
      Scenario.store_indexed "3" "/idx/b.txt" 10 in
  err = None
  /\ store' = [Scenario.index_a; IndexInfo.mk "/idx/b.txt" "3" 720 10 []]
  /\ indexFileInfoMap p' !! "/idx/b.txt"%string = Some 1%nat
  /\ indexInfoChan p' = [1%nat].
Proof.
  pose proof (AddIndexFilepath_unregistered Scenario.clock_2min None
                Scenario.manager_indexed Scenario.store_indexed "3" "/idx/b.txt" 10
                eq_refl ltac:(lia)) as H.
  cbv zeta in H.
  destruct (AddIndexFilepath _ _ _ _ _ _ _) as [[err p'] store'].
  destruct H as (Hstore & _ & Hreg & H). cbn [isClosed Scenario.manager_indexed] in H.
  destruct H as [Herr Hchan].
  split; [exact Herr|]. split; [exact Hstore|]. split.
  - rewrite Hreg. reflexivity.
  - rewrite Hchan. reflexivity.
Defined.

(** X7. [AddIndexFilepath] for a path whose entry has expired, when the
    index file exists and the manager is open: the registry maps the path to
    a new index object, the expired object itself is left as it was, no
    dentry cache is touched, and the new object is queued for loading. *)
Theorem AddIndexFilepath_expired (clk : addClock) (pManager : PrefetchManager)
    (store : list IndexInfo.t) (datasetCnt path : string) (ttlMinute : Z)
    (l : index_ptr) (old : IndexInfo.t) :
  indexFileInfoMap pManager !! path = Some l ->
  store !! l = Some old ->
  indexExpired (t_check clk) old = true ->
  isClosed pManager = false ->
  let '(err, p', store') :=
    AddIndexFilepath clk None pManager store datasetCnt path ttlMinute in
  err = None
  /\ indexFileInfoMap p' = <[path := List.length store]> (indexFileInfoMap pManager)
  /\ indexInfoChan p' = indexInfoChan pManager ++ [List.length store]
  /\ dcacheMap p' = dcacheMap pManager
  /\ store' !! l = Some old
  /\ exists candidate,
       store' = store ++ [candidate]
       /\ IndexInfo.path candidate = path
       /\ IndexInfo.datasetCnt candidate = datasetCnt
       /\ IndexInfo.fileInfoMap candidate = [].
Proof.
  intros Hreg Hold Hexp Hopen. unfold AddIndexFilepath.
  set (candidate := if 0 <? ttlMinute then _ else _).
  assert (Hc : IndexInfo.path candidate = path
               /\ IndexInfo.datasetCnt candidate = datasetCnt
               /\ IndexInfo.fileInfoMap candidate = [])
    by (subst candidate; destruct (0 <? ttlMinute); repeat split).
  clearbody candidate. destruct Hc as (Hcp & Hcd & Hcf).
  rewrite Hreg, with_indexFileInfoMap_same. unfold resetExistedIndexInfo.
  rewrite (lookup_app_l_Some _ _ _ _ Hold).
  rewrite lookup_app_r by lia. rewrite Nat.sub_diag. cbn [lookup list_lookup].
  rewrite Hexp. change ([candidate] !! 0%nat) with (Some candidate). cbv iota beta.
  rewrite Hcp. unfold putIndexInfoChan.
  destruct pManager as [? ? ? ? ? ? ? ? ? ? closed]; cbn in *. subst closed.
  repeat split.
  - apply lookup_app_l_Some. exact Hold.
  - exists candidate. repeat split; assumption.
Qed.

(** Long after its TTL the index ["/idx/a.txt"] is added again. *)
Lemma AddIndexFilepath_expired_scenario :
  let '(err, p', store') :=
    AddIndexFilepath
      (mkAddClock Scenario.late Scenario.late Scenario.late (fun _ => Scenario.late))
      None Scenario.manager_indexed Scenario.store_indexed "2" "/idx/a.txt" 5 in
  err = None
  /\ indexFileInfoMap p' !! "/idx/a.txt"%string = Some 1%nat
  /\ store' !! 0%nat = Some Scenario.index_a
  /\ indexInfoChan p' = [1%nat].
Proof.
  pose proof (AddIndexFilepath_expired
                (mkAddClock Scenario.late Scenario.late Scenario.late
                   (fun _ => Scenario.late))
                Scenario.manager_indexed Scenario.store_indexed "2" "/idx/a.txt" 5
                0%nat Scenario.index_a eq_refl eq_refl eq_refl eq_refl) as H.
  destruct (AddIndexFilepath _ _ _ _ _ _ _) as [[err p'] store'].
  destruct H as (Herr & Hreg & Hchan & _ & Hstore & _).
  split; [exact Herr|]. split; [rewrite Hreg; reflexivity|].
  split; [exact Hstore|]. rewrite Hchan. reflexivity.
Defined.

Lemma minutes_in_range (m : Z) :
  -153722867 <= m <= 153722867 -> GoTime.minutes m = m * 60000000000.
Proof.
  intros H. unfold GoTime.minutes, GoTime.Minute. apply wrap64_small.
  change (2 ^ 63) with 9223372036854775808. lia.
Qed.

(** X8. A refresh with a negative TTL. Where a new index given a negative
    [ttlMinute] gets no TTL at all, a registered, unexpired index given one
    has its [ttl] set that many minutes before now: it counts as expired
    from then on when that time is after the epoch, and the dentry caches
    it owns are expired at once. *)
Theorem AddIndexFilepath_negative_refresh (clk : addClock) (notExist : option error)
    (pManager : PrefetchManager) (store : list IndexInfo.t)
    (datasetCnt path : string) (ttlMinute : Z) (l : index_ptr) (old : IndexInfo.t) :
  indexFileInfoMap pManager !! path = Some l ->
  store !! l = Some old ->
  IndexInfo.path old = path ->
  indexExpired (t_check clk) old = false ->
  -153722867 <= ttlMinute < 0 ->
  let '(err, p', store') :=
    AddIndexFilepath clk notExist pManager store datasetCnt path ttlMinute in
  err = None
  /\ indexFileInfoMap p' = indexFileInfoMap pManager
  /\ (exists info,
        store' !! l = Some info
        /\ IndexInfo.ttl info = GoTime.Unix (t_set clk) + 60 * ttlMinute
        /\ IndexInfo.validMinute info = ttlMinute
        /\ forall t, 0 < IndexInfo.ttl info -> GoTime.Unix (t_set clk) <= GoTime.Unix t ->
                     indexExpired t info = true)
  /\ (forall key owned,
        dcacheMap pManager !! key = Some owned ->
        IndexDentryInfo.path owned = path ->
        exists owned',
          dcacheMap p' !! key = Some owned'
          /\ forall t, t_reset clk key <= t ->
                       DentryCache.IsExpired t (IndexDentryInfo.dcache owned') = true).
Proof.
  intros Hreg Hold Hpath Hlive Hrange.
  destruct (AddIndexFilepath_registered clk notExist pManager store datasetCnt path
              ttlMinute l old Hreg Hold Hlive) as (candidate & Hcall).
  rewrite Hcall. clear Hcall.
  replace (ttlMinute =? 0) with false by (symmetry; apply Z.eqb_neq; lia).
  rewrite minutes_in_range by lia.
  split; [reflexivity|]. split; [destruct pManager; reflexivity|]. split.
  - eexists. split.
    { apply list_lookup_insert_eq. rewrite length_app.
      apply lookup_lt_Some in Hold. lia. }
    cbn [IndexInfo.ttl IndexInfo.validMinute].
    assert (Httl : GoTime.Unix (GoTime.Add (t_set clk) (ttlMinute * 60000000000))
                   = GoTime.Unix (t_set clk) + 60 * ttlMinute).
    { unfold GoTime.Unix, GoTime.Add.
      replace (t_set clk + ttlMinute * 60000000000)
        with (t_set clk + (60 * ttlMinute) * 1000000000) by lia.
      apply Z.div_add. lia. }
    rewrite Httl. split; [reflexivity|]. split; [reflexivity|].
    intros t Hpos Ht. unfold indexExpired. cbn [IndexInfo.ttl].
    apply andb_true_iff. split; [apply Z.ltb_lt; exact Hpos | apply Z.ltb_lt; lia].
  - intros key owned Hsome Hp.
    replace (dcacheMap (with_dcacheMap _ pManager))
      with (resetDcaches (t_reset clk) (IndexInfo.path old) (ttlMinute * 60000000000)
              (dcacheMap pManager)) by (destruct pManager; reflexivity).
    rewrite resetDcaches_lookup, Hsome. cbn [fmap option_fmap option_map].
    rewrite Hp, Hpath, String.eqb_refl. eexists. split; [reflexivity|].
    intros t Ht. unfold DentryCache.IsExpired, DentryCache.ResetExpiration, GoTime.Add.
    cbn [IndexDentryInfo.dcache DentryCache.expiration]. apply Z.ltb_lt. lia.
Qed.

(** Two minutes after it was added, ["/idx/a.txt"] is added with -1. *)
Lemma AddIndexFilepath_negative_refresh_scenario :
  let '(err, p', store') :=
    AddIndexFilepath Scenario.clock_2min None Scenario.manager_indexed
      Scenario.store_indexed "2" "/idx/a.txt" (-1) in
  err = None
  /\ (IndexInfo.ttl <$> store' !! 0%nat) = Some 60
  /\ exists owned',
       dcacheMap p' !! 100 = Some owned'
       /\ DentryCache.IsExpired 120000000000 (IndexDentryInfo.dcache owned') = true.
Proof.
  pose proof (AddIndexFilepath_negative_refresh Scenario.clock_2min None
                Scenario.manager_indexed Scenario.store_indexed "2" "/idx/a.txt" (-1)
                0%nat Scenario.index_a eq_refl eq_refl eq_refl eq_refl ltac:(lia)) as H.
  destruct (AddIndexFilepath _ _ _ _ _ _ _) as [[err p'] store'].
  destruct H as (Herr & _ & (info & Hinfo & Httl & _) & Hdc).
  split; [exact Herr|]. split.
  - rewrite Hinfo. cbn. rewrite Httl. reflexivity.
  - destruct (Hdc 100 (IndexDentryInfo.mk "/idx/a.txt" Scenario.dcache_d1)
                eq_refl eq_refl) as (owned' & Ho & He).
    exists owned'. split; [exact Ho|]. apply He. cbn. lia.
Defined.

End AddIndex.

(** ** Loading an index resolves its lines *)

Section LoadIndexResolution.

Variable dc : DirClient.

Lemma fold_Put_cache (children : list Dentry) :
  forall a b : DentryCache.t,
    DentryCache.cache a = DentryCache.cache b ->
    DentryCache.cache
      (fold_left (fun dcache child => DentryCache.Put (Name child) (Inode child) dcache)
         children a)
    = DentryCache.cache
        (fold_left (fun dcache child => DentryCache.Put (Name child) (Inode child) dcache)
           children b).
Proof.
  induction children as [|child rest IH]; intros a b H; cbn [fold_left]; [exact H|].
  apply IH. unfold DentryCache.Put. cbn [DentryCache.cache]. rewrite H. reflexivity.
Qed.

(** The mappings of a directory cache do not depend on when it was made. *)
Lemma Get_dirCache (now : GoTime.Time) (children : list Dentry) (name : string) :
  DentryCache.Get name (dirCache now children) = DentryCache.Get name (dirCache 0 children).
Proof.
  unfold DentryCache.Get, dirCache. rewrite (fold_Put_cache children _
    (DentryCache.NewDentryCache 0 (30 * GoTime.Minute))); reflexivity.
Qed.

Lemma resolveLine_listed (cfsPath : string) (fact : Z * string * Z) :
  resolveLine dc cfsPath = Some fact -> listed_fact dc fact.
Proof.
  unfold resolveLine. destruct (pathSplit cfsPath) as [dirPath fileName].
  destruct (lookupPath dc dirPath) as [parIno|]; [|discriminate].
  destruct (readdir dc parIno) as [children|] eqn:Hrd; [|discriminate].
  destruct (DentryCache.Get fileName (dirCache 0 children)) as [ino|] eqn:Hg;
    [|discriminate].
  intros H. injection H as <-. exists children. split; assumption.
Qed.

Lemma getFileInode_spec (clk : loadClock) (pManager : PrefetchManager)
    (scratch : gmap string DentryInfo.t) (cfsPath : string) (indexInfo : IndexInfo.t) :
  scratch_ok dc scratch ->
  let '(inoID, err, scratch', p', called) :=
    getFileInode dc clk pManager scratch cfsPath indexInfo in
  scratch_ok dc scratch'
  /\ match resolveLine dc cfsPath with
     | Some (parIno, fileName, ino) =>
         inoID = ino /\ err = None
         /\ p' = with_dcacheMap
                   (storeFileDentry (t_store clk parIno) indexInfo parIno fileName ino
                      (dcacheMap pManager)) pManager
     | None => inoID = 0 /\ err <> None /\ p' = pManager
     end.
Proof.
  intros Hok. unfold getFileInode, resolveLine.
  destruct (pathSplit cfsPath) as [dirPath fileName].
  destruct (scratch !! dirPath) as [dInfo|] eqn:Hs.
  - destruct (Hok dirPath dInfo Hs) as (children & Hlp & Hrd & Hget).
    rewrite Hlp, Hrd, <- Hget.
    destruct (DentryCache.Get fileName (DentryInfo.dcache dInfo)) as [ino|];
      (split; [exact Hok|]); repeat split; discriminate.
  - unfold getDirInfo.
    destruct (lookupPath dc dirPath) as [parIno|err] eqn:Hlp.
    2:{ split; [exact Hok|]. repeat split; discriminate. }
    destruct (readdir dc parIno) as [children|err] eqn:Hrd.
    2:{ split; [exact Hok|]. repeat split; discriminate. }
    cbn [DentryInfo.dcache DentryInfo.parIno].
    rewrite Get_dirCache.
    assert (Hok' : scratch_ok dc
                     (<[dirPath := DentryInfo.mk parIno
                                     (dirCache (t_dir clk dirPath) children)]> scratch)).
    { intros d dInfo H. destruct (decide (dirPath = d)) as [<-|Hne].
      - rewrite lookup_insert_eq in H. injection H as <-. exists children.
        cbn [DentryInfo.dcache DentryInfo.parIno].
        split; [exact Hlp|]. split; [exact Hrd|]. intros name. apply Get_dirCache.
      - rewrite lookup_insert_ne in H by exact Hne. apply Hok. exact H. }
    destruct (DentryCache.Get fileName (dirCache 0 children)) as [ino|];
      (split; [exact Hok'|]); repeat split; discriminate.
Qed.

Lemma storeFileDentry_establishes (now : GoTime.Time) (indexInfo : IndexInfo.t)
    (parIno : Z) (fileName : string) (ino : Z) (m : gmap Z IndexDentryInfo.t) :
  dentryCached (storeFileDentry now indexInfo parIno fileName ino m) (parIno, fileName, ino).
Proof.
  unfold dentryCached, storeFileDentry. eexists. rewrite lookup_insert_eq.
  split; [reflexivity|]. cbn [IndexDentryInfo.dcache]. rewrite Get_Put.
  destruct (decide (fileName = fileName)); congruence.
Qed.

Lemma storeFileDentry_preserves (now : GoTime.Time) (indexInfo : IndexInfo.t)
    (fact fact' : Z * string * Z) (m : gmap Z IndexDentryInfo.t) :
  listed_fact dc fact ->
  listed_fact dc fact' ->
  dentryCached m fact ->
  dentryCached
    (storeFileDentry now indexInfo (fst (fst fact')) (snd (fst fact')) (snd fact') m) fact.
Proof.
  destruct fact as [[a f] i], fact' as [[a' f'] i']. cbn [fst snd].
  intros (children & Hrd & Hg) (children' & Hrd' & Hg') (owned & Hm & Ho).
  unfold dentryCached, storeFileDentry.
  destruct (decide (a' = a)) as [->|Hne].
  - rewrite Hm, lookup_insert_eq. eexists. split; [reflexivity|].
    cbn [IndexDentryInfo.dcache]. rewrite Get_Put.
    destruct (decide (f' = f)) as [->|_]; [|exact Ho].
    rewrite Hrd in Hrd'. injection Hrd' as <-. congruence.
  - exists owned. rewrite lookup_insert_ne by exact Hne. split; assumption.
Qed.

(** The loop: each line becomes what the snapshot gives for it, and the
    mappings found are in [dcacheMap] when the loop ends. *)
Lemma resolveFiles_spec (clk : loadClock) (indexInfo : IndexInfo.t)
    (files : list FileInfo.t) :
  forall (scratch : gmap string DentryInfo.t) (pManager : PrefetchManager)
         (listed : list string),
    scratch_ok dc scratch ->
    let '(files', _, p', _) :=
      resolveFiles dc clk indexInfo files scratch pManager listed in
    files' = List.map (resolvedFile dc) files
    /\ indexFileInfoMap p' = indexFileInfoMap pManager
    /\ lookupDcache p' = lookupDcache pManager
    /\ (indexInfoChan p', filePathChan p', downloadChan p', isClosed p')
       = (indexInfoChan pManager, filePathChan pManager, downloadChan pManager,
          isClosed pManager)
    /\ (forall fact, listed_fact dc fact ->
                     dentryCached (dcacheMap pManager) fact ->
                     dentryCached (dcacheMap p') fact)
    /\ (forall fInfo fact,
          In fInfo files ->
          FileInfo.path fInfo <> ""%string ->
          resolveLine dc (FileInfo.path fInfo) = Some fact ->
          dentryCached (dcacheMap p') fact).
Proof.
  induction files as [|fInfo rest IH]; intros scratch pManager listed Hok;
    cbn [resolveFiles List.map].
  { repeat split; try reflexivity; [auto | intros ? ? []]. }
  unfold resolvedFile at 1.
  destruct (String.eqb_spec (FileInfo.path fInfo) "") as [Hempty|Hpath].
  - specialize (IH scratch pManager listed Hok).
    destruct (resolveFiles dc clk indexInfo rest scratch pManager listed)
      as [[[files' scratch'] p'] listed'].
    destruct IH as (Hf & Hreg & Hlc & Hq & Hkeep & Hnew).
    split; [rewrite Hf; reflexivity|]. split; [exact Hreg|]. split; [exact Hlc|].
    split; [exact Hq|]. split; [exact Hkeep|].
    intros f fact [<-|Hin] Hp Hr; [contradiction | eapply Hnew; eassumption].
  - pose proof (getFileInode_spec clk pManager scratch (FileInfo.path fInfo) indexInfo Hok)
      as Hone.
    destruct (getFileInode dc clk pManager scratch (FileInfo.path fInfo) indexInfo)
      as [[[[inoID err] scratch1] p1] called].
    destruct Hone as (Hok1 & Hone).
    specialize (IH scratch1 p1 (listed ++ called) Hok1).
    destruct (resolveFiles dc clk indexInfo rest scratch1 p1 (listed ++ called))
      as [[[files' scratch'] p'] listed'].
    destruct IH as (Hf & Hreg & Hlc & Hq & Hkeep & Hnew).
    destruct (resolveLine dc (FileInfo.path fInfo)) as [[[parIno fileName] ino]|] eqn:Hr.
    + destruct Hone as (-> & _ & ->).
      pose proof (resolveLine_listed _ _ Hr) as Hfact.
      split; [rewrite Hf; reflexivity|].
      split; [rewrite Hreg; destruct pManager; reflexivity|].
      split; [rewrite Hlc; destruct pManager; reflexivity|].
      split; [rewrite Hq; destruct pManager; reflexivity|].
      split.
      * intros fact Hl Hc. apply Hkeep; [exact Hl|].
        replace (dcacheMap (with_dcacheMap _ pManager))
          with (storeFileDentry (t_store clk parIno) indexInfo parIno fileName ino
                  (dcacheMap pManager)) by (destruct pManager; reflexivity).
        apply (storeFileDentry_preserves _ _ fact (parIno, fileName, ino)); assumption.
      * intros f fact [<-|Hin] Hp Hrf; [|eapply Hnew; eassumption].
        rewrite Hr in Hrf. injection Hrf as <-.
        apply Hkeep; [exact Hfact|].
        replace (dcacheMap (with_dcacheMap _ pManager))
          with (storeFileDentry (t_store clk parIno) indexInfo parIno fileName ino
                  (dcacheMap pManager)) by (destruct pManager; reflexivity).
        apply storeFileDentry_establishes.
    + destruct Hone as (-> & _ & ->).
      split; [rewrite Hf; reflexivity|]. split; [exact Hreg|]. split; [exact Hlc|].
      split; [exact Hq|]. split; [exact Hkeep|].
      intros f fact [<-|Hin] Hp Hrf; [congruence | eapply Hnew; eassumption].
Qed.

End LoadIndexResolution.

(** ** What loading an index leaves *)

Section LoadIndexOutcome.

Lemma readIndexFileByLine_Done (pManager : PrefetchManager) (store store1 : list IndexInfo.t)
    (indexInfo : index_ptr) (file : list string * option error + error)
    (err : option error) :
  readIndexFileByLine pManager store indexInfo file = Done (err, store1) ->
  exists info files,
    store !! indexInfo = Some info
    /\ store1 !! indexInfo = Some (withFiles info files)
    /\ store1 = <[indexInfo := withFiles info files]> store.
Proof.
  unfold readIndexFileByLine. destruct (store !! indexInfo) as [info|] eqn:Hi;
    [|discriminate].
  destruct file as [[lines scanErr]|openErr].
  - destruct (capOutOfRange (capacityHint (IndexInfo.datasetCnt info))); [discriminate|].
    intros H. injection H as <- <-. eexists. eexists. split; [reflexivity|].
    split; [|reflexivity].
    apply list_lookup_insert_eq. eapply lookup_lt_Some. exact Hi.
  - intros H. injection H as <- <-. exists info, (IndexInfo.fileInfoMap info).
    assert (Hsame : withFiles info (IndexInfo.fileInfoMap info) = info)
      by (destruct info; reflexivity).
    rewrite Hsame. split; [reflexivity|]. split; [exact Hi|].
    symmetry. apply list_insert_id. exact Hi.
Qed.

(** X9. When the index file cannot be opened or scanned, [LoadIndex]
    returns that error, the path of the index is no longer registered, no
    directory is resolved and no dentry cache is touched. *)
Theorem LoadIndex_read_failure (dc : DirClient) (clk : loadClock)
    (pManager : PrefetchManager) (store store1 : list IndexInfo.t) (indexInfo : index_ptr)
    (file : list string * option error + error) (err : error) :
  readIndexFileByLine pManager store indexInfo file = Done (Some err, store1) ->
  exists info p',
    store !! indexInfo = Some info
    /\ LoadIndex dc clk pManager store indexInfo file = Done (Some err, p', store1, [])
    /\ indexFileInfoMap p' !! IndexInfo.path info = None
    /\ (forall key, key <> IndexInfo.path info ->
                    indexFileInfoMap p' !! key = indexFileInfoMap pManager !! key)
    /\ dcacheMap p' = dcacheMap pManager.
Proof.
  intros Hread. unfold LoadIndex. rewrite Hread.
  destruct (readIndexFileByLine_Done _ _ _ _ _ _ Hread) as (info & files & Hi & Hi1 & _).
  rewrite Hi1. exists info. eexists. split; [exact Hi|]. split; [reflexivity|].
  destruct pManager; cbn. split; [apply lookup_delete_eq|].
  split; [|reflexivity]. intros key Hne. apply lookup_delete_ne. congruence.
Qed.

(** The index file of the registered ["/idx/a.txt"] cannot be opened. *)
Lemma LoadIndex_read_failure_scenario :
  exists p',
    LoadIndex Scenario.dirs Scenario.load_clock Scenario.manager_added
      Scenario.store_added 0%nat (inr (ErrExternal "permission denied"))
    = Done (Some (ErrExternal "permission denied"), p', Scenario.store_added, [])
    /\ indexFileInfoMap p' !! "/idx/a.txt"%string = None.
Proof.
  destruct (LoadIndex_read_failure Scenario.dirs Scenario.load_clock
              Scenario.manager_added Scenario.store_added Scenario.store_added 0%nat
              (inr (ErrExternal "permission denied")) (ErrExternal "permission denied")
              eq_refl) as (info & p' & Hi & Hcall & Hreg & _).
  exists p'. split; [exact Hcall|].
  injection Hi as <-. exact Hreg.
Defined.

(** X10. When the index file has been read, [LoadIndex] returns no error,
    whatever happens to single lines. The path of the index is registered,
    to the object that was registered before or else to the one loaded; the
    registered object and the loaded one hold the lines just parsed, in
    order, each with the inode the snapshot gives for its path (the child of
    that base name in the listing of the directory) or with 0 when there is
    none; and every mapping so found is in the dentry cache of its parent
    inode in [dcacheMap]. *)
Theorem LoadIndex_resolves (dc : DirClient) (clk : loadClock)
    (pManager : PrefetchManager) (store store1 : list IndexInfo.t) (indexInfo : index_ptr)
    (file : list string * option error + error) (info : IndexInfo.t) :
  registry_ok pManager store ->
  readIndexFileByLine pManager store indexInfo file = Done (None, store1) ->
  store1 !! indexInfo = Some info ->
  exists actual p' store2 listed,
    LoadIndex dc clk pManager store indexInfo file = Done (None, p', store2, listed)
    /\ indexFileInfoMap p' !! IndexInfo.path info = Some actual
    /\ (actual = indexInfo
        \/ indexFileInfoMap pManager !! IndexInfo.path info = Some actual)
    /\ IndexInfo.fileInfoMap <$> store2 !! actual
       = Some (List.map (resolvedFile dc) (IndexInfo.fileInfoMap info))
    /\ IndexInfo.fileInfoMap <$> store2 !! indexInfo
       = Some (List.map (resolvedFile dc) (IndexInfo.fileInfoMap info))
    /\ (forall fInfo fact,
          In fInfo (IndexInfo.fileInfoMap info) ->
          FileInfo.path fInfo <> ""%string ->
          resolveLine dc (FileInfo.path fInfo) = Some fact ->
          dentryCached (dcacheMap p') fact).
Proof.
  intros Hok Hread Hinfo. unfold LoadIndex. rewrite Hread, Hinfo.
  destruct (readIndexFileByLine_Done _ _ _ _ _ _ Hread)
    as (info0 & files0 & Hi0 & Hi1 & Hstore1).
  assert (Hlen : forall j, is_Some (store !! j) -> is_Some (store1 !! j)).
  { intros j [x Hx]. apply lookup_lt_is_Some. rewrite Hstore1, length_insert.
    eapply lookup_lt_Some. exact Hx. }
  destruct (indexFileInfoMap pManager !! IndexInfo.path info) as [found|] eqn:Hreg.
  - destruct (Hok _ _ Hreg) as (fi & Hfi & _).
    destruct (Hlen found (ex_intro _ fi Hfi)) as [actualInfo Hactual].
    rewrite Hactual.
    pose proof (resolveFiles_spec dc clk
                  (withFiles actualInfo (IndexInfo.fileInfoMap info))
                  (IndexInfo.fileInfoMap info) ∅
                  (with_indexFileInfoMap (indexFileInfoMap pManager) pManager) []) as Hres.
    destruct (resolveFiles _ _ _ _ _ _ _) as [[[files scratch] p'] listed].
    destruct Hres as (Hf & Hr & _ & _ & _ & Hnew).
    { intros d dInfo H. rewrite lookup_empty in H. discriminate H. }
    exists found, p'. eexists. exists listed. split; [reflexivity|].
    split; [rewrite Hr; destruct pManager; exact Hreg|].
    split; [right; reflexivity|].
    assert (Hlt : (found < List.length store1)%nat)
      by (eapply lookup_lt_Some; exact Hactual).
    assert (Hlt' : (indexInfo < List.length store1)%nat)
      by (eapply lookup_lt_Some; exact Hinfo).
    split; [rewrite list_lookup_insert_eq by (rewrite length_insert; exact Hlt);
            rewrite <- Hf; reflexivity|].
    split; [|exact Hnew].
    destruct (decide (found = indexInfo)) as [->|Hne].
    + rewrite list_lookup_insert_eq by (rewrite length_insert; exact Hlt').
      rewrite <- Hf. reflexivity.
    + rewrite list_lookup_insert_ne by exact Hne.
      rewrite list_lookup_insert_eq by exact Hlt'. rewrite <- Hf. reflexivity.
  - rewrite Hinfo.
    pose proof (resolveFiles_spec dc clk
                  (withFiles info (IndexInfo.fileInfoMap info))
                  (IndexInfo.fileInfoMap info) ∅
                  (with_indexFileInfoMap
                     (<[IndexInfo.path info := indexInfo]> (indexFileInfoMap pManager))
                     pManager) []) as Hres.
    destruct (resolveFiles _ _ _ _ _ _ _) as [[[files scratch] p'] listed].
    destruct Hres as (Hf & Hr & _ & _ & _ & Hnew).
    { intros d dInfo H. rewrite lookup_empty in H. discriminate H. }
    exists indexInfo, p'. eexists. exists listed. split; [reflexivity|].
    split; [rewrite Hr; destruct pManager; apply lookup_insert_eq|].
    split; [left; reflexivity|].
    assert (Hlt' : (indexInfo < List.length store1)%nat)
      by (eapply lookup_lt_Some; exact Hinfo).
    split; [rewrite list_lookup_insert_eq by (rewrite length_insert; exact Hlt');
            rewrite <- Hf; reflexivity|].
    split; [|exact Hnew].
    rewrite list_lookup_insert_eq by (rewrite length_insert; exact Hlt').
    rewrite <- Hf. reflexivity.
Qed.

(** The scenario of the specification with a third line added: [f1] and
    [f2] get the inodes 101 and 102 and are in the dentry cache of inode
    100; the line under the directory that does not exist keeps inode 0. *)
Lemma LoadIndex_resolves_scenario :
  exists p' store2 listed,
    LoadIndex Scenario.dirs Scenario.load_clock Scenario.manager_added
      Scenario.store_added 0%nat (inl (Scenario.lines_a, None))
    = Done (None, p', store2, listed)
    /\ IndexInfo.fileInfoMap <$> store2 !! 0%nat
       = Some [FileInfo.mk "/d1/f1" 101 false; FileInfo.mk "/d1/f2" 102 false;
               FileInfo.mk "/d9/f3" 0 false]
    /\ dentryCached (dcacheMap p') (100, "f1"%string, 101)
    /\ dentryCached (dcacheMap p') (100, "f2"%string, 102).
Proof.
  destruct (LoadIndex_resolves Scenario.dirs Scenario.load_clock
              Scenario.manager_added Scenario.store_added
              [IndexInfo.mk "/idx/a.txt" "2" 300 5
                 [FileInfo.mk "/d1/f1" 0 false; FileInfo.mk "/d1/f2" 0 false;
                  FileInfo.mk "/d9/f3" 0 false]]
              0%nat (inl (Scenario.lines_a, None))
              (IndexInfo.mk "/idx/a.txt" "2" 300 5
                 [FileInfo.mk "/d1/f1" 0 false; FileInfo.mk "/d1/f2" 0 false;
                  FileInfo.mk "/d9/f3" 0 false]))
    as (actual & p' & store2 & listed & Hcall & Hreg & _ & _ & Hfiles & Hfacts).
  - intros key l H. unfold Scenario.manager_added in H. cbn [indexFileInfoMap] in H.
    apply lookup_singleton_Some in H. destruct H as [<- <-].
    eexists. split; reflexivity.
  - vm_compute. reflexivity.
  - reflexivity.
  - exists p', store2, listed. split; [exact Hcall|]. split; [exact Hfiles|]. split.
    + apply (Hfacts (FileInfo.mk "/d1/f1" 0 false));
        [left; reflexivity | discriminate | reflexivity].
    + apply (Hfacts (FileInfo.mk "/d1/f2" 0 false));
        [right; left; reflexivity | discriminate | reflexivity].
Defined.

End LoadIndexOutcome.

(** ** Directories are listed once per load *)

Section ListedOnce.

Variable dc : DirClient.

Lemma timesListed_app (d : string) (l1 l2 : list string) :
  timesListed d (l1 ++ l2) = (timesListed d l1 + timesListed d l2)%nat.
Proof. unfold timesListed. rewrite List.filter_app, length_app. reflexivity. Qed.

Lemma getFileInode_listed (clk : loadClock) (pManager : PrefetchManager)
    (scratch : gmap string DentryInfo.t) (cfsPath : string) (indexInfo : IndexInfo.t)
    (listed : list string) :
  (forall d, dirResolves dc d ->
             (timesListed d listed <= 1)%nat
             /\ (0 < timesListed d listed -> is_Some (scratch !! d))%nat) ->
  let '(_, _, scratch', _, called) :=
    getFileInode dc clk pManager scratch cfsPath indexInfo in
  forall d, dirResolves dc d ->
            (timesListed d (listed ++ called) <= 1)%nat
            /\ (0 < timesListed d (listed ++ called) -> is_Some (scratch' !! d))%nat.
Proof.
  intros J. unfold getFileInode.
  destruct (pathSplit cfsPath) as [dirPath fileName].
  destruct (scratch !! dirPath) as [dInfo|] eqn:Hs.
  { destruct (DentryCache.Get fileName (DentryInfo.dcache dInfo));
      intros d Hd; rewrite app_nil_r; apply J; exact Hd. }
  unfold getDirInfo.
  assert (Hother : forall d, d <> dirPath -> timesListed d (listed ++ [dirPath])
                                             = timesListed d listed).
  { intros d Hne. rewrite timesListed_app. unfold timesListed at 2. cbn.
    destruct (String.eqb_spec d dirPath); [contradiction|]. cbn. lia. }
  assert (Hfail : ~ dirResolves dc dirPath ->
                  forall d, dirResolves dc d ->
                    (timesListed d (listed ++ [dirPath]) <= 1)%nat
                    /\ (0 < timesListed d (listed ++ [dirPath])
                        -> is_Some (scratch !! d))%nat).
  { intros Hno d Hd. assert (Hne : d <> dirPath) by (intros ->; contradiction).
    rewrite (Hother d Hne). apply J. exact Hd. }
  destruct (lookupPath dc dirPath) as [parIno|err] eqn:Hlp.
  2:{ apply Hfail. intros (a & c & H & _). congruence. }
  destruct (readdir dc parIno) as [children|err] eqn:Hrd.
  2:{ apply Hfail. intros (a & c & H1 & H2). rewrite Hlp in H1. injection H1 as <-.
      congruence. }
  assert (Hsucc : forall d, dirResolves dc d ->
            (timesListed d (listed ++ [dirPath]) <= 1)%nat
            /\ (0 < timesListed d (listed ++ [dirPath]) ->
                is_Some (<[dirPath := DentryInfo.mk parIno
                                        (dirCache (t_dir clk dirPath) children)]> scratch
                         !! d))%nat).
  { intros d Hd. destruct (decide (d = dirPath)) as [->|Hne].
    - destruct (J dirPath Hd) as [J1 J2].
      assert (Hzero : timesListed dirPath listed = O).
      { destruct (timesListed dirPath listed) as [|k] eqn:E; [reflexivity|].
        destruct J2 as [x Hx]; [lia|]. congruence. }
      rewrite timesListed_app, Hzero. unfold timesListed. cbn.
      rewrite String.eqb_refl. cbn. split; [lia|]. intros _.
      rewrite lookup_insert_eq. eauto.
    - rewrite (Hother d Hne). destruct (J d Hd) as [J1 J2]. split; [exact J1|].
      intros H. rewrite lookup_insert_ne by congruence. apply J2. exact H. }
  cbn [DentryInfo.dcache DentryInfo.parIno].
  destruct (DentryCache.Get fileName (dirCache (t_dir clk dirPath) children));
    exact Hsucc.
Qed.

Lemma resolveFiles_listed (clk : loadClock) (indexInfo : IndexInfo.t)
    (files : list FileInfo.t) :
  forall (scratch : gmap string DentryInfo.t) (pManager : PrefetchManager)
         (listed : list string),
    (forall d, dirResolves dc d ->
               (timesListed d listed <= 1)%nat
               /\ (0 < timesListed d listed -> is_Some (scratch !! d))%nat) ->
    let '(_, _, _, listed') :=
      resolveFiles dc clk indexInfo files scratch pManager listed in
    forall d, dirResolves dc d -> (timesListed d listed' <= 1)%nat.
Proof.
  induction files as [|fInfo rest IH]; intros scratch pManager listed J;
    cbn [resolveFiles].
  { intros d Hd. apply J. exact Hd. }
  destruct (String.eqb (FileInfo.path fInfo) "").
  - specialize (IH scratch pManager listed J).
    destruct (resolveFiles dc clk indexInfo rest scratch pManager listed)
      as [[[files' scratch'] p'] listed'].
    exact IH.
  - pose proof (getFileInode_listed clk pManager scratch (FileInfo.path fInfo)
                  indexInfo listed J) as Hone.
    destruct (getFileInode dc clk pManager scratch (FileInfo.path fInfo) indexInfo)
      as [[[[inoID err] scratch1] p1] called].
    specialize (IH scratch1 p1 (listed ++ called) Hone).
    destruct (resolveFiles dc clk indexInfo rest scratch1 p1 (listed ++ called))
      as [[[files' scratch'] p'] listed'].
    exact IH.
Qed.

(** X11. In one [LoadIndex], whatever the lines: a directory path that the
    file system resolves and lists is handed to [getDirInfo] at most once,
    however many lines lie under it. *)
Theorem LoadIndex_lists_directory_once (clk : loadClock) (pManager : PrefetchManager)
    (store : list IndexInfo.t) (indexInfo : index_ptr)
    (file : list string * option error + error) :
  match LoadIndex dc clk pManager store indexInfo file with
  | Done (_, _, _, listed) =>
      forall dirPath, dirResolves dc dirPath -> (timesListed dirPath listed <= 1)%nat
  | Panic _ => True
  end.
Proof.
  unfold LoadIndex.
  destruct (readIndexFileByLine pManager store indexInfo file) as [[[err|] store1]|msg];
    [| |exact I].
  { destruct (store1 !! indexInfo); [|exact I]. intros d _. cbn. lia. }
  destruct (store1 !! indexInfo) as [info|]; [|exact I].
  destruct (match indexFileInfoMap pManager !! IndexInfo.path info with
            | Some found => (found, indexFileInfoMap pManager)
            | None => (indexInfo,
                       <[IndexInfo.path info := indexInfo]> (indexFileInfoMap pManager))
            end) as [actual registry].
  destruct (store1 !! actual) as [actualInfo|]; [|exact I].
  pose proof (resolveFiles_listed clk
                (withFiles actualInfo (IndexInfo.fileInfoMap info))
                (IndexInfo.fileInfoMap info) ∅
                (with_indexFileInfoMap registry pManager) []) as H.
  destruct (resolveFiles _ _ _ _ _ _ _) as [[[files scratch] p'] listed].
  apply H. intros d _. split; [cbn; lia | cbn; lia].
Qed.

End ListedOnce.

(** ** The invariant of the registry *)

Section RegistryInvariant.

Lemma registry_ok_insert_files (registry : gmap string index_ptr)
    (store : list IndexInfo.t) (l : index_ptr) (info new : IndexInfo.t) :
  (forall key j, registry !! key = Some j ->
                 exists x, store !! j = Some x /\ IndexInfo.path x = key) ->
  store !! l = Some info ->
  IndexInfo.path new = IndexInfo.path info ->
  forall key j, registry !! key = Some j ->
    exists x, <[l := new]> store !! j = Some x /\ IndexInfo.path x = key.
Proof.
  intros Hok Hl Hnew key j H. destruct (Hok key j H) as (x & Hx & Hp).
  destruct (decide (l = j)) as [->|Hne].
  - rewrite list_lookup_insert_eq by (eapply lookup_lt_Some; exact Hx).
    eexists. split; [reflexivity|]. rewrite Hl in Hx. injection Hx as <-.
    rewrite Hnew. exact Hp.
  - rewrite list_lookup_insert_ne by exact Hne. eauto.
Qed.

(** X12. The registry keeps its invariant, that every key leads to an
    index whose [path] is the key, under the three operations that change
    it or the indexes: [AddIndexFilepath] with any outcome, [LoadIndex] with
    any outcome short of a panic, and a tick of the janitor. *)
Theorem registry_ok_preserved (pManager : PrefetchManager) (store : list IndexInfo.t) :
  registry_ok pManager store ->
  (forall clk notExist datasetCnt path ttlMinute,
      let '(_, p', store') :=
        AddIndexFilepath clk notExist pManager store datasetCnt path ttlMinute in
      registry_ok p' store')
  /\ (forall dc clk indexInfo file,
        match LoadIndex dc clk pManager store indexInfo file with
        | Done (_, p', store', _) => registry_ok p' store'
        | Panic _ => True
        end)
  /\ (forall clk, registry_ok (cleanExpiredIndexInfo_tick clk store pManager) store).
Proof.
  intros Hok. split; [|split].
  - intros clk notExist datasetCnt path ttlMinute.
    pose proof (AddIndexFilepath_registry_ok clk notExist pManager store datasetCnt path
                  ttlMinute Hok) as H.
    destruct (AddIndexFilepath _ _ _ _ _ _ _) as [[err p'] store']. exact H.
  - intros dc clk indexInfo file. unfold LoadIndex.
    destruct (readIndexFileByLine pManager store indexInfo file)
      as [[err store1]|msg] eqn:Hread; [|exact I].
    destruct (readIndexFileByLine_Done _ _ _ _ _ _ Hread)
      as (info0 & files0 & Hi0 & Hi1 & Hstore1).
    assert (Hok1 : forall key j, indexFileInfoMap pManager !! key = Some j ->
                     exists x, store1 !! j = Some x /\ IndexInfo.path x = key).
    { rewrite Hstore1.
      apply (registry_ok_insert_files _ _ _ info0); [exact Hok | exact Hi0 | reflexivity]. }
    rewrite Hi1. destruct err as [err|].
    { intros key j H. destruct pManager; cbn in *.
      destruct (decide (IndexInfo.path info0 = key)) as [<-|Hne].
      - rewrite lookup_delete_eq in H. discriminate H.
      - rewrite lookup_delete_ne in H by exact Hne. apply Hok1. exact H. }
    set (info := withFiles info0 files0) in *.
    destruct (indexFileInfoMap pManager !! IndexInfo.path info) as [found|] eqn:Hreg.
    + destruct (Hok1 _ _ Hreg) as (actualInfo & Hactual & _). rewrite Hactual.
      pose proof (resolveFiles_spec dc clk
                    (withFiles actualInfo (IndexInfo.fileInfoMap info))
                    (IndexInfo.fileInfoMap info) ∅
                    (with_indexFileInfoMap (indexFileInfoMap pManager) pManager) [])
        as Hres.
      destruct (resolveFiles _ _ _ _ _ _ _) as [[[files scratch] p'] listed].
      destruct Hres as (_ & Hr & _).
      { intros d dInfo H. rewrite lookup_empty in H. discriminate H. }
      intros key j H. rewrite Hr in H.
      replace (indexFileInfoMap (with_indexFileInfoMap _ pManager))
        with (indexFileInfoMap pManager) in H by (destruct pManager; reflexivity).
      revert key j H.
      assert (Hok2 : forall key j, indexFileInfoMap pManager !! key = Some j ->
                exists x, <[indexInfo := withFiles info files]> store1 !! j = Some x
                          /\ IndexInfo.path x = key).
      { apply (registry_ok_insert_files _ _ _ info); [exact Hok1 | exact Hi1 | reflexivity]. }
      destruct (Hok2 _ _ Hreg) as (x & Hx & Hp).
      apply (registry_ok_insert_files _ _ _ x); [exact Hok2 | exact Hx |].
      cbn. rewrite Hp. destruct (Hok1 _ _ Hreg) as (y & Hy & Hq).
      rewrite Hactual in Hy. injection Hy as <-. exact Hq.
    + rewrite Hi1.
      pose proof (resolveFiles_spec dc clk
                    (withFiles info (IndexInfo.fileInfoMap info))
                    (IndexInfo.fileInfoMap info) ∅
                    (with_indexFileInfoMap
                       (<[IndexInfo.path info := indexInfo]> (indexFileInfoMap pManager))
                       pManager) []) as Hres.
      destruct (resolveFiles _ _ _ _ _ _ _) as [[[files scratch] p'] listed].
      destruct Hres as (_ & Hr & _).
      { intros d dInfo H. rewrite lookup_empty in H. discriminate H. }
      intros key j H. rewrite Hr in H.
      replace (indexFileInfoMap (with_indexFileInfoMap _ pManager))
        with (<[IndexInfo.path info := indexInfo]> (indexFileInfoMap pManager)) in H
        by (destruct pManager; reflexivity).
      assert (Hlt : (indexInfo < List.length store1)%nat)
        by (eapply lookup_lt_Some; exact Hi1).
      destruct (decide (IndexInfo.path info = key)) as [<-|Hne].
      * rewrite lookup_insert_eq in H. injection H as <-.
        rewrite list_lookup_insert_eq by (rewrite length_insert; exact Hlt).
        eexists. split; reflexivity.
      * rewrite lookup_insert_ne in H by exact Hne. revert key j H Hne.
        intros key j H _. revert key j H.
        apply (registry_ok_insert_files _ _ _ (withFiles info files)).
        -- apply (registry_ok_insert_files _ _ _ info);
             [exact Hok1 | exact Hi1 | reflexivity].
        -- rewrite list_lookup_insert_eq by exact Hlt. reflexivity.
        -- reflexivity.
  - intros clk key l H. rewrite tick_indexFileInfoMap, sweepIndexInfo_lookup in H.
    destruct (indexFileInfoMap pManager !! key) as [l0|] eqn:Hreg; [|discriminate H].
    destruct (Hok key l0 Hreg) as (x & Hx & Hp). rewrite Hx in H.
    destruct (indexExpired (t_index clk key) x); [discriminate H|].
    injection H as <-. eauto.
Qed.

(** A new manager has an empty registry; an index added to it and loaded. *)
Lemma registry_ok_preserved_scenario :
  registry_ok (NewPrefetchManager "v" "/mnt/v") []
  /\ registry_ok Scenario.manager_added Scenario.store_added
  /\ match LoadIndex Scenario.dirs Scenario.load_clock Scenario.manager_added
             Scenario.store_added 0%nat (inl (Scenario.lines_a, None)) with
     | Done (_, p', store', _) => registry_ok p' store'
     | Panic _ => True
     end.
Proof.
  assert (H0 : registry_ok (NewPrefetchManager "v" "/mnt/v") []).
  { intros key l H. cbn in H. rewrite lookup_empty in H. discriminate H. }
  split; [exact H0|].
  assert (H1 : registry_ok Scenario.manager_added Scenario.store_added).
  { intros key l H. unfold Scenario.manager_added in H. cbn [indexFileInfoMap] in H.
    apply lookup_singleton_Some in H. destruct H as [<- <-].
    eexists. split; reflexivity. }
  split; [exact H1|].
  exact (proj1 (proj2 (registry_ok_preserved _ _ H1)) Scenario.dirs Scenario.load_clock
           0%nat (inl (Scenario.lines_a, None))).
Defined.

End RegistryInvariant.

(** ** Shutdown *)

Section Shutdown.

Lemma LookupPathByCache_frame (ec : ExtentClient) (now : Z -> GoTime.Time)
    (pManager : PrefetchManager) (absPath : string) :
  let p := snd (fst (LookupPathByCache ec now pManager absPath)) in
  downloadChan p = downloadChan pManager /\ isClosed p = isClosed pManager.
Proof.
  unfold LookupPathByCache.
  destruct (negb _); [split; reflexivity|].
  destruct (_ || _)%bool; [split; reflexivity|].
  destruct (lookupDirs _ _ _ _ _ _ _ _) as [[res lc] tr]. split; reflexivity.
Qed.

Lemma ReadData_frame (ec : ExtentClient) (pool : BlockPool) (now : Z -> GoTime.Time)
    (pManager : PrefetchManager) (ws : gmap resp_ptr BatchDownloadRespWriter)
    (dInfo : DownloadFileInfo) :
  let p := snd (fst (fst (ReadData ec pool now pManager ws dInfo))) in
  downloadChan p = downloadChan pManager /\ isClosed p = isClosed pManager.
Proof.
  unfold ReadData.
  destruct (ReadData_deferred _ _ _ _) as [ws' tr]. cbn [fst snd].
  unfold ReadData_body.
  assert (H : let p := snd (fst (jobInode ec now pManager dInfo)) in
              downloadChan p = downloadChan pManager /\ isClosed p = isClosed pManager).
  { unfold jobInode. destruct (fileInfo dInfo) as [fi|];
      [destruct (FileInfo.inoID fi =? 0)|];
      try apply LookupPathByCache_frame. split; reflexivity. }
  destruct (jobInode ec now pManager dInfo) as [[res p] tr0]. cbn [fst snd] in H.
  destruct res as [inodeID|err]; [|exact H].
  destruct (OpenStream ec inodeID); [exact H|].
  destruct (FileSize ec inodeID) as [fileSize valid].
  destruct (_ || _)%bool; [exact H|].
  destruct (Read ec inodeID fileSize) as [data rerr]. exact H.
Qed.

(** The balance of a writer's counter against the jobs of it queued. *)
Lemma putDownloadChan_balance (pManager : PrefetchManager)
    (ws : gmap resp_ptr BatchDownloadRespWriter) (dInfo : DownloadFileInfo) (w : resp_ptr) :
  let '(_, p, ws') := putDownloadChan pManager ws dInfo in
  isClosed p = isClosed pManager
  /\ (fun c => c - queuedFor w (downloadChan p)) <$> wgOf w ws'
     = (fun c => c - queuedFor w (downloadChan pManager)) <$> wgOf w ws.
Proof.
  unfold putDownloadChan. destruct (isClosed pManager) eqn:Hc.
  - split; [exact Hc | reflexivity].
  - split; [destruct pManager; exact Hc|].
    rewrite wgOf_WgAdd.
    replace (downloadChan (with_downloadChan (downloadChan pManager ++ [dInfo]) pManager))
      with (downloadChan pManager ++ [dInfo]) by (destruct pManager; reflexivity).
    assert (Hq : queuedFor w (downloadChan pManager ++ [dInfo])
                 = queuedFor w (downloadChan pManager)
                   + (if Nat.eqb (resp dInfo) w then 1 else 0)).
    { induction (downloadChan pManager) as [|d rest IH]; cbn [queuedFor app]; lia. }
    rewrite Hq. destruct (wgOf w ws); cbn; [|reflexivity].
    f_equal. destruct (Nat.eqb (resp dInfo) w); lia.
Qed.

Lemma workerDownload_balance (ec : ExtentClient) (pool : BlockPool)
    (now : Z -> GoTime.Time) (pManager : PrefetchManager)
    (ws : gmap resp_ptr BatchDownloadRespWriter) (w : resp_ptr) :
  let '(p, ws', _) := workerDownload ec pool now pManager ws in
  isClosed p = isClosed pManager
  /\ (fun c => c - queuedFor w (downloadChan p)) <$> wgOf w ws'
     = (fun c => c - queuedFor w (downloadChan pManager)) <$> wgOf w ws.
Proof.
  unfold workerDownload. destruct (downloadChan pManager) as [|dInfo rest] eqn:Hq.
  - rewrite Hq. split; reflexivity.
  - pose proof (ReadData_frame ec pool now (with_downloadChan rest pManager) ws dInfo) as Hf.
    pose proof (ReadData_deferred_done pool dInfo
                  (ReadData_body ec pool now (with_downloadChan rest pManager) dInfo)
                  ws w) as [Hd _].
    unfold ReadData in *.
    destruct (ReadData_deferred _ _ _ _) as [ws' tr]. cbn [fst snd] in *.
    destruct Hf as [Hchan Hclosed]. split.
    + rewrite Hclosed. destruct pManager; reflexivity.
    + rewrite Hchan, Hd.
      replace (downloadChan (with_downloadChan rest pManager)) with rest
        by (destruct pManager; reflexivity).
      cbn [queuedFor]. destruct (wgOf w ws); cbn; [|reflexivity].
      f_equal. destruct (Nat.eqb (resp dInfo) w); lia.
Qed.

Lemma runDownloads_balance (ec : ExtentClient) (pool : BlockPool)
    (now : Z -> GoTime.Time) (ops : list downloadOp) :
  forall (pManager : PrefetchManager) (ws : gmap resp_ptr BatchDownloadRespWriter)
         (w : resp_ptr),
    let '(p, ws') := runDownloads ec pool now ops pManager ws in
    isClosed p = isClosed pManager
    /\ (fun c => c - queuedFor w (downloadChan p)) <$> wgOf w ws'
       = (fun c => c - queuedFor w (downloadChan pManager)) <$> wgOf w ws.
Proof.
  induction ops as [|op rest IH]; intros pManager ws w; cbn [runDownloads].
  - split; reflexivity.
  - destruct op as [dInfo|filePath respData|].
    + pose proof (putDownloadChan_balance pManager ws dInfo w) as H.
      destruct (putDownloadChan pManager ws dInfo) as [[err p] ws1].
      specialize (IH p ws1 w).
      destruct (runDownloads ec pool now rest p ws1) as [p2 ws2].
      destruct H as [H1 H2], IH as [I1 I2]. split; congruence.
    + unfold DownloadPath.
      pose proof (putDownloadChan_balance pManager ws
                    (mkDownload filePath None respData) w) as H.
      destruct (putDownloadChan pManager ws _) as [[err p] ws1].
      specialize (IH p ws1 w).
      destruct (runDownloads ec pool now rest p ws1) as [p2 ws2].
      destruct H as [H1 H2], IH as [I1 I2]. split; congruence.
    + pose proof (workerDownload_balance ec pool now pManager ws w) as H.
      destruct (workerDownload ec pool now pManager ws) as [[p ws1] tr].
      specialize (IH p ws1 w).
      destruct (runDownloads ec pool now rest p ws1) as [p2 ws2].
      destruct H as [H1 H2], IH as [I1 I2]. split; congruence.
Qed.

(** X13. Shutdown settles every wait group. On a manager that is not
    closed, after any sequence of offered jobs, offered paths and jobs
    served by a worker, [Close] completes, leaves the manager closed with
    an empty download queue, and leaves the counter of every writer at its
    value before the sequence less the jobs of that writer queued then: each
    job accepted since was counted up once and down once, by its handler or
    by the drain. From then on the three queues refuse what is offered and
    change nothing, and a second [Close] panics. *)
Theorem Close_settles_wait_groups (ec : ExtentClient) (pool : BlockPool)
    (now : Z -> GoTime.Time) (ops : list downloadOp) (pManager : PrefetchManager)
    (ws : gmap resp_ptr BatchDownloadRespWriter) :
  isClosed pManager = false ->
  let '(p1, ws1) := runDownloads ec pool now ops pManager ws in
  exists p2 ws2,
    Close p1 ws1 = Done (p2, ws2)
    /\ isClosed p2 = true
    /\ downloadChan p2 = []
    /\ (forall w, wgOf w ws2
                  = (fun c => c - queuedFor w (downloadChan pManager)) <$> wgOf w ws)
    /\ (forall dInfo, putDownloadChan p2 ws2 dInfo = (Some ErrClosed, p2, ws2))
    /\ (forall indexInfo, putIndexInfoChan p2 indexInfo = (Some ErrClosed, p2))
    /\ (forall fileInfo, putFilePathChan p2 fileInfo = (Some ErrClosed, p2))
    /\ Close p2 ws2 = Panic "close of closed channel".
Proof.
  intros Hopen.
  pose proof (runDownloads_balance ec pool now ops pManager ws) as Hb.
  destruct (runDownloads ec pool now ops pManager ws) as [p1 ws1].
  assert (Hc1 : isClosed p1 = false).
  { destruct (Hb 0%nat) as [-> _]. exact Hopen. }
  unfold Close. rewrite Hc1. unfold clearDownloadChan.
  eexists _, _. split; [reflexivity|].
  split; [destruct p1; reflexivity|].
  split; [destruct p1; reflexivity|].
  split.
  { intros w. rewrite drainDownloads_wg.
    replace (downloadChan (with_isClosed true p1)) with (downloadChan p1)
      by (destruct p1; reflexivity).
    destruct (Hb w) as [_ ->]. reflexivity. }
  repeat split; destruct p1; reflexivity.
Qed.

(** Two paths offered for the writer at address 0, one served, then
    [Close]: the counter is back at its first value. *)
Lemma Close_settles_wait_groups_scenario :
  isClosed Scenario.manager = false
  /\ exists p1 ws1 p2 ws2,
       runDownloads Scenario.ec Scenario.pool Scenario.now
         [OpDownloadPath "/mnt/v/d1/f1" 0%nat; OpDownloadPath "/mnt/v/d1/f2" 0%nat; OpWorker]
         Scenario.manager Scenario.writers = (p1, ws1)
       /\ List.length (downloadChan p1) = 1%nat
       /\ wgOf 0%nat ws1 = Some 2
       /\ Close p1 ws1 = Done (p2, ws2)
       /\ wgOf 0%nat ws2 = Some 1
       /\ wgOf 0%nat Scenario.writers = Some 1.
Proof.
  split; [reflexivity|].
  pose proof (Close_settles_wait_groups Scenario.ec Scenario.pool Scenario.now
                [OpDownloadPath "/mnt/v/d1/f1" 0%nat; OpDownloadPath "/mnt/v/d1/f2" 0%nat;
                 OpWorker]
                Scenario.manager Scenario.writers eq_refl) as H.
  destruct (runDownloads _ _ _ _ _ _) as [p1 ws1] eqn:Hrun.
  destruct H as (p2 & ws2 & Hclose & _ & _ & Hwg & _).
  exists p1, ws1, p2, ws2.
  split; [reflexivity|].
  assert (Hp : p1 = fst (runDownloads Scenario.ec Scenario.pool Scenario.now
                 [OpDownloadPath "/mnt/v/d1/f1" 0%nat; OpDownloadPath "/mnt/v/d1/f2" 0%nat;
                  OpWorker] Scenario.manager Scenario.writers))
    by (rewrite Hrun; reflexivity).
  assert (Hw : ws1 = snd (runDownloads Scenario.ec Scenario.pool Scenario.now
                 [OpDownloadPath "/mnt/v/d1/f1" 0%nat; OpDownloadPath "/mnt/v/d1/f2" 0%nat;
                  OpWorker] Scenario.manager Scenario.writers))
    by (rewrite Hrun; reflexivity).
  split; [rewrite Hp; vm_compute; reflexivity|].
  split; [rewrite Hw; vm_compute; reflexivity|].
  split; [exact Hclose|].
  split; [rewrite Hwg; vm_compute; reflexivity | vm_compute; reflexivity].
Defined.

End Shutdown.

(** ** The janitor's sweeps of the dentry caches *)

Section CacheSweeps.



End CacheSweeps.

(** ** Files by their line number *)

Section LinesByNumber.

Lemma lineAt_lineOf (store : list IndexInfo.t) (datasetCnt : string) (index : Z)
    (value : index_ptr) (info : IndexInfo.t) :
  0 <= index ->
  store !! value = Some info ->
  lineAt store datasetCnt index value = Done (lineOf datasetCnt index info).
Proof.
  intros Hindex Hinfo. unfold lineAt, lineOf. rewrite Hinfo.
  destruct (String.eqb (IndexInfo.datasetCnt info) datasetCnt); [|reflexivity].
  cbn [negb]. destruct (Z.leb_spec (Z.of_nat (List.length (IndexInfo.fileInfoMap info))) index)
    as [Hout|Hin].
  - rewrite (lookup_ge_None_2 (IndexInfo.fileInfoMap info) (Z.to_nat index)) by lia.
    reflexivity.
  - destruct (lookup_lt_is_Some_2 (IndexInfo.fileInfoMap info) (Z.to_nat index))
      as [fileInfo ->]; [lia|].
    destruct (String.eqb (FileInfo.path fileInfo) ""); reflexivity.
Qed.

(** The lines of the entries of a visit. *)
Lemma PrefetchByIndex_range_spec (store : list IndexInfo.t) (datasetCnt : string)
    (index : Z) (visit : list (string * index_ptr)) :
  0 <= index ->
  Forall (fun entry => is_Some (store !! snd entry)) visit ->
  forall pManager : PrefetchManager,
    let found :=
      omap (fun entry : string * index_ptr =>
              match store !! snd entry with
              | Some info => lineOf datasetCnt index info
              | None => None
              end) visit in
    PrefetchByIndex_range store datasetCnt index visit pManager
    = Done (if isClosed pManager
            then (match found with [] => None | _ :: _ => Some ErrClosed end, pManager)
            else (None, with_filePathChan (filePathChan pManager ++ found) pManager)).
Proof.
  intros Hindex Hres. induction Hres as [|[key value] rest [info Hinfo] _ IH];
    intros pManager; cbn [PrefetchByIndex_range].
  - cbn. rewrite app_nil_r. destruct pManager as [? ? ? ? ? ? ? ? ? ? closed].
    destruct closed; reflexivity.
  - cbn [snd] in Hinfo. rewrite (lineAt_lineOf _ _ _ _ _ Hindex Hinfo).
    cbn [omap list_omap snd]. rewrite Hinfo.
    destruct (lineOf datasetCnt index info) as [fileInfo|]; [|apply IH].
    unfold putFilePathChan. destruct (isClosed pManager) eqn:Hclosed; [reflexivity|].
    rewrite IH.
    replace (isClosed (with_filePathChan (filePathChan pManager ++ [fileInfo]) pManager))
      with false by (destruct pManager; cbn in *; congruence).
    f_equal. f_equal. destruct pManager; cbn. rewrite <- app_assoc. reflexivity.
Qed.

Lemma registry_ok_resolves (pManager : PrefetchManager) (store : list IndexInfo.t)
    (visit : list (string * index_ptr)) :
  registry_ok pManager store ->
  Permutation visit (map_to_list (indexFileInfoMap pManager)) ->
  Forall (fun entry => is_Some (store !! snd entry)) visit.
Proof.
  intros Hok Hperm. apply Forall_forall. intros [key value] Hin.
  rewrite Hperm in Hin. apply elem_of_map_to_list in Hin.
  destruct (Hok key value Hin) as (info & Hinfo & _). exists info. exact Hinfo.
Qed.

(** X15. [PrefetchByIndex] completes whatever the order of the visit. On
    an open manager it returns no error and has queued, after what was
    queued, the non-empty lines of that number of every registered index of
    the dataset, once each, and nothing else of the manager is changed. On
    a closed manager it queues nothing and returns the closed error exactly
    when there is such a line. *)
Theorem PrefetchByIndex_queues_lines (visit : list (string * index_ptr))
    (pManager : PrefetchManager) (store : list IndexInfo.t) (datasetCnt : string)
    (index : Z) :
  registry_ok pManager store ->
  Permutation visit (map_to_list (indexFileInfoMap pManager)) ->
  0 <= index ->
  exists err p',
    PrefetchByIndex visit pManager store datasetCnt index = Done (err, p')
    /\ (isClosed pManager = false ->
        err = None
        /\ exists queued,
             Permutation queued
               (linesAt store datasetCnt index (indexFileInfoMap pManager))
             /\ p' = with_filePathChan (filePathChan pManager ++ queued) pManager)
    /\ (isClosed pManager = true ->
        p' = pManager
        /\ (err = Some ErrClosed
            <-> linesAt store datasetCnt index (indexFileInfoMap pManager) <> [])
        /\ (err = None
            <-> linesAt store datasetCnt index (indexFileInfoMap pManager) = [])).
Proof.
  intros Hok Hperm Hindex. unfold PrefetchByIndex.
  rewrite (PrefetchByIndex_range_spec store datasetCnt index visit Hindex
             (registry_ok_resolves _ _ _ Hok Hperm) pManager).
  cbv zeta.
  set (f := fun entry : string * index_ptr =>
              match store !! snd entry with
              | Some info => lineOf datasetCnt index info
              | None => None
              end).
  assert (Hfound : Permutation (omap f visit)
                     (linesAt store datasetCnt index (indexFileInfoMap pManager))).
  { unfold linesAt. fold f. rewrite Hperm. reflexivity. }
  destruct (isClosed pManager) eqn:Hclosed.
  - eexists _, _. split; [reflexivity|]. split; [discriminate|].
    intros _. split; [reflexivity|].
    destruct (omap f visit) as [|x rest] eqn:Hf.
    + apply Permutation_nil_l in Hfound. rewrite Hfound.
      split; split; congruence.
    + split; split; try congruence.
      * intros _ Hnil. rewrite Hnil in Hfound.
        apply Permutation_nil_r in Hfound. discriminate Hfound.
      * intros Hnil. rewrite Hnil in Hfound.
        apply Permutation_nil_r in Hfound. discriminate Hfound.
  - eexists _, _. split; [reflexivity|]. split; [|discriminate].
    intros _. split; [reflexivity|]. exists (omap f visit). split; [exact Hfound | reflexivity].
Qed.

Lemma registry_two :
  indexFileInfoMap Scenario.manager_two
  = <["/idx/a.txt"%string := 0%nat]> {["/idx/b.txt"%string := 1%nat]}.
Proof. reflexivity. Qed.

Lemma registry_ok_two : registry_ok Scenario.manager_two Scenario.store_two.
Proof.
  intros key l H. rewrite registry_two in H.
  apply lookup_insert_Some in H. destruct H as [[<- <-]|[_ H]].
  - eexists. split; reflexivity.
  - apply lookup_singleton_Some in H. destruct H as [<- <-].
    eexists. split; reflexivity.
Qed.

(** Of the two registered indexes, the one of dataset ["2"] has a line 1. *)
Lemma PrefetchByIndex_queues_lines_scenario :
  exists p',
    PrefetchByIndex (map_to_list (indexFileInfoMap Scenario.manager_two))
      Scenario.manager_two Scenario.store_two "2" 1 = Done (None, p')
    /\ filePathChan p' = [FileInfo.mk "/d1/f2" 102 false].
Proof.
  destruct (PrefetchByIndex_queues_lines
              (map_to_list (indexFileInfoMap Scenario.manager_two))
              Scenario.manager_two Scenario.store_two "2" 1
              registry_ok_two (Permutation_refl _) ltac:(lia))
    as (err & p' & Hrun & Hopen & _).
  destruct (Hopen eq_refl) as (-> & queued & Hq & ->).
  eexists. split; [exact Hrun|].
  assert (Hl : linesAt Scenario.store_two "2" 1 (indexFileInfoMap Scenario.manager_two)
               = [FileInfo.mk "/d1/f2" 102 false]) by (vm_compute; reflexivity).
  rewrite Hl in Hq. apply Permutation_singleton_r in Hq. rewrite Hq. reflexivity.
Defined.

Lemma GetBatchFileInfos_range_spec (store : list IndexInfo.t) (datasetCnt : string)
    (index : Z) (visit : list (string * index_ptr)) :
  0 <= index ->
  Forall (fun entry => is_Some (store !! snd entry)) visit ->
  forall infos : list FileInfo.t,
    GetBatchFileInfos_range store datasetCnt index visit infos
    = Done (infos ++
            omap (fun entry : string * index_ptr =>
                    match store !! snd entry with
                    | Some info => lineOf datasetCnt index info
                    | None => None
                    end) visit).
Proof.
  intros Hindex Hres. induction Hres as [|[key value] rest [info Hinfo] _ IH];
    intros infos; cbn [GetBatchFileInfos_range].
  - cbn. rewrite app_nil_r. reflexivity.
  - cbn [snd] in Hinfo. rewrite (lineAt_lineOf _ _ _ _ _ Hindex Hinfo).
    cbn [omap list_omap snd]. rewrite Hinfo.
    destruct (lineOf datasetCnt index info) as [fileInfo|]; [|apply IH].
    rewrite IH, <- app_assoc. reflexivity.
Qed.

Lemma GetBatchFileInfos_loop_spec (pManager : PrefetchManager)
    (store : list IndexInfo.t) (datasetCnt : string)
    (visits : nat -> list (string * index_ptr)) (indices : list Z) :
  registry_ok pManager store ->
  (forall n, Permutation (visits n) (map_to_list (indexFileInfoMap pManager))) ->
  Forall (fun index => 0 <= index) indices ->
  forall (n : nat) (infos : list FileInfo.t),
  exists blocks,
    GetBatchFileInfos_loop store datasetCnt visits n indices infos
    = Done (infos ++ concat blocks)
    /\ Forall2 (fun index block =>
                  Permutation block
                    (linesAt store datasetCnt index (indexFileInfoMap pManager)))
         indices blocks.
Proof.
  intros Hok Hperm Hindices. induction Hindices as [|index rest Hindex _ IH];
    intros n infos; cbn [GetBatchFileInfos_loop].
  - exists []. cbn. rewrite app_nil_r. split; [reflexivity | constructor].
  - rewrite (GetBatchFileInfos_range_spec store datasetCnt index (visits n) Hindex
               (registry_ok_resolves _ _ _ Hok (Hperm n))).
    destruct (IH (S n)
                (infos ++
                 omap (fun entry : string * index_ptr =>
                         match store !! snd entry with
                         | Some info => lineOf datasetCnt index info
                         | None => None
                         end) (visits n))) as (blocks & -> & Hblocks).
    eexists (_ :: blocks). split.
    + cbn [concat]. rewrite <- app_assoc. reflexivity.
    + constructor; [|exact Hblocks]. unfold linesAt. rewrite (Hperm n). reflexivity.
Qed.

Lemma omap_at_most_one {A B : Type} (f : A -> option B) (l : list A) :
  NoDup l ->
  (forall x y, x ∈ l -> y ∈ l -> is_Some (f x) -> is_Some (f y) -> x = y) ->
  (List.length (omap f l) <= 1)%nat.
Proof.
  intros Hnd Hone. induction Hnd as [|x rest Hnotin Hnd IH].
  - cbn. lia.
  - change (omap f (x :: rest))
      with (match f x with Some b => b :: omap f rest | None => omap f rest end).
    destruct (f x) as [b|] eqn:Hfx.
    + assert (Hrest : omap f rest = []).
      { clear IH. assert (Hall : forall y, y ∈ rest -> f y = None).
        { intros y Hy. destruct (f y) as [c|] eqn:Hfy; [|reflexivity].
          exfalso. apply Hnotin.
          rewrite (Hone x y); [exact Hy | left | right; exact Hy
                                | rewrite Hfx; eexists; reflexivity
                                | rewrite Hfy; eexists; reflexivity]. }
        clear - Hall. induction rest as [|y rest IH]; [reflexivity|].
        change (omap f (y :: rest))
          with (match f y with Some b => b :: omap f rest | None => omap f rest end).
        rewrite (Hall y) by left.
        apply IH. intros z Hz. apply Hall. right. exact Hz. }
      rewrite Hrest. cbn. lia.
    + apply IH. intros y z Hy Hz. apply Hone; right; assumption.
Qed.

(** X16. [GetBatchFileInfos] completes with a nil error whatever the
    order of the visits. Its result is made of one block for each requested
    line number, in the order of the request, and the block of a number
    holds the non-empty lines of that number of every registered index of
    the dataset, once each. When no two registered indexes are of the
    dataset, the result is determined: each block is the line of that one
    index, or empty. *)
Theorem GetBatchFileInfos_blocks (visits : nat -> list (string * index_ptr))
    (pManager : PrefetchManager) (store : list IndexInfo.t)
    (batchArr : list (list Z)) (datasetCnt : string) :
  registry_ok pManager store ->
  (forall n, Permutation (visits n) (map_to_list (indexFileInfoMap pManager))) ->
  Forall (Forall (fun index => 0 <= index)) batchArr ->
  exists blocks,
    GetBatchFileInfos visits store batchArr datasetCnt = Done (concat blocks, None)
    /\ Forall2 (fun index block =>
                  Permutation block
                    (linesAt store datasetCnt index (indexFileInfoMap pManager)))
         (concat batchArr) blocks
    /\ ((forall key l info key' l' info',
            indexFileInfoMap pManager !! key = Some l -> store !! l = Some info ->
            indexFileInfoMap pManager !! key' = Some l' -> store !! l' = Some info' ->
            IndexInfo.datasetCnt info = datasetCnt ->
            IndexInfo.datasetCnt info' = datasetCnt -> key = key') ->
        blocks = map (fun index =>
                        linesAt store datasetCnt index (indexFileInfoMap pManager))
                   (concat batchArr)
        /\ Forall (fun block => (List.length block <= 1)%nat) blocks).
Proof.
  intros Hok Hperm Hbatch.
  assert (Hindices : Forall (fun index => 0 <= index) (concat batchArr)).
  { apply Forall_concat. exact Hbatch. }
  destruct (GetBatchFileInfos_loop_spec pManager store datasetCnt visits (concat batchArr)
              Hok Hperm Hindices 0%nat []) as (blocks & Hrun & Hblocks).
  exists blocks. unfold GetBatchFileInfos. rewrite Hrun. cbn [app].
  split; [reflexivity|]. split; [exact Hblocks|].
  intros Hone.
  assert (Hlen : forall index,
             (List.length (linesAt store datasetCnt index (indexFileInfoMap pManager))
              <= 1)%nat).
  { intros index. unfold linesAt. apply omap_at_most_one.
    - apply NoDup_map_to_list.
    - intros [key l] [key' l'] Hx Hy [fi Hfx] [fi' Hfy]. cbn [snd] in Hfx, Hfy.
      apply elem_of_map_to_list in Hx. apply elem_of_map_to_list in Hy.
      destruct (store !! l) as [info|] eqn:Hl; [|discriminate Hfx].
      destruct (store !! l') as [info'|] eqn:Hl'; [|discriminate Hfy].
      unfold lineOf in Hfx, Hfy.
      destruct (String.eqb_spec (IndexInfo.datasetCnt info) datasetCnt) as [Hd|];
        [|discriminate Hfx].
      destruct (String.eqb_spec (IndexInfo.datasetCnt info') datasetCnt) as [Hd'|];
        [|discriminate Hfy].
      assert (key = key') as <- by (eapply Hone; eassumption).
      rewrite Hx in Hy. injection Hy as <-. reflexivity. }
  clear Hrun. induction Hblocks as [|index block indices blocks Hp _ IH].
  - split; [reflexivity | constructor].
  - assert (Hindices' : Forall (fun index => 0 <= index) indices)
      by (inversion Hindices; assumption).
    destruct (IH Hindices') as [IH1 IH2].
    assert (Hb : block = linesAt store datasetCnt index (indexFileInfoMap pManager)).
    { specialize (Hlen index).
      destruct (linesAt store datasetCnt index (indexFileInfoMap pManager))
        as [|a [|b t]].
      - apply Permutation_nil_r in Hp. exact Hp.
      - apply Permutation_singleton_r in Hp. exact Hp.
      - cbn in Hlen. lia. }
    split.
    + cbn [map]. rewrite <- Hb, <- IH1. reflexivity.
    + constructor; [rewrite Hb; apply Hlen | exact IH2].
Qed.

(** A batch for the dataset ["2"]: the lines 1 and 0, and a line 7 that the
    index does not have. *)
Lemma GetBatchFileInfos_blocks_scenario :
  GetBatchFileInfos (fun _ => map_to_list (indexFileInfoMap Scenario.manager_two))
    Scenario.store_two [[1; 7]; [0]] "2"
  = Done ([FileInfo.mk "/d1/f2" 102 false; FileInfo.mk "/d1/f1" 101 false], None).
Proof.
  destruct (GetBatchFileInfos_blocks
              (fun _ => map_to_list (indexFileInfoMap Scenario.manager_two))
              Scenario.manager_two Scenario.store_two [[1; 7]; [0]] "2"
              registry_ok_two (fun _ => Permutation_refl _)
              ltac:(repeat constructor; lia))
    as (blocks & Hrun & _ & Hone).
  rewrite Hrun. destruct Hone as [-> _].
  - intros key l info key' l' info' Hk Hl Hk' Hl' Hd Hd'.
    rewrite registry_two in Hk, Hk'.
    apply lookup_insert_Some in Hk. apply lookup_insert_Some in Hk'.
    destruct Hk as [[<- <-]|[_ Hk]], Hk' as [[<- <-]|[_ Hk']].
    + reflexivity.
    + apply lookup_singleton_Some in Hk'. destruct Hk' as [<- <-].
      cbn in Hl'. injection Hl' as <-. discriminate Hd'.
    + apply lookup_singleton_Some in Hk. destruct Hk as [<- <-].
      cbn in Hl. injection Hl as <-. discriminate Hd.
    + apply lookup_singleton_Some in Hk. apply lookup_singleton_Some in Hk'.
      destruct Hk as [<- _], Hk' as [<- _]. reflexivity.
  - vm_compute. reflexivity.
Defined.

End LinesByNumber.

(** ** The application pids and the read counters *)

Section PidsAndCounters.

(** X17. After any calls of [PutAppPid] and [DeleteAppPid] on a manager,
    [ContainsAppPid] tells for each pid whether the last call about it was a
    [PutAppPid], or, when no call was about it, whether it was held before;
    the calls change the pids only. *)
Theorem app_pids_follow_last_call (ops : list pidOp) (pManager : PrefetchManager)
    (pid : Z) :
  exists p',
    runPidOps ops (Some pManager) = Done (Some p')
    /\ ContainsAppPid (Some p') pid
       = Done (lastPidOp pid ops (bool_decide (is_Some (appPid pManager !! pid))))
    /\ p' = with_appPid (appPid p') pManager.
Proof.
  revert pManager. induction ops as [|op rest IH]; intros pManager.
  - exists pManager. repeat split. destruct pManager; reflexivity.
  - cbn [runPidOps lastPidOp]. destruct op as [pid'|pid'].
    + unfold PutAppPid. destruct (appPid pManager !! pid') as [held|] eqn:Hheld.
      * destruct (IH pManager) as (p' & Hrun & Hc & Hp).
        exists p'. split; [exact Hrun|]. split; [|exact Hp].
        rewrite Hc. f_equal. f_equal.
        destruct (Z.eqb_spec pid' pid) as [->|_]; [|reflexivity].
        rewrite Hheld. reflexivity.
      * destruct (IH (with_appPid (<[pid' := true]> (appPid pManager)) pManager))
          as (p' & Hrun & Hc & Hp).
        exists p'. split; [exact Hrun|]. split.
        -- rewrite Hc. f_equal. f_equal.
           replace (appPid (with_appPid (<[pid' := true]> (appPid pManager)) pManager))
             with (<[pid' := true]> (appPid pManager)) by (destruct pManager; reflexivity).
           destruct (Z.eqb_spec pid' pid) as [->|Hne].
           ++ rewrite lookup_insert_eq. reflexivity.
           ++ rewrite lookup_insert_ne by exact Hne. reflexivity.
        -- rewrite Hp at 1. destruct pManager; reflexivity.
    + unfold DeleteAppPid.
      destruct (IH (with_appPid (delete pid' (appPid pManager)) pManager))
        as (p' & Hrun & Hc & Hp).
      exists p'. split; [exact Hrun|]. split.
      * rewrite Hc. f_equal. f_equal.
        replace (appPid (with_appPid (delete pid' (appPid pManager)) pManager))
          with (delete pid' (appPid pManager)) by (destruct pManager; reflexivity).
        destruct (Z.eqb_spec pid' pid) as [->|Hne].
        -- rewrite lookup_delete_eq. reflexivity.
        -- rewrite lookup_delete_ne by exact Hne. reflexivity.
      * rewrite Hp at 1. destruct pManager; reflexivity.
Qed.

Lemma AddUint64_count (v n : Z) :
  0 <= v < 2 ^ 64 -> 0 <= n ->
  AddUint64 ((v + n) mod 2 ^ 64) 1 = (v + (n + 1)) mod 2 ^ 64.
Proof.
  intros _ _. unfold AddUint64. rewrite Z.add_mod_idemp_l by lia. f_equal. lia.
Qed.

Lemma runReadOps_counts (ops : list readOp) :
  forall (pManager : PrefetchManager) (total app nTotal nApp : Z),
    0 <= total < 2 ^ 64 -> 0 <= app < 2 ^ 64 -> 0 <= nTotal -> 0 <= nApp ->
    metrics pManager = mkMetrics ((app + nApp) mod 2 ^ 64) ((total + nTotal) mod 2 ^ 64) ->
    exists p',
      runReadOps ops (Some pManager) = Done (Some p')
      /\ metrics p'
         = mkMetrics
             ((app + (nApp + Z.of_nat (List.length (List.filter isAppRead ops))))
                mod 2 ^ 64)
             ((total + (nTotal + Z.of_nat (List.length (List.filter isTotalRead ops))))
                mod 2 ^ 64)
      /\ p' = with_metrics (metrics p') pManager.
Proof.
  induction ops as [|op rest IH]; intros pManager total app nTotal nApp Ht Ha HnT HnA Hm.
  - exists pManager. cbn [runReadOps List.filter List.length]. rewrite !Z.add_0_r.
    repeat split; [exact Hm | destruct pManager; reflexivity].
  - cbn [runReadOps]. destruct op.
    + unfold AddTotalReadCount. rewrite Hm. cbn [appReadCount totalReadCount].
      rewrite (AddUint64_count total nTotal Ht HnT).
      edestruct (IH (with_metrics (mkMetrics ((app + nApp) mod 2 ^ 64)
                                     ((total + (nTotal + 1)) mod 2 ^ 64)) pManager)
                   total app (nTotal + 1) nApp Ht Ha ltac:(lia) HnA)
        as (p' & Hrun & Hmet & Hp); [destruct pManager; reflexivity|].
      exists p'. split; [exact Hrun|]. split.
      * rewrite Hmet. cbn [List.filter isAppRead isTotalRead List.length].
        f_equal; f_equal; lia.
      * rewrite Hp at 1. destruct pManager; reflexivity.
    + unfold AddAppReadCount. rewrite Hm. cbn [appReadCount totalReadCount].
      rewrite (AddUint64_count app nApp Ha HnA).
      edestruct (IH (with_metrics (mkMetrics ((app + (nApp + 1)) mod 2 ^ 64)
                                     ((total + nTotal) mod 2 ^ 64)) pManager)
                   total app nTotal (nApp + 1) Ht Ha HnT ltac:(lia))
        as (p' & Hrun & Hmet & Hp); [destruct pManager; reflexivity|].
      exists p'. split; [exact Hrun|]. split.
      * rewrite Hmet. cbn [List.filter isAppRead isTotalRead List.length].
        f_equal; f_equal; lia.
      * rewrite Hp at 1. destruct pManager; reflexivity.
Qed.

(** X18. The two read counters count their calls modulo 2^64, each for
    itself and in whatever order the calls come, and change nothing else;
    the metrics tick that follows reads exactly these counts and leaves
    both counters at zero. *)
Theorem read_counters_count_calls (ops : list readOp) (pManager : PrefetchManager) :
  0 <= totalReadCount (metrics pManager) < 2 ^ 64 ->
  0 <= appReadCount (metrics pManager) < 2 ^ 64 ->
  exists p',
    runReadOps ops (Some pManager) = Done (Some p')
    /\ p' = with_metrics (metrics p') pManager
    /\ metricsTick p'
       = ((totalReadCount (metrics pManager)
           + Z.of_nat (List.length (List.filter isTotalRead ops))) mod 2 ^ 64,
          (appReadCount (metrics pManager)
           + Z.of_nat (List.length (List.filter isAppRead ops))) mod 2 ^ 64,
          with_metrics (mkMetrics 0 0) pManager).
Proof.
  intros Ht Ha.
  destruct (runReadOps_counts ops pManager (totalReadCount (metrics pManager))
              (appReadCount (metrics pManager)) 0 0 Ht Ha ltac:(lia) ltac:(lia))
    as (p' & Hrun & Hmet & Hp).
  { rewrite !Z.add_0_r, !Z.mod_small by assumption. destruct (metrics pManager); reflexivity. }
  exists p'. split; [exact Hrun|]. split; [exact Hp|].
  unfold metricsTick. rewrite Hmet. cbn [totalReadCount appReadCount].
  rewrite !Z.add_0_l. f_equal. rewrite Hp. destruct pManager; reflexivity.
Qed.

(** Three reads, one of them by the application, from a counter one short
    of wrapping around. *)
Lemma read_counters_count_calls_scenario :
  exists p',
    runReadOps [OpTotalRead; OpAppRead; OpTotalRead]
      (Some (with_metrics (mkMetrics 0 (2 ^ 64 - 1)) Scenario.manager)) = Done (Some p')
    /\ metricsTick p' = (1, 1, Scenario.manager).
Proof.
  destruct (read_counters_count_calls [OpTotalRead; OpAppRead; OpTotalRead]
              (with_metrics (mkMetrics 0 (2 ^ 64 - 1)) Scenario.manager))
    as (p' & Hrun & _ & Htick).
  - cbn. lia.
  - cbn. lia.
  - exists p'. split; [exact Hrun|]. rewrite Htick. reflexivity.
Defined.

End PidsAndCounters.

(** ** A dataset count below zero *)

Section NegativeCount.

(** X19. [AddIndexFilepath] does not look at the dataset count. For a
    path that is not registered and whose file exists, on an open manager, a
    dataset count that parses as a negative integer is accepted like any
    other: no error, and the new index queued for loading. Once its file can
    be opened, [readIndexFileByLine] asks [make] for a negative capacity,
    and [LoadIndex] on the queued index panics, whatever the file holds. *)
Theorem AddIndexFilepath_negative_count (clk : addClock) (pManager : PrefetchManager)
    (store : list IndexInfo.t) (datasetCnt path : string) (ttlMinute : Z) :
  indexFileInfoMap pManager !! path = None ->
  isClosed pManager = false ->
  capacityHint datasetCnt < 0 ->
  let '(err, p', store') :=
    AddIndexFilepath clk None pManager store datasetCnt path ttlMinute in
  err = None
  /\ indexInfoChan p' = indexInfoChan pManager ++ [List.length store]
  /\ indexFileInfoMap p' !! path = Some (List.length store)
  /\ forall (dc : DirClient) (clk' : loadClock) (lines : list string)
            (scanErr : option error),
       readIndexFileByLine p' store' (List.length store) (inl (lines, scanErr))
       = Panic "makeslice: cap out of range"
       /\ LoadIndex dc clk' p' store' (List.length store) (inl (lines, scanErr))
          = Panic "makeslice: cap out of range".
Proof.
  intros Hreg Hopen Hneg. unfold AddIndexFilepath. rewrite Hreg.
  cbv beta iota zeta. unfold putIndexInfoChan.
  replace (isClosed (with_indexFileInfoMap _ pManager)) with false
    by (destruct pManager; cbn in *; congruence).
  split; [reflexivity|]. split; [destruct pManager; reflexivity|].
  split; [destruct pManager; cbn; apply lookup_insert_eq|].
  intros dc clk' lines scanErr.
  assert (Hread : forall p candidate,
             IndexInfo.datasetCnt candidate = datasetCnt ->
             readIndexFileByLine p (store ++ [candidate]) (List.length store)
               (inl (lines, scanErr)) = Panic "makeslice: cap out of range").
  { intros p candidate Hd. unfold readIndexFileByLine.
    rewrite lookup_app_r by lia. rewrite Nat.sub_diag.
    change ([candidate] !! 0%nat) with (Some candidate). cbv beta iota zeta.
    rewrite Hd. unfold capOutOfRange.
    destruct (Z.ltb_spec (capacityHint datasetCnt) 0) as [_|Hge]; [reflexivity | lia]. }
  unfold LoadIndex. destruct (0 <? ttlMinute); rewrite Hread by reflexivity;
    split; reflexivity.
Qed.

(** The dataset count ["-1"]. *)
Lemma AddIndexFilepath_negative_count_scenario :
  capacityHint "-1" = -1
  /\ let '(err, p', store') :=
       AddIndexFilepath (mkAddClock 0 0 0 (fun _ => 0)) None Scenario.manager []
         "-1" "/idx/c.txt" 0 in
     err = None
     /\ indexInfoChan p' = [0%nat]
     /\ LoadIndex Scenario.dirs Scenario.load_clock p' store' 0
          (inl (["/mnt/v/d1/f1"%string], None))
        = Panic "makeslice: cap out of range".
Proof.
  split; [reflexivity|].
  pose proof (AddIndexFilepath_negative_count (mkAddClock 0 0 0 (fun _ => 0))
                Scenario.manager [] "-1" "/idx/c.txt" 0 eq_refl eq_refl
                ltac:(vm_compute; reflexivity)) as H.
  destruct (AddIndexFilepath _ _ _ _ _ _ _) as [[err p'] store'].
  destruct H as (He & Hq & _ & Hload).
  split; [exact He|]. split; [exact Hq|].
  exact (proj2 (Hload Scenario.dirs Scenario.load_clock ["/mnt/v/d1/f1"%string] None)).
Defined.

End NegativeCount.

(** ** The stream of a writer stays readable *)

Section StreamInvariant.

Import GoBytes.

Lemma Uint64_app (s extra : list byte) :
  (8 <= List.length s)%nat -> Uint64 (s ++ extra) = Uint64 s.
Proof.
  intros H. unfold Uint64. rewrite take_app_le by exact H. reflexivity.
Qed.

(** What is read of a record does not depend on what follows it. *)
Lemma parseRecord_app (s extra path data rest : list byte) :
  parseRecord s = Some (path, data, rest) ->
  parseRecord (s ++ extra) = Some (path, data, rest ++ extra).
Proof.
  unfold parseRecord.
  destruct (Nat.ltb_spec (List.length s) 8) as [|H1]; [discriminate|].
  replace (List.length (s ++ extra) <? 8)%nat with false
    by (symmetry; apply Nat.ltb_ge; rewrite length_app; lia).
  rewrite (Uint64_app s extra H1).
  rewrite (drop_app_le s extra 8) by exact H1.
  set (pathLen := Z.to_nat (Uint64 s)). set (s1 := skipn 8 s).
  destruct (Nat.ltb_spec (List.length s1) pathLen) as [|H2]; [discriminate|].
  replace (List.length (s1 ++ extra) <? pathLen)%nat with false
    by (symmetry; apply Nat.ltb_ge; rewrite length_app; lia).
  rewrite (drop_app_le s1 extra pathLen) by exact H2.
  rewrite (take_app_le s1 extra pathLen) by exact H2.
  set (s2 := skipn pathLen s1).
  destruct (Nat.ltb_spec (List.length s2) 8) as [|H3]; [discriminate|].
  replace (List.length (s2 ++ extra) <? 8)%nat with false
    by (symmetry; apply Nat.ltb_ge; rewrite length_app; lia).
  rewrite (Uint64_app s2 extra H3).
  rewrite (drop_app_le s2 extra 8) by exact H3.
  set (dataLen := Z.to_nat (Uint64 s2)). set (s3 := skipn 8 s2).
  destruct (Nat.ltb_spec (List.length s3) dataLen) as [|H4]; [discriminate|].
  replace (List.length (s3 ++ extra) <? dataLen)%nat with false
    by (symmetry; apply Nat.ltb_ge; rewrite length_app; lia).
  rewrite (drop_app_le s3 extra dataLen) by exact H4.
  rewrite (take_app_le s3 extra dataLen) by exact H4.
  intros H. injection H as <- <- <-. reflexivity.
Qed.

Lemma parseStream_cons (fuel : nat) (b : byte) (stream : list byte) :
  parseStream (S fuel) (b :: stream)
  = match parseRecord (b :: stream) with
    | None => None
    | Some (path, data, rest) =>
        match parseStream fuel rest with
        | None => None
        | Some records => Some ((path, data) :: records)
        end
    end.
Proof. reflexivity. Qed.

(** A readable stream with one more record is readable, with one more
    record. *)
Lemma parseStream_snoc (filePath : string) (data : list byte) :
  Z.of_nat (String.length filePath) < 2 ^ 64 ->
  Z.of_nat (List.length data) < 2 ^ 64 ->
  forall (fuel : nat) (stream : list byte) (records : list (list byte * list byte)),
    parseStream fuel stream = Some records ->
    parseStream (S fuel)
      (stream ++ be_uint64 (uint64 (Z.of_nat (String.length filePath)))
              ++ bytes_of_string filePath
              ++ be_uint64 (uint64 (Z.of_nat (List.length data)))
              ++ data)
    = Some (records ++ [(bytes_of_string filePath, data)]).
Proof.
  intros HL Hn.
  set (record := be_uint64 (uint64 (Z.of_nat (String.length filePath)))
                 ++ bytes_of_string filePath
                 ++ be_uint64 (uint64 (Z.of_nat (List.length data))) ++ data).
  assert (Hrecord : parseStream 1 record = Some [(bytes_of_string filePath, data)]).
  { destruct record as [|b tl] eqn:Hrec.
    { apply (f_equal (@List.length byte)) in Hrec. unfold record in Hrec.
      rewrite length_app, length_be_uint64 in Hrec. discriminate Hrec. }
    cbn [parseStream]. rewrite <- Hrec. unfold record.
    pose proof (parseRecord_fields filePath data [] HL Hn) as H.
    rewrite app_nil_r in H. rewrite H. reflexivity. }
  induction fuel as [|fuel IH]; intros stream records H.
  - destruct stream as [|b tl]; [|discriminate H].
    injection H as <-. exact Hrecord.
  - destruct stream as [|b tl].
    + injection H as <-. cbn [app].
      destruct record as [|b tl] eqn:Hrec; [discriminate Hrecord|].
      cbn [parseStream] in Hrecord |- *.
      destruct (parseRecord (b :: tl)) as [[[path0 data0] rest0]|]; [|discriminate Hrecord].
      destruct rest0 as [|c rest0]; [|discriminate Hrecord].
      exact Hrecord.
    + cbn [parseStream] in H.
      destruct (parseRecord (b :: tl)) as [[[path0 data0] rest0]|] eqn:Hp;
        [|discriminate H].
      destruct (parseStream fuel rest0) as [records0|] eqn:Hrest; [|discriminate H].
      injection H as <-.
      change ((b :: tl) ++ record) with (b :: (tl ++ record)).
      rewrite parseStream_cons.
      change (b :: (tl ++ record)) with ((b :: tl) ++ record).
      rewrite (parseRecord_app _ record _ _ _ Hp). cbv beta iota.
      rewrite (IH rest0 records0 Hrest). reflexivity.
Qed.

(** X20. [ReadData] keeps the stream of every writer readable. For a
    writer whose output so far is read back as some records, a download job
    leaves that output as it is only for a writer that is not the job's,
    when the job returns an error, or when [Read] gave no byte for the
    inode of the job; in every other case it returns no error and extends
    the output of the job's writer by one slice, so that the output is read
    back as the same records and one more: the path of the job and the
    bytes that [Read] gave for the inode of the job. *)
Theorem ReadData_extends_stream (ec : ExtentClient) (pool : BlockPool)
    (now : Z -> GoTime.Time) (pManager : PrefetchManager)
    (ws : gmap resp_ptr BatchDownloadRespWriter) (dInfo : DownloadFileInfo)
    (w : resp_ptr) (r : BatchDownloadRespWriter) (fuel : nat)
    (records : list (list byte * list byte)) :
  pool_ok pool ->
  read_ok ec ->
  Z.of_nat (String.length (absPath dInfo)) < 2 ^ 64 ->
  (forall ino, fst (FileSize ec ino) < 2 ^ 64) ->
  ws !! w = Some r ->
  parseStream fuel (concat (Writer r)) = Some records ->
  let '(err, _, ws', tr) := ReadData ec pool now pManager ws dInfo in
  exists r',
    ws' !! w = Some r'
    /\ ((Writer r' = Writer r
         /\ (w <> resp dInfo
             \/ err <> None
             \/ exists inodeID,
                  fst (fst (jobInode ec now pManager dInfo)) = inl inodeID
                  /\ fst (Read ec inodeID (fst (FileSize ec inodeID))) = []))
        \/ (w = resp dInfo
            /\ err = None
            /\ exists inodeID data record,
                 fst (fst (jobInode ec now pManager dInfo)) = inl inodeID
                 /\ data = fst (Read ec inodeID (fst (FileSize ec inodeID)))
                 /\ data <> []
                 /\ Writer r' = Writer r ++ [record]
                 /\ parseStream (S fuel) (concat (Writer r'))
                    = Some (records ++ [(bytes_of_string (absPath dInfo), data)]))).
Proof.
  intros Hpool Hread HL Hsize Hw Hparse.
  unfold ReadData in *. unfold ReadData_body in *.
  pose proof (jobInode_count isWrite ec now pManager dInfo
                ltac:(intros; reflexivity) ltac:(intros; reflexivity)
                ltac:(intros; reflexivity) ltac:(intros; reflexivity)) as Hjob.
  destruct (jobInode ec now pManager dInfo) as [[res p] tr0]. cbn [fst snd] in *.
  assert (Hsame : forall err fr,
             f_err fr = Some err ->
             exists r',
               fst (ReadData_deferred pool dInfo fr ws) !! w = Some r'
               /\ Writer r' = Writer r).
  { intros err fr Hfr. unfold ReadData_deferred. rewrite Hfr. cbn [fst].
    unfold WgDone, WgAdd. destruct (decide (resp dInfo = w)) as [->|Hne].
    - rewrite lookup_alter_eq, Hw. eexists. split; reflexivity.
    - rewrite lookup_alter_ne by exact Hne. eauto. }
  destruct res as [inodeID|err].
  2:{ destruct (Hsame err (mkFrame (Some err) [] 0 p tr0) eq_refl) as (r' & H1 & H2).
      destruct (ReadData_deferred _ _ _ _) as [ws' tr]. cbn [fst] in H1.
      exists r'. split; [exact H1|]. left. split; [exact H2|]. right. left. discriminate. }
  destruct (OpenStream ec inodeID) as [err|].
  { destruct (Hsame err (mkFrame (Some err) [] 0 p
                           (tr0 ++ [EvOpenStream inodeID (Some err)])) eq_refl)
      as (r' & H1 & H2).
    destruct (ReadData_deferred _ _ _ _) as [ws' tr]. cbn [fst] in H1.
    exists r'. split; [exact H1|]. left. split; [exact H2|]. right. left. discriminate. }
  specialize (Hsize inodeID).
  destruct (FileSize ec inodeID) as [fileSize valid] eqn:Hfs. cbn [fst] in Hsize.
  destruct (negb valid || (fileSize =? 0))%bool.
  { destruct (Hsame (ErrFileSize fileSize)
                (mkFrame (Some (ErrFileSize fileSize)) [] 0 p
                   (tr0 ++ [EvOpenStream inodeID None; EvCloseStream inodeID])) eq_refl)
      as (r' & H1 & H2).
    destruct (ReadData_deferred _ _ _ _) as [ws' tr]. cbn [fst] in H1.
    exists r'. split; [exact H1|]. left. split; [exact H2|]. right. left. discriminate. }
  specialize (Hread inodeID fileSize).
  destruct (Read ec inodeID fileSize) as [data rerr] eqn:Hrd. cbn [fst] in Hread.
  destruct rerr as [cause|].
  { destruct (Hsame (ErrRead cause fileSize (Z.of_nat (List.length data)))
                (mkFrame (Some (ErrRead cause fileSize (Z.of_nat (List.length data))))
                   (copy_into (GetBlockBuf pool fileSize) 0 (Z.to_nat fileSize) data)
                   (Z.of_nat (List.length data)) p
                   (tr0 ++ [EvOpenStream inodeID None; EvGetBlockBuf ContentBuf fileSize;
                            EvRead inodeID fileSize; EvCloseStream inodeID])) eq_refl)
      as (r' & H1 & H2).
    destruct (ReadData_deferred _ _ _ _) as [ws' tr]. cbn [fst] in H1.
    exists r'. split; [exact H1|]. left. split; [exact H2|]. right. left. discriminate. }
  unfold ReadData_deferred. cbn [f_err f_readSize f_content f_events].
  destruct (Z.ltb_spec 0 (Z.of_nat (List.length data))) as [Hpos|Hzero].
  - destruct (decide (resp dInfo = w)) as [Heq|Hne].
    + subst w. unfold WgDone, WgAdd, write.
      rewrite !lookup_alter_eq, Hw. cbn [fmap option_fmap option_map Writer Wg].
      eexists. split; [reflexivity|]. right.
      split; [reflexivity|]. split; [reflexivity|].
      exists inodeID, data. eexists. split; [reflexivity|].
      split; [rewrite Hfs; cbn [fst]; rewrite Hrd; reflexivity|].
      split; [destruct data; [cbn in Hpos; lia | discriminate]|].
      split; [reflexivity|].
      cbn [Writer]. rewrite concat_app. cbn [concat]. rewrite app_nil_r.
      rewrite (downloadRecord_fields pool (absPath dInfo) _ data Hpool
                 (content_after_read pool fileSize data Hpool Hread)).
      apply parseStream_snoc; [exact HL | | exact Hparse].
      assert (0 <= fileSize \/ fileSize < 0) as [Hf|Hf] by lia; lia.
    + unfold WgDone, WgAdd, write. rewrite !lookup_alter_ne by exact Hne.
      exists r. split; [exact Hw|]. left. split; [reflexivity|]. left. congruence.
  - unfold WgDone, WgAdd. exists (match decide (resp dInfo = w) with
                                  | left _ => mkResp (Wg r + -1) (Writer r)
                                  | right _ => r
                                  end).
    destruct (decide (resp dInfo = w)) as [->|Hne].
    + rewrite lookup_alter_eq, Hw. split; [reflexivity|]. left.
      split; [reflexivity|]. right. right.
      exists inodeID. split; [reflexivity|].
      rewrite Hfs. cbn [fst]. rewrite Hrd. cbn [fst].
      destruct data; [reflexivity | cbn in Hzero; lia].
    + rewrite lookup_alter_ne by exact Hne. split; [exact Hw|]. left.
      split; [reflexivity|]. left. congruence.
Qed.

(** The job for [f1]: from an empty stream to the one record of its three
    bytes. *)
Lemma ReadData_extends_stream_scenario :
  exists r',
    snd (fst (ReadData Scenario.ec Scenario.pool Scenario.now Scenario.manager
                Scenario.writers Scenario.job_f1)) !! 0%nat = Some r'
    /\ parseStream 1 (concat (Writer r'))
       = Some [(bytes_of_string "/mnt/v/d1/f1", bytes_of_string "abc")].
Proof.
  pose proof (ReadData_extends_stream Scenario.ec Scenario.pool Scenario.now
                Scenario.manager Scenario.writers Scenario.job_f1 0%nat
                (mkResp 1 []) 0%nat []) as H.
  destruct (ReadData Scenario.ec Scenario.pool Scenario.now Scenario.manager
              Scenario.writers Scenario.job_f1) as [[[err p'] ws'] tr] eqn:E.
  destruct H as (r' & Hr & Hcases).
  - intros size. unfold Scenario.pool. cbn [GetBlockBuf]. rewrite repeat_length. lia.
  - intros ino size. unfold Scenario.ec. cbn [Read].
    destruct (ino =? 101); cbn [fst]; [rewrite length_take|]; simpl; lia.
  - cbn. lia.
  - intros ino. unfold Scenario.ec. cbn [FileSize]. destruct (ino =? 101); cbn; lia.
  - reflexivity.
  - reflexivity.
  - exists r'. split; [exact Hr|].
    assert (Hws : ws' = snd (fst (ReadData Scenario.ec Scenario.pool Scenario.now
                                    Scenario.manager Scenario.writers Scenario.job_f1)))
      by (rewrite E; reflexivity).
    destruct Hcases
      as [[Hsame _]|(_ & _ & inodeID & data & record & Hino & Hdata & _ & _ & Hparse)].
    + exfalso. rewrite Hws in Hr. vm_compute in Hr. injection Hr as <-.
      discriminate Hsame.
    + rewrite Hparse. cbn [app]. f_equal. f_equal. f_equal.
      vm_compute in Hino. injection Hino as <-. rewrite Hdata. reflexivity.
Defined.

End StreamInvariant.

(** ** Warming the inode cache *)

Section InodeCache.

Lemma inodeAt_inodeOf (store : list IndexInfo.t) (datasetCnt : string) (index : Z)
    (value : index_ptr) (info : IndexInfo.t) :
  0 <= index ->
  store !! value = Some info ->
  Z.of_nat (List.length (IndexInfo.fileInfoMap info)) <= 2 ^ 32 ->
  inodeAt store datasetCnt index value = Done (inodeOf datasetCnt index info).
Proof.
  intros Hindex Hinfo Hlen. unfold inodeAt, inodeOf. rewrite Hinfo.
  destruct (String.eqb (IndexInfo.datasetCnt info) datasetCnt); [|reflexivity].
  cbn [negb]. destruct (Z.leb_spec (Z.of_nat (List.length (IndexInfo.fileInfoMap info))) index)
    as [Hout|Hin].
  - rewrite (lookup_ge_None_2 (IndexInfo.fileInfoMap info) (Z.to_nat index)) by lia.
    reflexivity.
  - rewrite Z.mod_small by lia.
    destruct (lookup_lt_is_Some_2 (IndexInfo.fileInfoMap info) (Z.to_nat index))
      as [fileInfo ->]; [lia|].
    destruct (FileInfo.inoID fileInfo =? 0); reflexivity.
Qed.

Lemma PrefetchInodeInfo_range_spec (store : list IndexInfo.t) (datasetCnt : string)
    (index : Z) (visit : list (string * index_ptr)) :
  0 <= index ->
  Forall (fun entry =>
            exists info, store !! snd entry = Some info
                         /\ Z.of_nat (List.length (IndexInfo.fileInfoMap info)) <= 2 ^ 32)
    visit ->
  forall inodes : list Z,
    PrefetchInodeInfo_range store datasetCnt index visit inodes
    = Done (inodes ++
            omap (fun entry : string * index_ptr =>
                    match store !! snd entry with
                    | Some info => inodeOf datasetCnt index info
                    | None => None
                    end) visit).
Proof.
  intros Hindex Hres. induction Hres as [|[key value] rest (info & Hinfo & Hlen) _ IH];
    intros inodes; cbn [PrefetchInodeInfo_range].
  - cbn. rewrite app_nil_r. reflexivity.
  - cbn [snd] in Hinfo. rewrite (inodeAt_inodeOf _ _ _ _ _ Hindex Hinfo Hlen).
    cbn [omap list_omap snd]. rewrite Hinfo.
    destruct (inodeOf datasetCnt index info) as [inode|]; [|apply IH].
    rewrite IH, <- app_assoc. reflexivity.
Qed.

Lemma inodeOf_nonzero (datasetCnt : string) (index : Z) (info : IndexInfo.t) (inode : Z) :
  inodeOf datasetCnt index info = Some inode -> inode <> 0.
Proof.
  unfold inodeOf. destruct (String.eqb _ _); [|discriminate].
  destruct (_ !! _) as [fileInfo|]; [|discriminate].
  destruct (Z.eqb_spec (FileInfo.inoID fileInfo) 0); [discriminate|].
  intros H. injection H as <-. assumption.
Qed.

Lemma PrefetchInodeInfo_loop_spec (pManager : PrefetchManager)
    (store : list IndexInfo.t) (datasetCnt : string)
    (visits : nat -> list (string * index_ptr)) (indices : list Z) :
  registry_ok pManager store ->
  (forall key l info,
      indexFileInfoMap pManager !! key = Some l -> store !! l = Some info ->
      Z.of_nat (List.length (IndexInfo.fileInfoMap info)) <= 2 ^ 32) ->
  (forall n, Permutation (visits n) (map_to_list (indexFileInfoMap pManager))) ->
  Forall (fun index => 0 <= index) indices ->
  forall (n : nat) (inodes : list Z),
  exists blocks,
    PrefetchInodeInfo_loop store datasetCnt visits n indices inodes
    = Done (inodes ++ concat blocks)
    /\ Forall2 (fun index block =>
                  Permutation block
                    (inodesAt store datasetCnt index (indexFileInfoMap pManager)))
         indices blocks.
Proof.
  intros Hok Hlen Hperm Hindices.
  assert (Hres : forall n,
             Forall (fun entry =>
                       exists info,
                         store !! snd entry = Some info
                         /\ Z.of_nat (List.length (IndexInfo.fileInfoMap info)) <= 2 ^ 32)
               (visits n)).
  { intros n. apply Forall_forall. intros [key value] Hin.
    rewrite (Hperm n) in Hin. apply elem_of_map_to_list in Hin.
    destruct (Hok key value Hin) as (info & Hinfo & _). exists info.
    split; [exact Hinfo | exact (Hlen key value info Hin Hinfo)]. }
  induction Hindices as [|index rest Hindex _ IH]; intros n inodes;
    cbn [PrefetchInodeInfo_loop].
  - exists []. cbn. rewrite app_nil_r. split; [reflexivity | constructor].
  - rewrite (PrefetchInodeInfo_range_spec store datasetCnt index (visits n) Hindex (Hres n)).
    destruct (IH (S n)
                (inodes ++
                 omap (fun entry : string * index_ptr =>
                         match store !! snd entry with
                         | Some info => inodeOf datasetCnt index info
                         | None => None
                         end) (visits n))) as (blocks & -> & Hblocks).
    eexists (_ :: blocks). split.
    + cbn [concat]. rewrite <- app_assoc. reflexivity.
    + constructor; [|exact Hblocks]. unfold inodesAt. rewrite (Hperm n). reflexivity.
Qed.

(** X21. [PrefetchInodeInfo], the registered indexes having at most 2^32
    lines each, completes whatever the order of the visits. Without the
    hook [putIcache] it calls nothing. With it, the inodes it collects are
    one block for each requested line number, in the order of the request,
    the block of a number holding the inodes, none of them zero, of the
    lines of that number of every registered index of the dataset; when
    there is none it calls nothing, and otherwise it calls [batchInodeGet]
    once, with all of them, and then [putIcache] on each info returned, in
    order. *)
Theorem PrefetchInodeInfo_calls {Info : Type} (ic : IcacheClient Info)
    (visits : nat -> list (string * index_ptr)) (pManager : PrefetchManager)
    (store : list IndexInfo.t) (datasetCnt : string) (batchArr : list (list Z)) :
  registry_ok pManager store ->
  (forall key l info,
      indexFileInfoMap pManager !! key = Some l -> store !! l = Some info ->
      Z.of_nat (List.length (IndexInfo.fileInfoMap info)) <= 2 ^ 32) ->
  (forall n, Permutation (visits n) (map_to_list (indexFileInfoMap pManager))) ->
  Forall (Forall (fun index => 0 <= index)) batchArr ->
  exists calls,
    PrefetchInodeInfo ic visits store datasetCnt batchArr = Done calls
    /\ (hasPutIcache ic = false -> calls = [])
    /\ (hasPutIcache ic = true ->
        exists blocks,
          Forall2 (fun index block =>
                     Permutation block
                       (inodesAt store datasetCnt index (indexFileInfoMap pManager)))
            (concat batchArr) blocks
          /\ Forall (fun inode => inode <> 0) (concat blocks)
          /\ calls = match concat blocks with
                     | [] => []
                     | _ :: _ =>
                         EvBatchInodeGet (concat blocks)
                         :: List.map EvPutIcache (batchInodeGet ic (concat blocks))
                     end).
Proof.
  intros Hok Hlen Hperm Hbatch. unfold PrefetchInodeInfo.
  destruct (hasPutIcache ic); cbn [negb].
  2:{ exists []. split; [reflexivity|]. split; [reflexivity | discriminate]. }
  assert (Hindices : Forall (fun index => 0 <= index) (concat batchArr)).
  { apply Forall_concat. exact Hbatch. }
  destruct (PrefetchInodeInfo_loop_spec pManager store datasetCnt visits (concat batchArr)
              Hok Hlen Hperm Hindices 0%nat []) as (blocks & -> & Hblocks).
  cbn [app].
  exists (match concat blocks with
          | [] => []
          | _ :: _ =>
              EvBatchInodeGet (concat blocks)
              :: List.map EvPutIcache (batchInodeGet ic (concat blocks))
          end).
  split; [destruct (concat blocks); reflexivity|]. split; [discriminate|].
  intros _. exists blocks. split; [exact Hblocks|]. split.
  - apply Forall_concat. clear - Hblocks.
    induction Hblocks as [|index block indices blocks Hp _ IH]; constructor; [|exact IH].
    apply Forall_forall. intros inode Hin. rewrite Hp in Hin.
    unfold inodesAt in Hin. apply list_elem_of_omap in Hin.
    destruct Hin as ([key value] & _ & Hsome). cbn [snd] in Hsome.
    destruct (store !! value) as [info|]; [|discriminate Hsome].
    exact (inodeOf_nonzero _ _ _ _ Hsome).
  - reflexivity.
Qed.

(** A batch for the dataset ["2"] on a client whose infos are the inodes
    asked for: the lines 1 and 0, and a line 7 that the index does not
    have. *)
Lemma PrefetchInodeInfo_calls_scenario :
  PrefetchInodeInfo (mkIcacheClient true (fun inodes : list Z => inodes))
    (fun _ => map_to_list (indexFileInfoMap Scenario.manager_two))
    Scenario.store_two "2" [[1; 7]; [0]]
  = Done [EvBatchInodeGet [102; 101]; EvPutIcache 102; EvPutIcache 101].
Proof.
  destruct (PrefetchInodeInfo_calls (mkIcacheClient true (fun inodes : list Z => inodes))
              (fun _ => map_to_list (indexFileInfoMap Scenario.manager_two))
              Scenario.manager_two Scenario.store_two "2" [[1; 7]; [0]])
    as (calls & Hrun & _ & Hcalls).
  - exact registry_ok_two.
  - intros key l info Hk Hl. rewrite registry_two in Hk.
    apply lookup_insert_Some in Hk. destruct Hk as [[<- <-]|[_ Hk]].
    + cbn in Hl. injection Hl as <-. cbn. lia.
    + apply lookup_singleton_Some in Hk. destruct Hk as [<- <-].
      cbn in Hl. injection Hl as <-. cbn. lia.
  - intros n. reflexivity.
  - repeat constructor; lia.
  - rewrite Hrun. f_equal.
    destruct (Hcalls eq_refl) as (blocks & Hblocks & _ & ->).
    cbn [concat app] in Hblocks.
    inversion Hblocks as [|i1 b1 r1 bs1 Hp1 Hrest1]; subst.
    inversion Hrest1 as [|i2 b2 r2 bs2 Hp2 Hrest2]; subst.
    inversion Hrest2 as [|i3 b3 r3 bs3 Hp3 Hrest3]; subst.
    inversion Hrest3; subst.
    assert (H1 : inodesAt Scenario.store_two "2" 1 (indexFileInfoMap Scenario.manager_two)
                 = [102]) by (vm_compute; reflexivity).
    assert (H2 : inodesAt Scenario.store_two "2" 7 (indexFileInfoMap Scenario.manager_two)
                 = []) by (vm_compute; reflexivity).
    assert (H3 : inodesAt Scenario.store_two "2" 0 (indexFileInfoMap Scenario.manager_two)
                 = [101]) by (vm_compute; reflexivity).
    rewrite H1 in Hp1. rewrite H2 in Hp2. rewrite H3 in Hp3.
    apply Permutation_singleton_r in Hp1. apply Permutation_nil_r in Hp2.
    apply Permutation_singleton_r in Hp3. subst. reflexivity.
Defined.

End InodeCache.
